(** * Smart-Sound-Alert: the acoustic detection engine of
      [hooks/useMicrophoneListener.ts]

    A shallow embedding of the three signature classifiers
    ([detectFireAlarm], [detectDoorbell], [detectBabyCrying]), of the
    analysis cycle [analyzeAudio] with its level smoothing and its
    confidence/cooldown gate, and of [startListening] / [stopListening].

    Modelling conventions.
    - A JavaScript [number] is an exact rational ([Q]): every constant of
      the source is a decimal, and the four operations, [Math.min],
      [Math.floor], [Math.ceil] and [Math.round] are exact on rationals.
      [Math.sqrt], whose value is irrational in general, is a parameter
      of the engine.  The rounding of binary64 arithmetic is modelled
      where a statement depends on it: the level computation of
      [analyzeAudio] is embedded a second time over binary64 numbers
      (module [Binary64]).
    - [Uint8Array] is a list of bytes; indices, bin numbers, counters and
      millisecond clock readings are integers ([Z]).
    - The refs of the hook ([useRef]) and its React state ([useState]) are
      the fields of one record that every operation takes and returns; the
      [onSoundDetected] callback is the list of events a cycle returns.
    - What the browser decides (the analyser's frame, the clock, whether
      the microphone is granted) is an input of the operation that asks.
    - The operations are the callbacks of the hook, and a session is a
      sequence of calls of them.  The props a callback closes over
      ([isListening], [enabledSounds]) are arguments of the cycle that runs
      it.  A frame request runs the callback that made it, so the cycles
      of one chain share their props ([runChain]); a change of a prop makes
      React run the cleanup of the hook's effect and the effect again
      ([rerunEffect]), with a [startListening] that holds the
      [hasPermission] of its render.  When React renders is not modelled.
    - The sample rate of an [AudioContext] is positive and the analyser
      fills arrays of [frequencyBinCount] bytes.  Outside that domain
      JavaScript would produce [Infinity], [NaN] or [undefined], which the
      rationals do not have. *)

From Stdlib Require Import ZArith QArith Qround Qminmax Qabs List Lia Lqa Bool String.
From Stdlib Require Import Strings.Byte DecimalString DecimalPos DecimalZ.
From Stdlib Require Import Floats.
From stdpp Require Import gmap strings.
Import ListNotations.

Local Open Scope Z_scope.
Local Open Scope Q_scope.

(** ** Numbers *)

(** [Math.round]: the nearest integer, a half rounding up. *)
Definition Math_round (x : Q) : Z := Qfloor (x + (1 # 2)).
Definition Math_floor (x : Q) : Z := Qfloor x.
Definition Math_ceil (x : Q) : Z := Qceiling x.

(** [x > y] on numbers, as a test. *)
Definition Qgtb (x y : Q) : bool := negb (Qle_bool x y).

(** ** Byte arrays *)

Definition Uint8Array := list byte.

Definition byte_value (b : byte) : Z := Z.of_N (Byte.to_N b).

(** [a.length] *)
Definition len (a : Uint8Array) : Z := Z.of_nat (length a).

(** [a[i]].  Every read of the engine is inside the array when the sample
    rate is positive (see [reads_in_bounds]); elsewhere JavaScript
    answers [undefined], which is not modelled: the read gives 0. *)
Definition get (a : Uint8Array) (i : Z) : Z :=
  if (i <? 0)%Z then 0%Z
  else match nth_error a (Z.to_nat i) with
       | Some b => byte_value b
       | None => 0%Z
       end.

(** The [n] indices [lo, lo+1, ...]. *)
Fixpoint indicesFrom (lo : Z) (n : nat) : list Z :=
  match n with
  | O => []
  | S n' => lo :: indicesFrom (lo + 1) n'
  end.

(** The indices [lo, lo+1, ..., hi] of [for (i = lo; i <= hi; i++)]. *)
Definition indices (lo hi : Z) : list Z := indicesFrom lo (Z.to_nat (hi + 1 - lo)).

(** ** Data *)

Inductive SoundType := fire | doorbell | baby.

(** The property name of a type in [lastDetectionRef.current]. *)
Definition type_key (t : SoundType) : string :=
  match t with
  | fire => "fire"
  | doorbell => "doorbell"
  | baby => "baby"
  end.

Definition SoundType_eqb (a b : SoundType) : bool :=
  match a, b with
  | fire, fire | doorbell, doorbell | baby, baby => true
  | _, _ => false
  end.

(** [enabledSounds] *)
Record EnabledSounds := {
  es_fire : bool;
  es_doorbell : bool;
  es_baby : bool
}.

(** What a classifier returns when it fires: the object literal
    [{ type, confidence, frequency, amplitude }]. *)
Record Candidate := {
  c_type : SoundType;
  c_confidence : Q;
  c_frequency : Q;
  c_amplitude : Z
}.

(** [SoundDetection], the event handed to [onSoundDetected]. *)
Record SoundDetection := {
  type : SoundType;
  confidence : Q;
  timestamp : Z;
  frequency : Q;
  amplitude : Z
}.

(** ** detectFireAlarm *)

(** The running values of one of the two loops of [detectFireAlarm]. *)
Record Window := {
  wPeak : Z;
  wSum : Z;
  wCount : Z
}.

Definition window_step (frequencyData : Uint8Array) (w : Window) (i : Z) : Window :=
  {| wPeak := Z.max (wPeak w) (get frequencyData i);
     wSum := (wSum w + get frequencyData i)%Z;
     wCount := (wCount w + 1)%Z |}.

(** [for (i = Math.max(0, bin - half); i <= Math.min(bufferLength - 1, bin + half); i++)] *)
Definition scanWindow (frequencyData : Uint8Array) (bin half : Z) : Window :=
  fold_left (window_step frequencyData)
    (indices (Z.max 0 (bin - half)) (Z.min (len frequencyData - 1) (bin + half)))
    {| wPeak := 0; wSum := 0; wCount := 0 |}.

(** [count > 0 ? avg / count : 0] *)
Definition windowAvg (w : Window) : Q :=
  if (0 <? wCount w)%Z then inject_Z (wSum w) / inject_Z (wCount w) else 0.

Definition getFrequencyBin (bufferLength : Z) (nyquist freq : Q) : Z :=
  Math_round (freq * inject_Z bufferLength / nyquist).

Definition targetFreq : Q := 3100.
Definition harmonicFreq : Q := 6200.

Definition fireFundamental (frequencyData : Uint8Array) (sampleRate : Q) : Window :=
  scanWindow frequencyData
    (getFrequencyBin (len frequencyData) (sampleRate / 2) targetFreq) 8.

Definition fireHarmonic (frequencyData : Uint8Array) (sampleRate : Q) : Window :=
  scanWindow frequencyData
    (getFrequencyBin (len frequencyData) (sampleRate / 2) harmonicFreq) 6.

Definition fireConfidence (fundamentalPeak : Z) (fundamentalAvg : Q) (harmonicPeak : Z) : Q :=
  let fundamentalScore := Qmin (inject_Z fundamentalPeak / 200) 1 in
  let harmonicScore := Qmin (inject_Z harmonicPeak / 120) 1 in
  let avgScore := Qmin (fundamentalAvg / 80) 1 in
  fundamentalScore * 0.5 + harmonicScore * 0.3 + avgScore * 0.2.

Definition detectFireAlarm (enabledSounds : EnabledSounds)
    (frequencyData : Uint8Array) (sampleRate : Q) : option Candidate :=
  if negb (es_fire enabledSounds) then None
  else
    let fundamental := fireFundamental frequencyData sampleRate in
    let fundamentalPeak := wPeak fundamental in
    let fundamentalAvg := windowAvg fundamental in
    let harmonicPeak := wPeak (fireHarmonic frequencyData sampleRate) in
    if (120 <? fundamentalPeak)%Z && Qgtb fundamentalAvg 40 && (60 <? harmonicPeak)%Z
    then Some {| c_type := fire;
                 c_confidence :=
                   Qmin (fireConfidence fundamentalPeak fundamentalAvg harmonicPeak) 0.98;
                 c_frequency := targetFreq;
                 c_amplitude := fundamentalPeak |}
    else None.

(** ** The range loop shared by detectDoorbell and detectBabyCrying *)

(** The running values of
    [for (i = minBin; i <= maxBin && i < bufferLength; i++)]. *)
Record RangeScan := {
  rPeak : Z;
  rSum : Z;
  rCount : Z;
  rPeakFreq : Q
}.

Definition range_step (frequencyData : Uint8Array) (nyquist : Q) (bufferLength : Z)
    (s : RangeScan) (i : Z) : RangeScan :=
  let amplitude := get frequencyData i in
  {| rPeak := if (rPeak s <? amplitude)%Z then amplitude else rPeak s;
     rSum := (rSum s + amplitude)%Z;
     rCount := (rCount s + 1)%Z;
     rPeakFreq := if (rPeak s <? amplitude)%Z
                  then inject_Z i * nyquist / inject_Z bufferLength
                  else rPeakFreq s |}.

Definition minBin (bufferLength : Z) (nyquist lo : Q) : Z :=
  Math_floor (lo * inject_Z bufferLength / nyquist).

Definition maxBin (bufferLength : Z) (nyquist hi : Q) : Z :=
  Math_ceil (hi * inject_Z bufferLength / nyquist).

Definition scanRange (frequencyData : Uint8Array) (sampleRate : Q) (lo hi : Q) : RangeScan :=
  let bufferLength := len frequencyData in
  let nyquist := sampleRate / 2 in
  fold_left (range_step frequencyData nyquist bufferLength)
    (indices (minBin bufferLength nyquist lo)
             (Z.min (maxBin bufferLength nyquist hi) (bufferLength - 1)))
    {| rPeak := 0; rSum := 0; rCount := 0; rPeakFreq := 0 |}.

(** [count > 0 ? avg / count : 0] *)
Definition rangeAvg (s : RangeScan) : Q :=
  if (0 <? rCount s)%Z then inject_Z (rSum s) / inject_Z (rCount s) else 0.

(** ** detectDoorbell *)

Record Range := {
  min : Q;
  max : Q;
  weight : Q
}.

Definition ranges : list Range :=
  [ {| min := 350; max := 550; weight := 0.3 |};
    {| min := 700; max := 1000; weight := 0.4 |};
    {| min := 1200; max := 1600; weight := 0.3 |} ].

(** The variables the [ranges.forEach] of [detectDoorbell] updates. *)
Record DoorbellAcc := {
  totalScore : Q;
  weightedScore : Q;
  activeRanges : Z;
  dominantFreq : Q;
  maxAmplitude : Z
}.

Definition doorbell_range (frequencyData : Uint8Array) (sampleRate : Q)
    (acc : DoorbellAcc) (range : Range) : DoorbellAcc :=
  let s := scanRange frequencyData sampleRate (min range) (max range) in
  let rangePeak := rPeak s in
  if (0 <? rCount s)%Z then
    let rangeAvg := inject_Z (rSum s) / inject_Z (rCount s) in
    if (65 <? rangePeak)%Z && Qgtb rangeAvg 25 then
      {| totalScore := totalScore acc + (inject_Z rangePeak + rangeAvg);
         weightedScore := weightedScore acc + (inject_Z rangePeak + rangeAvg) * weight range;
         activeRanges := (activeRanges acc + 1)%Z;
         dominantFreq := if (maxAmplitude acc <? rangePeak)%Z
                         then rPeakFreq s else dominantFreq acc;
         maxAmplitude := if (maxAmplitude acc <? rangePeak)%Z
                         then rangePeak else maxAmplitude acc |}
    else acc
  else acc.

Definition doorbellScan (frequencyData : Uint8Array) (sampleRate : Q) : DoorbellAcc :=
  fold_left (doorbell_range frequencyData sampleRate) ranges
    {| totalScore := 0; weightedScore := 0; activeRanges := 0;
       dominantFreq := 0; maxAmplitude := 0 |}.

Definition detectDoorbell (enabledSounds : EnabledSounds)
    (frequencyData : Uint8Array) (sampleRate : Q) : option Candidate :=
  if negb (es_doorbell enabledSounds) then None
  else
    let acc := doorbellScan frequencyData sampleRate in
    if (2 <=? activeRanges acc)%Z && Qgtb (weightedScore acc) 180
    then Some {| c_type := doorbell;
                 c_confidence := Qmin (weightedScore acc / 350) 0.95;
                 c_frequency := dominantFreq acc;
                 c_amplitude := maxAmplitude acc |}
    else None.

(** ** detectBabyCrying *)

(** The result [{ peak, avg, frequency }] of [analyzeRange]. *)
Record RangeResult := {
  peak : Z;
  avg : Q;
  rfrequency : Q
}.

Definition analyzeRange (frequencyData : Uint8Array) (sampleRate : Q) (lo hi : Q) : RangeResult :=
  let s := scanRange frequencyData sampleRate lo hi in
  {| peak := rPeak s; avg := rangeAvg s; rfrequency := rPeakFreq s |}.

Definition babyConfidence (fundamental harmonic1 harmonic2 harmonic3 : RangeResult) : Q :=
  let fundamentalScore := Qmin (inject_Z (peak fundamental) / 150) 1 in
  let harmonicScore :=
    Qmin (inject_Z (peak harmonic1 + peak harmonic2 + peak harmonic3) / 200) 1 in
  let avgScore := Qmin (avg fundamental / 70) 1 in
  fundamentalScore * 0.4 + harmonicScore * 0.4 + avgScore * 0.2.

Definition detectBabyCrying (enabledSounds : EnabledSounds)
    (frequencyData : Uint8Array) (sampleRate : Q) : option Candidate :=
  if negb (es_baby enabledSounds) then None
  else
    let fundamental := analyzeRange frequencyData sampleRate 250 600 in
    let harmonic1 := analyzeRange frequencyData sampleRate 800 1400 in
    let harmonic2 := analyzeRange frequencyData sampleRate 1600 2800 in
    let harmonic3 := analyzeRange frequencyData sampleRate 3000 4500 in
    let fundamentalThreshold := 80%Z in
    let harmonicThreshold := 45%Z in
    let avgThreshold := 35 in
    if (fundamentalThreshold <? peak fundamental)%Z
       && Qgtb (avg fundamental) avgThreshold
       && ((harmonicThreshold <? peak harmonic1)%Z
           || (harmonicThreshold <? peak harmonic2)%Z
           || Qgtb (inject_Z (peak harmonic3)) (inject_Z harmonicThreshold * 0.8))
    then Some {| c_type := baby;
                 c_confidence :=
                   Qmin (babyConfidence fundamental harmonic1 harmonic2 harmonic3) 0.92;
                 c_frequency := rfrequency fundamental;
                 c_amplitude := peak fundamental |}
    else None.

(** ** The hook: refs and state *)

Inductive AudioContextState := suspended | running | closed.

Record AudioContext := {
  sampleRate : Q;
  state : AudioContextState
}.

Record AnalyserNode := {
  fftSize : Z
}.

Definition frequencyBinCount (a : AnalyserNode) : Z := (fftSize a / 2)%Z.

(** The texts [setError] is called with, one constructor per message. *)
Inductive ErrorMessage :=
| OnlyOnWeb
| AccessDenied
| NoMicrophone
| BrowserUnsupported
| AccessFailed
| InitFailed.

Record Hook := {
  (* useState *)
  hasPermission : bool;
  error : option ErrorMessage;
  audioLevel : Q;
  isInitializing : bool;
  (* useRef *)
  audioContextRef : option AudioContext;
  analyserRef : option AnalyserNode;
  mediaStreamRef : bool;          (* a stream is held *)
  animationFrameRef : bool;       (* a frame request is pending *)
  lastDetectionRef : gmap string Z;
  smoothedLevelRef : Q;
  frequencyHistoryRef : list (list Z)
}.

(** The hook as [useState] / [useRef] initialise it. *)
Definition initialHook : Hook :=
  {| hasPermission := false; error := None; audioLevel := 0; isInitializing := false;
     audioContextRef := None; analyserRef := None; mediaStreamRef := false;
     animationFrameRef := false; lastDetectionRef := ∅; smoothedLevelRef := 0;
     frequencyHistoryRef := [] |}.

(** What the analyser writes into the two arrays of a cycle. *)
Record Frame := {
  frequencyData : Uint8Array;
  timeData : Uint8Array
}.

(** ** The gate of analyzeAudio *)

Definition cooldownPeriod (t : SoundType) : Z :=
  match t with fire => 3000 | _ => 8000 end.

Definition confidenceThreshold (t : SoundType) : Q :=
  match t with fire => 0.75 | _ => 0.7 end.

(** [lastDetectionRef.current[type] || 0] *)
Definition lastDetectionOf (lastDetection : gmap string Z) (t : SoundType) : Z :=
  default 0%Z (lastDetection !! type_key t).

(** The condition of the [if] in the [forEach]. *)
Definition gateOpen (lastDetection : gmap string Z) (now : Z) (detection : Candidate) : bool :=
  (cooldownPeriod (c_type detection) <? now - lastDetectionOf lastDetection (c_type detection))%Z
  && Qgtb (c_confidence detection) (confidenceThreshold (c_type detection)).

(** The event built for [onSoundDetected]; [new Date()] is read as [now]. *)
Definition eventOf (now : Z) (detection : Candidate) : SoundDetection :=
  {| type := c_type detection;
     confidence := c_confidence detection;
     timestamp := now;
     frequency := c_frequency detection;
     amplitude := c_amplitude detection |}.

(** The body of [detections.forEach]: the gate state and the events sent so far. *)
Definition processDetection (now : Z)
    (acc : gmap string Z * list SoundDetection) (detection : Candidate)
    : gmap string Z * list SoundDetection :=
  if gateOpen (fst acc) now detection
  then (<[type_key (c_type detection) := now]> (fst acc),
        snd acc ++ [eventOf now detection])
  else acc.

(** The array of the three classifiers' results after [.filter(Boolean)]. *)
Definition detections (enabledSounds : EnabledSounds)
    (frequencyData : Uint8Array) (sampleRate : Q) : list Candidate :=
  omap id [ detectFireAlarm enabledSounds frequencyData sampleRate;
            detectDoorbell enabledSounds frequencyData sampleRate;
            detectBabyCrying enabledSounds frequencyData sampleRate ].

Definition processDetections (now : Z) (lastDetection : gmap string Z)
    (ds : list Candidate) : gmap string Z * list SoundDetection :=
  fold_left (processDetection now) ds (lastDetection, []).

(** ** The level of analyzeAudio *)

Definition sample (t : Z) : Q := (inject_Z t - 128) / 128.

(** [sum] after the loop over [timeData]. *)
Definition sumSquares (timeData : Uint8Array) : Q :=
  fold_left (fun sum b => sum + sample (byte_value b) * sample (byte_value b)) timeData 0.

(** [level += (targetLevel - level) * 0.25] *)
Definition smooth (targetLevel level : Q) : Q :=
  level + (targetLevel - level) * 0.25.


(** [frequencyHistoryRef.current.push(...)], then [shift()] beyond ten entries. *)
Definition pushHistory (history : list (list Z)) (frequencyData : Uint8Array) : list (list Z) :=
  let pushed := history ++ [map byte_value frequencyData] in
  if (10 <? Z.of_nat (length pushed))%Z then tl pushed else pushed.

Section Engine.

(** [Math.sqrt] *)
Variable Math_sqrt : Q -> Q.

Definition rms (timeData : Uint8Array) : Q :=
  Math_sqrt (sumSquares timeData / inject_Z (len timeData)).

Definition targetLevel (timeData : Uint8Array) : Q :=
  Qmin (rms timeData * 5) 1.

(** One cycle.  [isListening] and [enabledSounds] are the props the
    callback closes over; the events are the calls of [onSoundDetected]. *)
Definition analyzeAudio (isListening : bool) (enabledSounds : EnabledSounds)
    (frame : Frame) (now : Z) (h : Hook) : Hook * list SoundDetection :=
  match analyserRef h, audioContextRef h with
  | Some _, Some audioContext =>
      let smoothed := smooth (targetLevel (timeData frame)) (smoothedLevelRef h) in
      let gated :=
        processDetections now (lastDetectionRef h)
          (detections enabledSounds (frequencyData frame) (sampleRate audioContext)) in
      ({| hasPermission := hasPermission h;
          error := error h;
          audioLevel := smoothed;
          isInitializing := isInitializing h;
          audioContextRef := audioContextRef h;
          analyserRef := analyserRef h;
          mediaStreamRef := mediaStreamRef h;
          animationFrameRef := if isListening then true else animationFrameRef h;
          lastDetectionRef := fst gated;
          smoothedLevelRef := smoothed;
          frequencyHistoryRef := pushHistory (frequencyHistoryRef h) (frequencyData frame) |},
       snd gated)
  | _, _ => (h, [])
  end.

(** The cycles of a session, one per frame the browser delivers, each
    with the props and the clock of its tick. *)
Fixpoint runCycles (ticks : list (bool * EnabledSounds * Frame * Z)) (h : Hook)
    : Hook * list SoundDetection :=
  match ticks with
  | [] => (h, [])
  | (isListening, enabledSounds, frame, now) :: rest =>
      let r := analyzeAudio isListening enabledSounds frame now h in
      let r' := runCycles rest (fst r) in
      (fst r', snd r ++ snd r')
  end.

End Engine.


(** ** Starting and stopping *)

(** How [getUserMedia] ends: with a stream, or with an error whose message
    the [catch] sorts into one of four texts. *)
Inductive MediaResult :=
| StreamGranted
| PermissionDenied
| DeviceNotFound
| NotSupported
| OtherFailure.

(** What the browser answers during [startListening]. *)
Record Browser := {
  platformIsWeb : bool;
  getUserMedia : MediaResult;
  newAudioContext : option AudioContext   (* [None]: the constructor throws *)
}.

Definition requestPermission (b : Browser) (h : Hook) : Hook * bool :=
  let withState (perm : bool) (err : option ErrorMessage) (stream : bool) :=
    {| hasPermission := perm; error := err; audioLevel := audioLevel h;
       isInitializing := false;
       audioContextRef := audioContextRef h; analyserRef := analyserRef h;
       mediaStreamRef := stream; animationFrameRef := animationFrameRef h;
       lastDetectionRef := lastDetectionRef h; smoothedLevelRef := smoothedLevelRef h;
       frequencyHistoryRef := frequencyHistoryRef h |} in
  if negb (platformIsWeb b)
  then ({| hasPermission := hasPermission h; error := Some OnlyOnWeb;
           audioLevel := audioLevel h; isInitializing := isInitializing h;
           audioContextRef := audioContextRef h; analyserRef := analyserRef h;
           mediaStreamRef := mediaStreamRef h; animationFrameRef := animationFrameRef h;
           lastDetectionRef := lastDetectionRef h; smoothedLevelRef := smoothedLevelRef h;
           frequencyHistoryRef := frequencyHistoryRef h |}, false)
  else match getUserMedia b with
       | StreamGranted => (withState true None true, true)
       | PermissionDenied => (withState false (Some AccessDenied) (mediaStreamRef h), false)
       | DeviceNotFound => (withState false (Some NoMicrophone) (mediaStreamRef h), false)
       | NotSupported => (withState false (Some BrowserUnsupported) (mediaStreamRef h), false)
       | OtherFailure => (withState false (Some AccessFailed) (mediaStreamRef h), false)
       end.

Definition initializeAudioContext (b : Browser) (h : Hook) : Hook * bool :=
  if negb (mediaStreamRef h) then (h, false)
  else match newAudioContext b with
       | Some audioContext =>
           ({| hasPermission := hasPermission h; error := error h;
               audioLevel := audioLevel h; isInitializing := isInitializing h;
               audioContextRef := Some audioContext;
               analyserRef := Some {| fftSize := 16384 |};
               mediaStreamRef := mediaStreamRef h; animationFrameRef := animationFrameRef h;
               lastDetectionRef := lastDetectionRef h; smoothedLevelRef := smoothedLevelRef h;
               frequencyHistoryRef := frequencyHistoryRef h |}, true)
       | None =>
           ({| hasPermission := hasPermission h; error := Some InitFailed;
               audioLevel := audioLevel h; isInitializing := isInitializing h;
               audioContextRef := audioContextRef h; analyserRef := analyserRef h;
               mediaStreamRef := mediaStreamRef h; animationFrameRef := animationFrameRef h;
               lastDetectionRef := lastDetectionRef h; smoothedLevelRef := smoothedLevelRef h;
               frequencyHistoryRef := frequencyHistoryRef h |}, false)
       end.

(** [audioContext.resume()] when the context is suspended. *)
Definition resume (c : AudioContext) : AudioContext :=
  match state c with
  | suspended => {| sampleRate := sampleRate c; state := running |}
  | _ => c
  end.

(** [startListening] up to, and without, its call of [analyzeAudio]: the
    hook in which the first cycle of the session runs, and whether the
    start went through. *)
Definition prepareListening (b : Browser) (h : Hook) : Hook * bool :=
  let r1 := if hasPermission h then (h, true) else requestPermission b h in
  if negb (snd r1) then (fst r1, false)
  else
    let r2 := initializeAudioContext b (fst r1) in
    if negb (snd r2) then (fst r2, false)
    else
      let h2 := fst r2 in
      ({| hasPermission := hasPermission h2; error := error h2;
          audioLevel := audioLevel h2; isInitializing := isInitializing h2;
          audioContextRef := option_map resume (audioContextRef h2);
          analyserRef := analyserRef h2;
          mediaStreamRef := mediaStreamRef h2; animationFrameRef := animationFrameRef h2;
          lastDetectionRef := ∅;
          smoothedLevelRef := smoothedLevelRef h2;
          frequencyHistoryRef := [] |}, true).

Definition startListening (Math_sqrt : Q -> Q) (b : Browser)
    (isListening : bool) (enabledSounds : EnabledSounds) (frame : Frame) (now : Z)
    (h : Hook) : Hook * list SoundDetection * bool :=
  let r := prepareListening b h in
  if snd r
  then (analyzeAudio Math_sqrt isListening enabledSounds frame now (fst r), true)
  else (fst r, [], false).

Definition stopListening (h : Hook) : Hook :=
  {| hasPermission := false;
     error := error h;
     audioLevel := 0;
     isInitializing := isInitializing h;
     audioContextRef :=
       match audioContextRef h with
       | Some c => match state c with closed => Some c | _ => None end
       | None => None
       end;
     analyserRef := None;
     mediaStreamRef := false;
     animationFrameRef := false;
     lastDetectionRef := lastDetectionRef h;
     smoothedLevelRef := 0;
     frequencyHistoryRef := frequencyHistoryRef h |}.

(** ** The specification's reading of the classifiers

    The definitions of this module follow the words of the specification
    (peak and average of a band, weighted sum over the active ranges); the
    theorems below compare them with the loops of the source. *)

Module Spec.

(** The largest magnitude over some bins, 0 over none. *)
Definition peakOver (spectrum : Uint8Array) (bins : list Z) : Z :=
  fold_right Z.max 0%Z (map (get spectrum) bins).

Definition sumOver (spectrum : Uint8Array) (bins : list Z) : Z :=
  fold_right Z.add 0%Z (map (get spectrum) bins).

(** The mean magnitude over some bins, 0 over none. *)
Definition avgOver (spectrum : Uint8Array) (bins : list Z) : Q :=
  match bins with
  | [] => 0
  | _ => inject_Z (sumOver spectrum bins) / inject_Z (Z.of_nat (length bins))
  end.

(** [freq = bin * sampleRate / (2 * bins)] *)
Definition binFrequency (bins : Z) (sampleRate : Q) (bin : Z) : Q :=
  inject_Z bin * sampleRate / (2 * inject_Z bins).

(** [bin = round(freq * bins * 2 / sampleRate)] *)
Definition binOf (spectrum : Uint8Array) (sampleRate freq : Q) : Z :=
  Math_round (freq * inject_Z (len spectrum) * 2 / sampleRate).

(** The band [centre ± tolerance] in Hz: the bins whose frequency lies in it. *)
Definition hzBand (spectrum : Uint8Array) (sampleRate centre tolerance : Q) : list Z :=
  let bins := len spectrum in
  List.filter (fun bin =>
            Qle_bool (centre - tolerance) (binFrequency bins sampleRate bin)
            && Qle_bool (binFrequency bins sampleRate bin) (centre + tolerance))
         (indices 0 (bins - 1)).

(** The band of [half] bins on each side of the bin of [freq], cut to the spectrum. *)
Definition binWindow (spectrum : Uint8Array) (sampleRate freq : Q) (half : Z) : list Z :=
  indices (Z.max 0 (binOf spectrum sampleRate freq - half))
          (Z.min (len spectrum - 1) (binOf spectrum sampleRate freq + half)).

(** The activation rule of the Fire row over two given bands. *)
Definition fireRule (spectrum : Uint8Array) (fundamental harmonic : list Z) : Prop :=
  (120 < peakOver spectrum fundamental)%Z
  /\ 40 < avgOver spectrum fundamental
  /\ (60 < peakOver spectrum harmonic)%Z.

(** The confidence of the Fire row. *)
Definition fireConfidence (spectrum : Uint8Array) (fundamental harmonic : list Z) : Q :=
  Qmin (0.5 * Qmin (inject_Z (peakOver spectrum fundamental) / 200) 1
        + 0.3 * Qmin (inject_Z (peakOver spectrum harmonic) / 120) 1
        + 0.2 * Qmin (avgOver spectrum fundamental / 80) 1)
       0.98.

(** The bins of the range from [lo] to [hi] Hz. *)
Definition binsBetween (spectrum : Uint8Array) (sampleRate lo hi : Q) : list Z :=
  indices (Math_floor (lo * inject_Z (len spectrum) / (sampleRate / 2)))
          (Z.min (Math_ceil (hi * inject_Z (len spectrum) / (sampleRate / 2)))
                 (len spectrum - 1)).

Definition rangeBins (spectrum : Uint8Array) (sampleRate : Q) (r : Range) : list Z :=
  binsBetween spectrum sampleRate (min r) (max r).

(** The first of some bins whose magnitude is [v]. *)
Definition firstAt (spectrum : Uint8Array) (v : Z) (bins : list Z) : option Z :=
  find (fun bin => (get spectrum bin =? v)%Z) bins.

(** The frequency of the first bin that reaches the peak of some bins,
    0 when the peak is 0. *)
Definition peakFrequency (spectrum : Uint8Array) (sampleRate : Q) (bins : list Z) : Q :=
  if (0 <? peakOver spectrum bins)%Z
  then match firstAt spectrum (peakOver spectrum bins) bins with
       | Some bin => binFrequency (len spectrum) sampleRate bin
       | None => 0
       end
  else 0.

(** The peak of a range. *)
Definition rangePeak (spectrum : Uint8Array) (sampleRate : Q) (r : Range) : Z :=
  peakOver spectrum (rangeBins spectrum sampleRate r).

(** A range is active when its peak exceeds 65 and its average 25. *)
Definition active (spectrum : Uint8Array) (sampleRate : Q) (r : Range) : bool :=
  (65 <? peakOver spectrum (rangeBins spectrum sampleRate r))%Z
  && Qgtb (avgOver spectrum (rangeBins spectrum sampleRate r)) 25.

(** [(peak + avg) * weight] of a range. *)
Definition rangeScore (spectrum : Uint8Array) (sampleRate : Q) (r : Range) : Q :=
  (inject_Z (peakOver spectrum (rangeBins spectrum sampleRate r))
   + avgOver spectrum (rangeBins spectrum sampleRate r)) * weight r.

Definition activeRanges (spectrum : Uint8Array) (sampleRate : Q) : list Range :=
  List.filter (active spectrum sampleRate) ranges.

(** The sum of the scores of the active ranges. *)
Definition weightedScore (spectrum : Uint8Array) (sampleRate : Q) : Q :=
  fold_right Qplus 0 (map (rangeScore spectrum sampleRate) (activeRanges spectrum sampleRate)).

(** The ceiling of each kind's confidence. *)
Definition maxConfidence (t : SoundType) : Q :=
  match t with
  | fire => 0.98
  | doorbell => 0.95
  | baby => 0.92
  end.

End Spec.

(** ** Keeping the first largest

    The loops of the source that remember where a maximum was reached all
    have the shape [if (value > best) { best = value; where = ... }]. *)

Section FirstMax.

Context {A B : Type} (value : A -> Z) (payload : A -> B).

Definition bestOf (l : list A) : Z := fold_right Z.max 0%Z (map value l).

Definition keep (acc : Z * B) (a : A) : Z * B :=
  if (fst acc <? value a)%Z then (value a, payload a) else acc.

End FirstMax.

(** ** Inputs the statements are run on *)

Definition byte_of_Z (z : Z) : byte :=
  match Byte.of_N (Z.to_N (z mod 256)) with
  | Some b => b
  | None => x00
  end.

(** The array of [n] bytes whose entry [i] is [f i]. *)
Definition spectrumOf (f : Z -> Z) (n : nat) : Uint8Array :=
  map (fun i => byte_of_Z (f i)) (indicesFrom 0 n).

Definition between (lo hi i : Z) : bool := (lo <=? i)%Z && (i <=? hi)%Z.

Definition allEnabled : EnabledSounds :=
  {| es_fire := true; es_doorbell := true; es_baby := true |}.

(** 8192 bins at 48 kHz: one bin is 2.93 Hz wide; 3100 Hz is bin 1058 and
    6200 Hz is bin 2116. *)
Definition bins8192 : nat := Z.to_nat 8192.

(** Every bin at full scale. *)
Definition saturated : Uint8Array := spectrumOf (fun _ => 255%Z) bins8192.

(** Every bin silent. *)
Definition silence : Uint8Array := spectrumOf (fun _ => 0%Z) bins8192.

(** A tone at 3100 Hz with its harmonic at 6200 Hz: magnitude 200 over the
    bins 1050..1066 and 120 over the bins 2110..2122, silence elsewhere. *)
Definition fireTone : Uint8Array :=
  spectrumOf (fun i => if between 1050 1066 i then 200%Z
                       else if between 2110 2122 i then 120%Z else 0%Z) bins8192.

Definition fireToneCandidate : Candidate :=
  {| c_type := fire; c_confidence := 0.98; c_frequency := 3100; c_amplitude := 200 |}.

(** Full scale over 3100 ± 150 Hz (bins 1007..1109) except within 8 bins
    of bin 1058, and over the bins 2110..2122 around 6200 Hz. *)
Definition bandTone : Uint8Array :=
  spectrumOf (fun i => if between 1007 1049 i || between 1067 1109 i
                          || between 2110 2122 i
                       then 255%Z else 0%Z) bins8192.

(** A weak tone at 3100 Hz under a full-scale harmonic at 6200 Hz:
    magnitude 130 over the bins 1050..1066 and 255 over 2110..2122. *)
Definition strongHarmonic : Uint8Array :=
  spectrumOf (fun i => if between 1050 1066 i then 130%Z
                       else if between 2110 2122 i then 255%Z else 0%Z) bins8192.

(** A cry: magnitude 120 over 250-600 Hz (bins 85..205) and 60 over
    800-1400 Hz (bins 273..478), silence elsewhere. *)
Definition babyCry : Uint8Array :=
  spectrumOf (fun i => if between 85 205 i then 120%Z
                       else if between 273 478 i then 60%Z else 0%Z) bins8192.

(** A chime: magnitude [v] over 350-550 Hz (bins 119..188) and over
    700-1000 Hz (bins 238..342), silence elsewhere. *)
Definition chime (v : Z) : Uint8Array :=
  spectrumOf (fun i => if between 119 188 i || between 238 342 i then v else 0%Z) bins8192.


(** Mid-scale time-domain samples: a silent microphone. *)
Definition quietTime : Uint8Array := spectrumOf (fun _ => 128%Z) bins8192.

Definition fireFrame : Frame := {| frequencyData := fireTone; timeData := quietTime |}.

Definition chimeFrame (v : Z) : Frame := {| frequencyData := chime v; timeData := quietTime |}.

(** A session that listens: microphone granted, context running at 48 kHz. *)
Definition liveHook : Hook :=
  {| hasPermission := true; error := None; audioLevel := 0; isInitializing := false;
     audioContextRef := Some {| sampleRate := 48000; state := running |};
     analyserRef := Some {| fftSize := 16384 |};
     mediaStreamRef := true; animationFrameRef := true;
     lastDetectionRef := ∅; smoothedLevelRef := 0; frequencyHistoryRef := [] |}.

(** A frame whose time-domain array holds one sample instead of 8192. *)
Definition shortFrame : Frame := {| frequencyData := fireTone; timeData := [xff] |}.

(** A browser that grants the microphone and opens a context at 48 kHz. *)
Definition grantingBrowser : Browser :=
  {| platformIsWeb := true; getUserMedia := StreamGranted;
     newAudioContext := Some {| sampleRate := 48000; state := suspended |} |}.

(** A clock reading, in milliseconds since the epoch. *)
Definition someNow : Z := 1700000000000.

(** A square root to run the engine with: the integer square root of the
    argument scaled by [2^106], over [2^53]. *)
Definition sqrt53 (x : Q) : Q :=
  inject_Z (Z.sqrt (Qfloor (x * inject_Z (2 ^ 106)))) / inject_Z (2 ^ 53).

(** ** Reading the outcome of a cycle *)

(** The events of one type among those a cycle sent. *)
Definition eventsOfType (k : SoundType) (events : list SoundDetection) : list SoundDetection :=
  List.filter (fun e => SoundType_eqb (type e) k) events.

(** The candidate of type [k] among those of a cycle. *)
Definition candidateOf (k : SoundType) (ds : list Candidate) : option Candidate :=
  find (fun d => SoundType_eqb (c_type d) k) ds.

(** What the gate lets through for a candidate, as a list of events. *)
Definition gated (m : gmap string Z) (now : Z) (d : option Candidate) : list SoundDetection :=
  match d with
  | Some d => if gateOpen m now d then [eventOf now d] else []
  | None => []
  end.

(** The classifier of a type. *)
Definition classify (k : SoundType) (enabledSounds : EnabledSounds)
    (frequencyData : Uint8Array) (sampleRate : Q) : option Candidate :=
  match k with
  | fire => detectFireAlarm enabledSounds frequencyData sampleRate
  | doorbell => detectDoorbell enabledSounds frequencyData sampleRate
  | baby => detectBabyCrying enabledSounds frequencyData sampleRate
  end.

(** The entry of a type in [enabledSounds]. *)
Definition enabled (enabledSounds : EnabledSounds) (k : SoundType) : bool :=
  match k with
  | fire => es_fire enabledSounds
  | doorbell => es_doorbell enabledSounds
  | baby => es_baby enabledSounds
  end.

(** ** More of the specification's reading: the baby-cry rule *)

Module BabySpec.

(** The activation rule of [detectBabyCrying] over the four ranges. *)
Definition rule (spectrum : Uint8Array) (sampleRate : Q) : Prop :=
  (80 < Spec.peakOver spectrum (Spec.binsBetween spectrum sampleRate 250 600))%Z
  /\ 35 < Spec.avgOver spectrum (Spec.binsBetween spectrum sampleRate 250 600)
  /\ ((45 < Spec.peakOver spectrum (Spec.binsBetween spectrum sampleRate 800 1400))%Z
      \/ (45 < Spec.peakOver spectrum (Spec.binsBetween spectrum sampleRate 1600 2800))%Z
      \/ (36 < Spec.peakOver spectrum (Spec.binsBetween spectrum sampleRate 3000 4500))%Z).

(** The confidence of a baby-cry candidate. *)
Definition confidence (spectrum : Uint8Array) (sampleRate : Q) : Q :=
  Qmin (0.4 * Qmin (inject_Z (Spec.peakOver spectrum
                                (Spec.binsBetween spectrum sampleRate 250 600)) / 150) 1
        + 0.4 * Qmin (inject_Z
                        (Spec.peakOver spectrum (Spec.binsBetween spectrum sampleRate 800 1400)
                         + Spec.peakOver spectrum (Spec.binsBetween spectrum sampleRate 1600 2800)
                         + Spec.peakOver spectrum (Spec.binsBetween spectrum sampleRate 3000 4500))
                      / 200) 1
        + 0.2 * Qmin (Spec.avgOver spectrum (Spec.binsBetween spectrum sampleRate 250 600) / 70) 1)
       0.92.

End BabySpec.

(** ** Reading a run of cycles *)

(** Events, oldest first, each more than [gap] after the one before it,
    the first more than [gap] after [last]. *)
Fixpoint spacedFrom (gap last : Z) (events : list SoundDetection) : Prop :=
  match events with
  | [] => True
  | e :: rest => (gap < timestamp e - last)%Z /\ spacedFrom gap (timestamp e) rest
  end.

(** The timestamp of the last of some events, [last] when there is none. *)
Definition lastTimestamp (last : Z) (events : list SoundDetection) : Z :=
  fold_left (fun _ e => timestamp e) events last.

(** The largest magnitude of an array, 0 for the empty one. *)
Definition loudest (a : Uint8Array) : Z :=
  fold_right Z.max 0%Z (map byte_value a).

(** ** The states of the hook

    What the callbacks of the hook can make of its initial state: the
    exported [requestPermission], [startListening] and [stopListening] as
    the effect calls them, and [analyzeAudio] as a frame request calls it. *)

Inductive Reachable (Math_sqrt : Q -> Q) : Hook -> Prop :=
| reach_initial : Reachable Math_sqrt initialHook
| reach_requestPermission b h :
    Reachable Math_sqrt h -> Reachable Math_sqrt (fst (requestPermission b h))
| reach_startListening b isListening enabledSounds frame now h :
    Reachable Math_sqrt h ->
    Reachable Math_sqrt
      (fst (fst (startListening Math_sqrt b isListening enabledSounds frame now h)))
| reach_stopListening h :
    Reachable Math_sqrt h -> Reachable Math_sqrt (stopListening h)
| reach_analyzeAudio isListening enabledSounds frame now h :
    Reachable Math_sqrt h ->
    Reachable Math_sqrt (fst (analyzeAudio Math_sqrt isListening enabledSounds frame now h)).

(** What holds of the hook between two calls of its callbacks: the level
    shown is the smoothed level, a granted permission and an analyser
    come with a stream, an analyser is the 16384-point one and comes with
    its context, a frame handle with an analyser, the history holds at
    most ten spectra and the recorded times are those of the three
    types. *)
Definition consistent (h : Hook) : Prop :=
  audioLevel h = smoothedLevelRef h
  /\ (hasPermission h = true -> mediaStreamRef h = true)
  /\ (forall analyser, analyserRef h = Some analyser ->
        fftSize analyser = 16384%Z
        /\ mediaStreamRef h = true
        /\ audioContextRef h <> None)
  /\ (animationFrameRef h = true -> analyserRef h <> None)
  /\ (length (frequencyHistoryRef h) <= 10)%nat
  /\ (forall s : string, (forall k, s <> type_key k) -> lastDetectionRef h !! s = None).

(** ** contexts/SoundAlertContext.tsx *)

(** [Date.now().toString()] *)
Definition toString (z : Z) : string := NilZero.string_of_int (Z.to_int z).

Record SoundAlert := {
  a_id : string;
  a_type : SoundType;
  a_message : string;
  a_timestamp : Z;
  a_confidence : option Q;
  a_dismissed : option bool
}.

Record AlertSettings := {
  vibration : bool;
  flashScreen : bool;
  soundFeedback : bool;
  darkMode : bool;
  demoMode : bool
}.

(** The state of [SoundAlertProvider]. *)
Record AlertContext := {
  currentAlert : option SoundAlert;
  alertHistory : list SoundAlert;
  ctxIsListening : bool;
  ctxEnabledSounds : EnabledSounds;
  alertSettings : AlertSettings
}.

Definition initialContext : AlertContext :=
  {| currentAlert := None;
     alertHistory := [];
     ctxIsListening := false;
     ctxEnabledSounds := {| es_fire := true; es_doorbell := true; es_baby := true |};
     alertSettings := {| vibration := true; flashScreen := true; soundFeedback := true;
                         darkMode := false; demoMode := false |} |}.

Definition getAlertMessage (t : SoundType) : string :=
  match t with
  | fire => "🚨 Fire Alarm Detected!"
  | doorbell => "🔔 Doorbell Detected!"
  | baby => "👶 Baby Crying Detected!"
  end.

Definition vibrationPattern (t : SoundType) : list Z :=
  match t with
  | fire => [300; 150; 300; 150; 300; 150; 300]
  | doorbell => [200; 100; 200; 100; 200]
  | baby => [400; 200; 400]
  end%Z.

(** The [alert] object of [triggerAlert]; an omitted confidence is 1. *)
Definition newAlert (now : Z) (t : SoundType) (confidence : option Q) : SoundAlert :=
  {| a_id := toString now;
     a_type := t;
     a_message := getAlertMessage t;
     a_timestamp := now;
     a_confidence := Some (default 1 confidence);
     a_dismissed := None |}.

(** [triggerAlert(type, confidence = 1)] at the clock reading [now];
    [canVibrate] is ['vibrate' in navigator], and the second component is
    the pattern handed to [navigator.vibrate], if any. *)
Definition triggerAlert (now : Z) (canVibrate : bool) (t : SoundType)
    (confidence : option Q) (c : AlertContext) : AlertContext * option (list Z) :=
  let alert := newAlert now t confidence in
  ({| currentAlert := Some alert;
      alertHistory := alert :: firstn 99 (alertHistory c);
      ctxIsListening := ctxIsListening c;
      ctxEnabledSounds := ctxEnabledSounds c;
      alertSettings := alertSettings c |},
   if vibration (alertSettings c) && canVibrate then Some (vibrationPattern t) else None).

(** [{ ...alert, dismissed: true }] *)
Definition markDismissed (a : SoundAlert) : SoundAlert :=
  {| a_id := a_id a; a_type := a_type a; a_message := a_message a;
     a_timestamp := a_timestamp a; a_confidence := a_confidence a;
     a_dismissed := Some true |}.

Definition dismissAlert (c : AlertContext) : AlertContext :=
  {| currentAlert := None;
     alertHistory :=
       match currentAlert c with
       | Some current =>
           map (fun alert => if String.eqb (a_id alert) (a_id current)
                             then markDismissed alert else alert)
               (alertHistory c)
       | None => alertHistory c
       end;
     ctxIsListening := ctxIsListening c;
     ctxEnabledSounds := ctxEnabledSounds c;
     alertSettings := alertSettings c |}.

(** [{ ...prev, [type]: !prev[type] }] *)
Definition toggleMask (t : SoundType) (prev : EnabledSounds) : EnabledSounds :=
  match t with
  | fire => {| es_fire := negb (es_fire prev); es_doorbell := es_doorbell prev;
               es_baby := es_baby prev |}
  | doorbell => {| es_fire := es_fire prev; es_doorbell := negb (es_doorbell prev);
                   es_baby := es_baby prev |}
  | baby => {| es_fire := es_fire prev; es_doorbell := es_doorbell prev;
               es_baby := negb (es_baby prev) |}
  end.

Definition toggleSoundEnabled (t : SoundType) (c : AlertContext) : AlertContext :=
  {| currentAlert := currentAlert c;
     alertHistory := alertHistory c;
     ctxIsListening := ctxIsListening c;
     ctxEnabledSounds := toggleMask t (ctxEnabledSounds c);
     alertSettings := alertSettings c |}.

Definition clearHistory (c : AlertContext) : AlertContext :=
  {| currentAlert := currentAlert c;
     alertHistory := [];
     ctxIsListening := ctxIsListening c;
     ctxEnabledSounds := ctxEnabledSounds c;
     alertSettings := alertSettings c |}.

(** ** The listen screen *)

(** [onSoundDetected: (detection) => triggerAlert(detection.type, detection.confidence)];
    [now] is the clock reading of [triggerAlert]. *)
Definition onSoundDetected (canVibrate : bool) (c : AlertContext)
    (call : Z * SoundDetection) : AlertContext :=
  fst (triggerAlert (fst call) canVibrate (type (snd call))
         (Some (confidence (snd call))) c).

(** The calls of [onSoundDetected] for the events of a cycle, in their
    order, each with the clock reading of its [triggerAlert]. *)
Definition deliver (canVibrate : bool) (calls : list (Z * SoundDetection)) (c : AlertContext)
    : AlertContext :=
  fold_left (onSoundDetected canVibrate) calls c.

(** The alert [onSoundDetected] raises for a call. *)
Definition alertOf (call : Z * SoundDetection) : SoundAlert :=
  newAlert (fst call) (type (snd call)) (Some (confidence (snd call))).

(** The confidence [simulateAlert] draws; [random] is [Math.random()]. *)
Definition simulateConfidence (demoMode : bool) (t : SoundType) (random : Q) : Q :=
  if demoMode then random * 0.25 + 0.70
  else match t with
       | fire => 0.85 + random * 0.13
       | doorbell => 0.78 + random * 0.17
       | baby => 0.75 + random * 0.20
       end.

Definition simulateAlert (now : Z) (canVibrate : bool) (random : Q) (t : SoundType)
    (c : AlertContext) : AlertContext * option (list Z) :=
  triggerAlert now canVibrate t
    (Some (simulateConfidence (demoMode (alertSettings c)) t random)) c.

(** [Object.values(enabledSounds).filter(Boolean).length] *)
Definition getEnabledSoundsCount (enabledSounds : EnabledSounds) : Z :=
  Z.of_nat (length (List.filter (fun b : bool => b)
                      [es_fire enabledSounds; es_doorbell enabledSounds;
                       es_baby enabledSounds])).

Definition getProtectionLevel (isListening : bool) (enabledSounds : EnabledSounds) : string :=
  if negb isListening then "Not Active"
  else
    let count := getEnabledSoundsCount enabledSounds in
    if (count =? 3)%Z then "Full Protection"
    else if (count =? 2)%Z then "Good Protection"
    else if (count =? 1)%Z then "Basic Protection"
    else "No Protection".

(** [alert.confidence || 0] *)
Definition confidenceOrZero (a : SoundAlert) : Q := default 0 (a_confidence a).

(** [alertHistory.reduce((acc, alert) => acc + (alert.confidence || 0), 0)] *)
Definition confidenceSum (history : list SoundAlert) : Q :=
  fold_left (fun acc alert => acc + confidenceOrZero alert) history 0.

Definition getAverageConfidence (history : list SoundAlert) : Z :=
  match history with
  | [] => 0%Z
  | _ => Math_round (confidenceSum history / inject_Z (Z.of_nat (length history)) * 100)
  end.

(** [alertHistory.filter(alert => alert.timestamp >= last24Hours).length] *)
Definition getRecentDetections (now : Z) (history : list SoundAlert) : Z :=
  Z.of_nat (length (List.filter (fun alert => (now - 24 * 60 * 60 * 1000 <=? a_timestamp alert)%Z)
                      history)).

(** ** The history screen *)

Record WeekStats := {
  week_fire : Z;
  week_doorbell : Z;
  week_baby : Z;
  week_total : Z
}.

Record Stats := {
  week : WeekStats;
  month_total : Z;
  avgConfidence : Q
}.

Definition countOf {A : Type} (f : A -> bool) (l : list A) : Z :=
  Z.of_nat (length (List.filter f l)).

Definition getStats (now : Z) (history : list SoundAlert) : Stats :=
  let weekAgo := (now - 7 * 24 * 60 * 60 * 1000)%Z in
  let monthAgo := (now - 30 * 24 * 60 * 60 * 1000)%Z in
  let thisWeekAlerts := List.filter (fun alert => (weekAgo <=? a_timestamp alert)%Z) history in
  let thisMonthAlerts := List.filter (fun alert => (monthAgo <=? a_timestamp alert)%Z) history in
  let avgConfidence :=
    match history with
    | [] => 0
    | _ => confidenceSum history / inject_Z (Z.of_nat (length history))
    end in
  {| week :=
       {| week_fire := countOf (fun alert => SoundType_eqb (a_type alert) fire) thisWeekAlerts;
          week_doorbell :=
            countOf (fun alert => SoundType_eqb (a_type alert) doorbell) thisWeekAlerts;
          week_baby := countOf (fun alert => SoundType_eqb (a_type alert) baby) thisWeekAlerts;
          week_total := Z.of_nat (length thisWeekAlerts) |};
     month_total := Z.of_nat (length thisMonthAlerts);
     avgConfidence := avgConfidence * 100 |}.

(** [filterType === 'all' ? alertHistory : alertHistory.filter(...)]; [None] is ['all']. *)
Definition filteredHistory (filterType : option SoundType) (history : list SoundAlert)
    : list SoundAlert :=
  match filterType with
  | None => history
  | Some t => List.filter (fun alert => SoundType_eqb (a_type alert) t) history
  end.

(** The text of [formatTimestamp] for an alert raised at [timestamp], read at [now]. *)
Definition formatTimestamp (now timestamp : Z) : string :=
  let diffInHours := Math_floor (inject_Z (now - timestamp) / (1000 * 60 * 60)) in
  if (diffInHours <? 1)%Z then
    let diffInMinutes := Math_floor (inject_Z (now - timestamp) / (1000 * 60)) in
    if (diffInMinutes <=? 0)%Z then "Just now"
    else (toString diffInMinutes ++ "m ago")%string
  else if (diffInHours <? 24)%Z then (toString diffInHours ++ "h ago")%string
  else
    let diffInDays := Math_floor (inject_Z diffInHours / 24) in
    (toString diffInDays ++ "d ago")%string.

(** ** The level, as the specification words it

    [rms = sqrt(mean(sample_i^2))] over the normalized samples. *)

Module LevelSpec.




End LevelSpec.

(** ** The level of analyzeAudio in binary64

    The numbers of the program are IEEE 754 binary64 values.  The level
    computation of [analyzeAudio] is embedded here over the primitive
    floating-point numbers, which are binary64 with rounding to nearest,
    ties to even. *)

Module Binary64.

(** An integer of the program as a number. *)
Definition number (z : Z) : float := PrimFloat.of_uint63 (Uint63.of_Z z).

(** [(timeData[i] - 128) / 128] *)
Definition sample (b : byte) : float := ((number (byte_value b) - 128) / 128)%float.

(** [sum] after the loop over [timeData]. *)
Definition sumSquares (timeData : Uint8Array) : float :=
  fold_left (fun sum b => (sum + sample b * sample b)%float) timeData 0%float.

(** [Math.sqrt(sum / timeData.length)] *)
Definition rms (timeData : Uint8Array) : float :=
  PrimFloat.sqrt (sumSquares timeData / number (len timeData))%float.

(** [Math.min(x, y)]: [NaN] when one of the two is, [-0] before [+0]. *)
Definition Math_min (x y : float) : float :=
  if PrimFloat.is_nan x then x
  else if PrimFloat.is_nan y then y
  else if (x <? y)%float then x
  else if (y <? x)%float then y
  else if PrimFloat.get_sign x then x else y.

Definition targetLevel (timeData : Uint8Array) : float :=
  Math_min (rms timeData * 5)%float 1%float.

(** [level += (targetLevel - level) * 0.25] *)
Definition smooth (targetLevel level : float) : float :=
  (level + (targetLevel - level) * 0.25)%float.

(** [smoothedLevelRef.current] after a cycle on [timeData]. *)
Definition cycle (timeData : Uint8Array) (level : float) : float :=
  smooth (targetLevel timeData) level.


End Binary64.


(** ** Closures and the effect of the hook

    [startListening] is a [useCallback] over [hasPermission]: the callback
    the effect calls tests the [hasPermission] of the render that made it,
    [captured], whatever [setHasPermission] has been called with since. *)

Definition prepareListeningWith (captured : bool) (b : Browser) (h : Hook) : Hook * bool :=
  let r1 := if captured then (h, true) else requestPermission b h in
  if negb (snd r1) then (fst r1, false)
  else
    let r2 := initializeAudioContext b (fst r1) in
    if negb (snd r2) then (fst r2, false)
    else
      let h2 := fst r2 in
      ({| hasPermission := hasPermission h2; error := error h2;
          audioLevel := audioLevel h2; isInitializing := isInitializing h2;
          audioContextRef := option_map resume (audioContextRef h2);
          analyserRef := analyserRef h2;
          mediaStreamRef := mediaStreamRef h2; animationFrameRef := animationFrameRef h2;
          lastDetectionRef := ∅;
          smoothedLevelRef := smoothedLevelRef h2;
          frequencyHistoryRef := [] |}, true).








(** * Properties *)

(** Closed facts are settled by running the definitions. *)
Ltac by_running := vm_compute; first [reflexivity | discriminate].

(** ** Comparisons and clamps *)

Lemma Qgtb_true (x y : Q) : Qgtb x y = true <-> y < x.
Proof.
  unfold Qgtb. rewrite negb_true_iff, <- not_true_iff_false, Qle_bool_iff.
  split; [apply Qnot_le_lt | apply Qlt_not_le].
Qed.

Lemma Qgtb_false (x y : Q) : Qgtb x y = false <-> x <= y.
Proof.
  unfold Qgtb. rewrite negb_false_iff. apply Qle_bool_iff.
Qed.

Lemma Qgtb_compat (x x' y y' : Q) : x == x' -> y == y' -> Qgtb x y = Qgtb x' y'.
Proof.
  intros Hx Hy. unfold Qgtb. f_equal. apply Qleb_comp; assumption.
Qed.

Lemma Qmin_le_r (x y : Q) : Qmin x y <= y.
Proof. apply Q.le_min_r. Qed.

(** ** Every read of the loops is inside the array *)

Lemma in_indicesFrom (n : nat) :
  forall lo i, In i (indicesFrom lo n) <-> (lo <= i < lo + Z.of_nat n)%Z.
Proof.
  induction n as [| n IH]; intros lo i.
  - simpl. lia.
  - cbn [indicesFrom In]. rewrite IH. lia.
Qed.

Lemma in_indices (lo hi i : Z) : In i (indices lo hi) <-> (lo <= i <= hi)%Z.
Proof. unfold indices. rewrite in_indicesFrom. lia. Qed.

(** The windows of [detectFireAlarm] are cut to the array, and the ranges
    of the two other classifiers start at a bin that is not negative when
    the sample rate is positive: no loop reads outside [frequencyData]. *)
Lemma reads_in_bounds (data : Uint8Array) (sr lo hi : Q) (bin half i : Z) :
  (In i (indices (Z.max 0 (bin - half)) (Z.min (len data - 1) (bin + half))) ->
   (0 <= i < len data)%Z)
  /\ (0 < sr -> 0 <= lo -> In i (Spec.binsBetween data sr lo hi) -> (0 <= i < len data)%Z).
Proof.
  split.
  - rewrite in_indices. lia.
  - intros Hsr Hlo. unfold Spec.binsBetween. rewrite in_indices. intros [H1 H2].
    assert (H0 : (0 <= Math_floor (lo * inject_Z (len data) / (sr / 2)))%Z).
    { unfold Math_floor. change 0%Z with (Qfloor 0). apply Qfloor_resp_le.
      apply Qle_shift_div_l; [change (sr / 2) with (sr * (1 # 2)); lra |]. rewrite Qmult_0_l.
      apply Qmult_le_0_compat; [exact Hlo |].
      change 0 with (inject_Z 0). rewrite <- Zle_Qle. unfold len. lia. }
    lia.
Qed.

(** ** The classifiers name their own type *)

Lemma detectFireAlarm_type en data sr c :
  detectFireAlarm en data sr = Some c -> c_type c = fire.
Proof.
  unfold detectFireAlarm.
  destruct (negb (es_fire en)); [discriminate |].
  match goal with |- context [if ?b then _ else _] => destruct b end;
    [intros [= <-]; reflexivity | discriminate].
Qed.

Lemma detectDoorbell_type en data sr c :
  detectDoorbell en data sr = Some c -> c_type c = doorbell.
Proof.
  unfold detectDoorbell.
  destruct (negb (es_doorbell en)); [discriminate |].
  match goal with |- context [if ?b then _ else _] => destruct b end;
    [intros [= <-]; reflexivity | discriminate].
Qed.

Lemma detectBabyCrying_type en data sr c :
  detectBabyCrying en data sr = Some c -> c_type c = baby.
Proof.
  unfold detectBabyCrying.
  destruct (negb (es_baby en)); [discriminate |].
  cbv zeta.
  match goal with |- context [if ?b then _ else _] => destruct b end;
    [intros [= <-]; reflexivity | discriminate].
Qed.

(** ** Confidence ceilings *)

Lemma detectFireAlarm_ceiling en data sr c :
  detectFireAlarm en data sr = Some c -> c_confidence c <= 0.98.
Proof.
  unfold detectFireAlarm.
  destruct (negb (es_fire en)); [discriminate |].
  match goal with |- context [if ?b then _ else _] => destruct b end;
    [intros [= <-]; apply Qmin_le_r | discriminate].
Qed.

Lemma detectDoorbell_ceiling en data sr c :
  detectDoorbell en data sr = Some c -> c_confidence c <= 0.95.
Proof.
  unfold detectDoorbell.
  destruct (negb (es_doorbell en)); [discriminate |].
  match goal with |- context [if ?b then _ else _] => destruct b end;
    [intros [= <-]; apply Qmin_le_r | discriminate].
Qed.

Lemma detectBabyCrying_ceiling en data sr c :
  detectBabyCrying en data sr = Some c -> c_confidence c <= 0.92.
Proof.
  unfold detectBabyCrying.
  destruct (negb (es_baby en)); [discriminate |].
  cbv zeta.
  match goal with |- context [if ?b then _ else _] => destruct b end;
    [intros [= <-]; apply Qmin_le_r | discriminate].
Qed.

(** The candidates of a cycle, one classifier after the other. *)
Lemma detections_cases en data sr :
  detections en data sr =
    match detectFireAlarm en data sr with Some c => [c] | None => [] end
    ++ match detectDoorbell en data sr with Some c => [c] | None => [] end
    ++ match detectBabyCrying en data sr with Some c => [c] | None => [] end.
Proof.
  unfold detections.
  destruct (detectFireAlarm en data sr), (detectDoorbell en data sr),
    (detectBabyCrying en data sr); reflexivity.
Qed.

Lemma detections_ceiling en data sr :
  Forall (fun c => c_confidence c <= Spec.maxConfidence (c_type c)) (detections en data sr).
Proof.
  rewrite detections_cases.
  repeat apply Forall_app_2.
  - destruct (detectFireAlarm en data sr) as [c|] eqn:E; constructor; [| constructor].
    rewrite (detectFireAlarm_type _ _ _ _ E). exact (detectFireAlarm_ceiling _ _ _ _ E).
  - destruct (detectDoorbell en data sr) as [c|] eqn:E; constructor; [| constructor].
    rewrite (detectDoorbell_type _ _ _ _ E). exact (detectDoorbell_ceiling _ _ _ _ E).
  - destruct (detectBabyCrying en data sr) as [c|] eqn:E; constructor; [| constructor].
    rewrite (detectBabyCrying_type _ _ _ _ E). exact (detectBabyCrying_ceiling _ _ _ _ E).
Qed.

(** ** The gate *)

Lemma SoundType_eqb_eq (a b : SoundType) : SoundType_eqb a b = true <-> a = b.
Proof. destruct a, b; simpl; split; congruence. Qed.

Lemma SoundType_eqb_refl (a : SoundType) : SoundType_eqb a a = true.
Proof. destruct a; reflexivity. Qed.

Lemma type_key_inj (a b : SoundType) : type_key a = type_key b -> a = b.
Proof. destruct a, b; simpl; intros H; try reflexivity; discriminate H. Qed.

Lemma lastDetectionOf_insert (m : gmap string Z) (t : SoundType) (now : Z) :
  lastDetectionOf (<[type_key t := now]> m) t = now.
Proof. unfold lastDetectionOf. rewrite lookup_insert_eq. reflexivity. Qed.

Lemma lastDetectionOf_insert_ne (m : gmap string Z) (t k : SoundType) (now : Z) :
  t <> k -> lastDetectionOf (<[type_key t := now]> m) k = lastDetectionOf m k.
Proof.
  intros Hne. unfold lastDetectionOf. rewrite lookup_insert_ne; [reflexivity |].
  intros H. apply Hne, type_key_inj, H.
Qed.

Lemma lastDetectionOf_empty (t : SoundType) : lastDetectionOf ∅ t = 0%Z.
Proof. unfold lastDetectionOf. rewrite lookup_empty. reflexivity. Qed.

(** The gate reads the state of the candidate's own type only. *)
Lemma gateOpen_ext (m1 m2 : gmap string Z) (now : Z) (d : Candidate) :
  lastDetectionOf m1 (c_type d) = lastDetectionOf m2 (c_type d) ->
  gateOpen m1 now d = gateOpen m2 now d.
Proof. intros H. unfold gateOpen. rewrite H. reflexivity. Qed.

Lemma gateOpen_true (m : gmap string Z) (now : Z) (d : Candidate) :
  gateOpen m now d = true <->
  confidenceThreshold (c_type d) < c_confidence d
  /\ (cooldownPeriod (c_type d) < now - lastDetectionOf m (c_type d))%Z.
Proof.
  unfold gateOpen. rewrite andb_true_iff, Z.ltb_lt, Qgtb_true. tauto.
Qed.

Lemma gateOpen_false (m : gmap string Z) (now : Z) (d : Candidate) :
  gateOpen m now d = false <->
  c_confidence d <= confidenceThreshold (c_type d)
  \/ (now - lastDetectionOf m (c_type d) <= cooldownPeriod (c_type d))%Z.
Proof.
  unfold gateOpen. rewrite andb_false_iff, Z.ltb_ge, Qgtb_false. tauto.
Qed.

Lemma candidateOf_cons (k : SoundType) (d : Candidate) (ds : list Candidate) :
  candidateOf k (d :: ds) = if SoundType_eqb (c_type d) k then Some d else candidateOf k ds.
Proof. reflexivity. Qed.

Lemma candidateOf_fresh (d : Candidate) (ds : list Candidate) :
  c_type d ∉ map c_type ds -> candidateOf (c_type d) ds = None.
Proof.
  intros Hnotin.
  destruct (candidateOf (c_type d) ds) as [d' |] eqn:Ec; [| reflexivity].
  apply find_some in Ec. destruct Ec as [Hin Ec].
  apply SoundType_eqb_eq in Ec. exfalso. apply Hnotin.
  rewrite <- Ec. apply list_elem_of_In, in_map, Hin.
Qed.

Lemma processDetection_open now m evs d :
  gateOpen m now d = true ->
  processDetection now (m, evs) d =
    (<[type_key (c_type d) := now]> m, evs ++ [eventOf now d]).
Proof. intros H. unfold processDetection. simpl. rewrite H. reflexivity. Qed.

Lemma processDetection_shut now m evs d :
  gateOpen m now d = false -> processDetection now (m, evs) d = (m, evs).
Proof. intros H. unfold processDetection. simpl. rewrite H. reflexivity. Qed.

Lemma gated_insert_ne (m : gmap string Z) (now : Z) (t k : SoundType) (ds : list Candidate) :
  t <> k ->
  gated (<[type_key t := now]> m) now (candidateOf k ds) = gated m now (candidateOf k ds).
Proof.
  intros Hne.
  destruct (candidateOf k ds) as [d' |] eqn:Ec; [| reflexivity].
  simpl. apply find_some in Ec. destruct Ec as [_ Ec].
  apply SoundType_eqb_eq in Ec.
  rewrite (gateOpen_ext (<[type_key t := now]> m) m); [reflexivity |].
  rewrite Ec. apply lastDetectionOf_insert_ne, Hne.
Qed.

Lemma eventsOfType_snoc k evs e :
  eventsOfType k (evs ++ [e]) =
    eventsOfType k evs ++ (if SoundType_eqb (type e) k then [e] else []).
Proof. unfold eventsOfType. rewrite List.filter_app. reflexivity. Qed.

Lemma processDetections_fold_type (now : Z) (k : SoundType) (ds : list Candidate) :
  NoDup (map c_type ds) ->
  forall (m : gmap string Z) (evs : list SoundDetection),
    eventsOfType k (snd (fold_left (processDetection now) ds (m, evs)))
      = eventsOfType k evs ++ gated m now (candidateOf k ds)
    /\ lastDetectionOf (fst (fold_left (processDetection now) ds (m, evs))) k =
         match gated m now (candidateOf k ds) with
         | [] => lastDetectionOf m k
         | _ => now
         end.
Proof.
  induction ds as [| d ds IH]; intros Hnd m evs.
  - simpl. rewrite app_nil_r. split; reflexivity.
  - inversion Hnd as [| ? ? Hnotin Hnd']; subst.
    rewrite candidateOf_cons. cbn [fold_left].
    destruct (gateOpen m now d) eqn:Eg.
    + rewrite (processDetection_open _ _ _ _ Eg).
      destruct (IH Hnd' (<[type_key (c_type d) := now]> m) (evs ++ [eventOf now d]))
        as [He Hl].
      rewrite He, Hl, eventsOfType_snoc. clear He Hl. cbn [eventOf type].
      destruct (SoundType_eqb (c_type d) k) eqn:Ek.
      * apply SoundType_eqb_eq in Ek. subst k.
        rewrite (candidateOf_fresh _ _ Hnotin). cbn [gated]. rewrite Eg, app_nil_r.
        split; [reflexivity | apply lastDetectionOf_insert].
      * assert (Hne : c_type d <> k).
        { intros E. rewrite <- SoundType_eqb_eq in E. congruence. }
        rewrite (gated_insert_ne _ _ _ _ _ Hne), (lastDetectionOf_insert_ne _ _ _ _ Hne).
        rewrite app_nil_r. split; reflexivity.
    + rewrite (processDetection_shut _ _ _ _ Eg).
      destruct (IH Hnd' m evs) as [He Hl]. rewrite He, Hl. clear He Hl.
      destruct (SoundType_eqb (c_type d) k) eqn:Ek.
      * apply SoundType_eqb_eq in Ek. subst k.
        rewrite (candidateOf_fresh _ _ Hnotin). cbn [gated]. rewrite Eg.
        split; reflexivity.
      * split; reflexivity.
Qed.

(** The candidates of a cycle have distinct types, and the candidate of a
    type is what that type's classifier returned. *)
Lemma detections_NoDup en data sr : NoDup (map c_type (detections en data sr)).
Proof.
  rewrite detections_cases.
  destruct (detectFireAlarm en data sr) as [c1 |] eqn:E1;
    destruct (detectDoorbell en data sr) as [c2 |] eqn:E2;
    destruct (detectBabyCrying en data sr) as [c3 |] eqn:E3;
    simpl;
    try rewrite (detectFireAlarm_type _ _ _ _ E1);
    try rewrite (detectDoorbell_type _ _ _ _ E2);
    try rewrite (detectBabyCrying_type _ _ _ _ E3);
    apply NoDup_ListNoDup;
    repeat (constructor; [simpl; intuition congruence |]); constructor.
Qed.

Lemma candidateOf_detections k en data sr :
  candidateOf k (detections en data sr) = classify k en data sr.
Proof.
  rewrite detections_cases. unfold candidateOf.
  destruct (detectFireAlarm en data sr) as [c1 |] eqn:E1;
    destruct (detectDoorbell en data sr) as [c2 |] eqn:E2;
    destruct (detectBabyCrying en data sr) as [c3 |] eqn:E3;
    simpl;
    try rewrite (detectFireAlarm_type _ _ _ _ E1);
    try rewrite (detectDoorbell_type _ _ _ _ E2);
    try rewrite (detectBabyCrying_type _ _ _ _ E3);
    destruct k; simpl; congruence.
Qed.

Lemma classify_type k en data sr c : classify k en data sr = Some c -> c_type c = k.
Proof.
  destruct k; simpl;
    [apply detectFireAlarm_type | apply detectDoorbell_type | apply detectBabyCrying_type].
Qed.

(** The events of one type and that type's entry after [processDetections]. *)
Lemma processDetections_type now k en data sr (m : gmap string Z) :
  eventsOfType k (snd (processDetections now m (detections en data sr)))
    = gated m now (classify k en data sr)
  /\ lastDetectionOf (fst (processDetections now m (detections en data sr))) k =
       match gated m now (classify k en data sr) with
       | [] => lastDetectionOf m k
       | _ => now
       end.
Proof.
  unfold processDetections.
  destruct (processDetections_fold_type now k _ (detections_NoDup en data sr) m [])
    as [He Hl].
  rewrite candidateOf_detections in He, Hl. split; assumption.
Qed.

(** Every event a [forEach] adds is the event of one of its candidates. *)
Lemma processDetections_Forall (P : SoundDetection -> Prop) now (ds : list Candidate) :
  Forall (fun d => P (eventOf now d)) ds ->
  forall (m : gmap string Z) (evs : list SoundDetection),
    Forall P evs -> Forall P (snd (fold_left (processDetection now) ds (m, evs))).
Proof.
  induction 1 as [| d ds Hd Hds IH]; intros m evs Hevs; [exact Hevs |].
  cbn [fold_left]. destruct (gateOpen m now d) eqn:Eg.
  - rewrite (processDetection_open _ _ _ _ Eg). apply IH.
    apply Forall_app_2; [exact Hevs | constructor; [exact Hd | constructor]].
  - rewrite (processDetection_shut _ _ _ _ Eg). apply IH, Hevs.
Qed.

Section Cycle.

Variable Math_sqrt : Q -> Q.

(** A cycle that finds the analyser and the audio context. *)
Lemma analyzeAudio_live isListening en frame now h analyser audioContext :
  analyserRef h = Some analyser ->
  audioContextRef h = Some audioContext ->
  analyzeAudio Math_sqrt isListening en frame now h =
    ({| hasPermission := hasPermission h;
        error := error h;
        audioLevel := smooth (targetLevel Math_sqrt (timeData frame)) (smoothedLevelRef h);
        isInitializing := isInitializing h;
        audioContextRef := audioContextRef h;
        analyserRef := analyserRef h;
        mediaStreamRef := mediaStreamRef h;
        animationFrameRef := if isListening then true else animationFrameRef h;
        lastDetectionRef :=
          fst (processDetections now (lastDetectionRef h)
                 (detections en (frequencyData frame) (sampleRate audioContext)));
        smoothedLevelRef :=
          smooth (targetLevel Math_sqrt (timeData frame)) (smoothedLevelRef h);
        frequencyHistoryRef := pushHistory (frequencyHistoryRef h) (frequencyData frame) |},
     snd (processDetections now (lastDetectionRef h)
            (detections en (frequencyData frame) (sampleRate audioContext)))).
Proof. intros Ha Hc. unfold analyzeAudio. rewrite Ha, Hc. reflexivity. Qed.

(** A cycle that finds one of them missing does nothing. *)
Lemma analyzeAudio_idle isListening en frame now h :
  analyserRef h = None \/ audioContextRef h = None ->
  analyzeAudio Math_sqrt isListening en frame now h = (h, []).
Proof.
  intros [H | H]; unfold analyzeAudio; rewrite H; [reflexivity |].
  destruct (analyserRef h); reflexivity.
Qed.

(** The events of one type in a cycle, and that type's entry after it. *)
Lemma analyzeAudio_type k isListening en frame now h analyser audioContext :
  analyserRef h = Some analyser ->
  audioContextRef h = Some audioContext ->
  eventsOfType k (snd (analyzeAudio Math_sqrt isListening en frame now h))
    = gated (lastDetectionRef h) now
        (classify k en (frequencyData frame) (sampleRate audioContext))
  /\ lastDetectionOf
       (lastDetectionRef (fst (analyzeAudio Math_sqrt isListening en frame now h))) k
     = match gated (lastDetectionRef h) now
               (classify k en (frequencyData frame) (sampleRate audioContext)) with
       | [] => lastDetectionOf (lastDetectionRef h) k
       | _ => now
       end.
Proof.
  intros Ha Hc. rewrite (analyzeAudio_live _ _ _ _ _ _ _ Ha Hc).
  cbn [fst snd lastDetectionRef]. apply processDetections_type.
Qed.

(** A cycle keeps the analyser and the audio context it found. *)
Lemma analyzeAudio_refs isListening en frame now h :
  analyserRef (fst (analyzeAudio Math_sqrt isListening en frame now h)) = analyserRef h
  /\ audioContextRef (fst (analyzeAudio Math_sqrt isListening en frame now h))
     = audioContextRef h
  /\ error (fst (analyzeAudio Math_sqrt isListening en frame now h)) = error h.
Proof.
  unfold analyzeAudio.
  destruct (analyserRef h) eqn:Ha, (audioContextRef h) eqn:Hc; simpl; auto.
Qed.

End Cycle.
Lemma eventsOfType_app k e1 e2 :
  eventsOfType k (e1 ++ e2) = eventsOfType k e1 ++ eventsOfType k e2.
Proof. apply List.filter_app. Qed.

(** ** The event gate (claim C1) *)

(** C1.  The [forEach] of [analyzeAudio] sends the event of a candidate and
    records [now] under the candidate's type exactly when the confidence
    is strictly above the threshold of the type (0.75 for fire, 0.7 for
    doorbell and baby) and [now] minus the recorded time of the type (0
    when there is none) is strictly above the cooldown of the type (3000
    for fire, 8000 for the others); otherwise it changes neither the
    recorded times nor the events.  Two fire candidates above the threshold
    in cycles 1000 ms apart, the first passing the cooldown, give exactly
    one fire event; 3500 ms apart they give two. *)
Theorem event_gate (Math_sqrt : Q -> Q) (now : Z) (m : gmap string Z)
    (evs : list SoundDetection) (d : Candidate) :
  (confidenceThreshold fire = 0.75 /\ confidenceThreshold doorbell = 0.7
   /\ confidenceThreshold baby = 0.7
   /\ cooldownPeriod fire = 3000%Z /\ cooldownPeriod doorbell = 8000%Z
   /\ cooldownPeriod baby = 8000%Z)
  /\ (processDetection now (m, evs) d
        = (<[type_key (c_type d) := now]> m,
           evs ++ [ {| type := c_type d; confidence := c_confidence d; timestamp := now;
                       frequency := c_frequency d; amplitude := c_amplitude d |} ])
      <-> confidenceThreshold (c_type d) < c_confidence d
          /\ (cooldownPeriod (c_type d) < now - lastDetectionOf m (c_type d))%Z)
  /\ (processDetection now (m, evs) d = (m, evs)
      <-> ~ (confidenceThreshold (c_type d) < c_confidence d
             /\ (cooldownPeriod (c_type d) < now - lastDetectionOf m (c_type d))%Z))
  /\ (forall h analyser audioContext en frame1 frame2 isListening d1 d2 t,
        analyserRef h = Some analyser ->
        audioContextRef h = Some audioContext ->
        detectFireAlarm en (frequencyData frame1) (sampleRate audioContext) = Some d1 ->
        detectFireAlarm en (frequencyData frame2) (sampleRate audioContext) = Some d2 ->
        0.75 < c_confidence d1 ->
        0.75 < c_confidence d2 ->
        (3000 < t - lastDetectionOf (lastDetectionRef h) fire)%Z ->
        eventsOfType fire
          (snd (runCycles Math_sqrt
                  [ (isListening, en, frame1, t);
                    (isListening, en, frame2, (t + 1000)%Z) ] h))
          = [eventOf t d1]
        /\ eventsOfType fire
             (snd (runCycles Math_sqrt
                     [ (isListening, en, frame1, t);
                       (isListening, en, frame2, (t + 3500)%Z) ] h))
           = [eventOf t d1; eventOf (t + 3500) d2]).
Proof.
  split; [repeat split |].
  assert (Hlen : forall (l : list SoundDetection) e, l ++ [e] <> l).
  { intros l e H. apply (f_equal (@length _)) in H.
    rewrite length_app in H. simpl in H. lia. }
  split; [| split].
  - rewrite <- gateOpen_true. split.
    + intros H. destruct (gateOpen m now d) eqn:Eg; [reflexivity |].
      rewrite (processDetection_shut _ _ _ _ Eg) in H.
      injection H as _ H. symmetry in H. exfalso. exact (Hlen _ _ H).
    + apply processDetection_open.
  - rewrite <- gateOpen_true, not_true_iff_false. split.
    + intros H. destruct (gateOpen m now d) eqn:Eg; [| reflexivity].
      rewrite (processDetection_open _ _ _ _ Eg) in H.
      injection H as _ H. exfalso. exact (Hlen _ _ H).
    + apply processDetection_shut.
  - intros h analyser audioContext en frame1 frame2 isListening d1 d2 t
      Ha Hc Hd1 Hd2 Hc1 Hc2 Hcool.
    assert (Hgate : forall t' frame d', 
               detectFireAlarm en (frequencyData frame) (sampleRate audioContext) = Some d' ->
               0.75 < c_confidence d' ->
               forall h', analyserRef h' = Some analyser ->
               audioContextRef h' = Some audioContext ->
               eventsOfType fire (snd (analyzeAudio Math_sqrt isListening en frame t' h'))
               = if (3000 <? t' - lastDetectionOf (lastDetectionRef h') fire)%Z
                 then [eventOf t' d'] else []).
    { intros t' frame d' Hd' Hc' h' Ha' Hc''.
      rewrite (proj1 (analyzeAudio_type Math_sqrt fire _ _ _ _ _ _ _ Ha' Hc'')).
      cbn [classify]. rewrite Hd'. cbn [gated]. unfold gateOpen.
      rewrite (detectFireAlarm_type _ _ _ _ Hd'). cbn [cooldownPeriod confidenceThreshold].
      rewrite (proj2 (Qgtb_true _ _) Hc'), andb_true_r. reflexivity. }
    pose proof (analyzeAudio_refs Math_sqrt isListening en frame1 t h) as (Ha1 & Hc1' & _).
    rewrite Ha in Ha1. rewrite Hc in Hc1'.
    assert (Hlast : lastDetectionOf
              (lastDetectionRef (fst (analyzeAudio Math_sqrt isListening en frame1 t h))) fire
              = t).
    { rewrite (proj2 (analyzeAudio_type Math_sqrt fire _ _ _ _ _ _ _ Ha Hc)).
      cbn [classify]. rewrite Hd1. cbn [gated]. unfold gateOpen.
      rewrite (detectFireAlarm_type _ _ _ _ Hd1). cbn [cooldownPeriod confidenceThreshold].
      rewrite (proj2 (Qgtb_true _ _) Hc1), (proj2 (Z.ltb_lt _ _) Hcool). reflexivity. }
    cbn [runCycles fst snd]. rewrite !app_nil_r, !eventsOfType_app.
    rewrite (Hgate t frame1 d1 Hd1 Hc1 h Ha Hc), (proj2 (Z.ltb_lt _ _) Hcool).
    rewrite !(Hgate _ frame2 d2 Hd2 Hc2 _ Ha1 Hc1'), Hlast.
    replace (t + 1000 - t)%Z with 1000%Z by lia.
    replace (t + 3500 - t)%Z with 3500%Z by lia.
    split; reflexivity.
Qed.

(** The fire tone 1000 ms and 3500 ms apart in a session at 48 kHz. *)
Lemma event_gate_witness :
  eventsOfType fire
    (snd (runCycles sqrt53
            [ (true, allEnabled, fireFrame, someNow);
              (true, allEnabled, fireFrame, (someNow + 1000)%Z) ] liveHook))
    = [eventOf someNow fireToneCandidate]
  /\ eventsOfType fire
       (snd (runCycles sqrt53
               [ (true, allEnabled, fireFrame, someNow);
                 (true, allEnabled, fireFrame, (someNow + 3500)%Z) ] liveHook))
     = [eventOf someNow fireToneCandidate; eventOf (someNow + 3500) fireToneCandidate].
Proof.
  apply (proj2 (proj2 (proj2 (event_gate sqrt53 0 ∅ [] fireToneCandidate)))
           liveHook {| fftSize := 16384 |} {| sampleRate := 48000; state := running |}
           allEnabled fireFrame fireFrame true fireToneCandidate fireToneCandidate someNow);
    try reflexivity; vm_compute; reflexivity.
Defined.

(** ** Confidence ceilings (claim C3) *)

Lemma runCycles_Forall (Math_sqrt : Q -> Q) (P : SoundDetection -> Prop) :
  (forall isListening en frame now h,
      Forall P (snd (analyzeAudio Math_sqrt isListening en frame now h))) ->
  forall ticks h, Forall P (snd (runCycles Math_sqrt ticks h)).
Proof.
  intros Hcycle. induction ticks as [| [[[isListening en] frame] now] ticks IH]; intros h.
  - constructor.
  - cbn [runCycles snd]. apply Forall_app_2; [apply Hcycle | apply IH].
Qed.

Lemma analyzeAudio_ceiling (Math_sqrt : Q -> Q) isListening en frame now h :
  Forall (fun e => confidence e <= Spec.maxConfidence (type e))
         (snd (analyzeAudio Math_sqrt isListening en frame now h)).
Proof.
  unfold analyzeAudio.
  destruct (analyserRef h); [| constructor].
  destruct (audioContextRef h); [| constructor].
  cbn [snd]. unfold processDetections.
  apply processDetections_Forall; [| constructor].
  apply (detections_ceiling en (frequencyData frame)).
Qed.

(** C3.  No candidate of a classifier and no event of a cycle, on any
    spectrum at any sample rate, carries a confidence above the ceiling of
    its type: 0.98 for fire, 0.95 for doorbell, 0.92 for baby.  On the
    spectrum with every bin at 255 the three classifiers report exactly
    their ceilings. *)
Theorem confidence_ceiling (Math_sqrt : Q -> Q) (en : EnabledSounds)
    (data : Uint8Array) (sr : Q)
    (ticks : list (bool * EnabledSounds * Frame * Z)) (h : Hook) :
  (Spec.maxConfidence fire = 0.98 /\ Spec.maxConfidence doorbell = 0.95
   /\ Spec.maxConfidence baby = 0.92)
  /\ Forall (fun c => c_confidence c <= Spec.maxConfidence (c_type c))
            (detections en data sr)
  /\ match detectFireAlarm en data sr with
     | Some c => c_type c = fire /\ c_confidence c <= 0.98
     | None => True
     end
  /\ match detectDoorbell en data sr with
     | Some c => c_type c = doorbell /\ c_confidence c <= 0.95
     | None => True
     end
  /\ match detectBabyCrying en data sr with
     | Some c => c_type c = baby /\ c_confidence c <= 0.92
     | None => True
     end
  /\ Forall (fun e => confidence e <= Spec.maxConfidence (type e))
            (snd (runCycles Math_sqrt ticks h))
  /\ map (fun c => (c_type c, c_confidence c)) (detections allEnabled saturated 48000)
     = [(fire, 0.98); (doorbell, 0.95); (baby, 0.92)].
Proof.
  split; [repeat split |].
  split; [apply detections_ceiling |].
  split.
  { destruct (detectFireAlarm en data sr) as [c |] eqn:E; [| exact I].
    split; [exact (detectFireAlarm_type _ _ _ _ E) | exact (detectFireAlarm_ceiling _ _ _ _ E)]. }
  split.
  { destruct (detectDoorbell en data sr) as [c |] eqn:E; [| exact I].
    split; [exact (detectDoorbell_type _ _ _ _ E) | exact (detectDoorbell_ceiling _ _ _ _ E)]. }
  split.
  { destruct (detectBabyCrying en data sr) as [c |] eqn:E; [| exact I].
    split; [exact (detectBabyCrying_type _ _ _ _ E) | exact (detectBabyCrying_ceiling _ _ _ _ E)]. }
  split.
  { apply runCycles_Forall. intros. apply analyzeAudio_ceiling. }
  vm_compute. reflexivity.
Qed.

(** ** The enabled mask (claim C7) *)

Lemma classify_disabled k en data sr : enabled en k = false -> classify k en data sr = None.
Proof.
  destruct k; simpl; intros H;
    [unfold detectFireAlarm | unfold detectDoorbell | unfold detectBabyCrying];
    rewrite H; reflexivity.
Qed.

(** An enabled classifier reads nothing else of the mask. *)
Lemma classify_enabled k en en' data sr :
  enabled en k = enabled en' k -> classify k en data sr = classify k en' data sr.
Proof.
  destruct k; simpl; intros H;
    [unfold detectFireAlarm | unfold detectDoorbell | unfold detectBabyCrying];
    rewrite H; reflexivity.
Qed.

Lemma gated_ext (m1 m2 : gmap string Z) now k en data sr :
  lastDetectionOf m1 k = lastDetectionOf m2 k ->
  gated m1 now (classify k en data sr) = gated m2 now (classify k en data sr).
Proof.
  intros H. destruct (classify k en data sr) as [d |] eqn:E; [| reflexivity].
  cbn [gated]. rewrite (gateOpen_ext m1 m2); [reflexivity |].
  rewrite (classify_type _ _ _ _ _ E). exact H.
Qed.

(** ** Doorbell candidates the gate never passes (claim C10) *)

Lemma detectDoorbell_Some en data sr c :
  detectDoorbell en data sr = Some c ->
  es_doorbell en = true
  /\ (2 <= activeRanges (doorbellScan data sr))%Z
  /\ 180 < weightedScore (doorbellScan data sr)
  /\ c = {| c_type := doorbell;
            c_confidence := Qmin (weightedScore (doorbellScan data sr) / 350) 0.95;
            c_frequency := dominantFreq (doorbellScan data sr);
            c_amplitude := maxAmplitude (doorbellScan data sr) |}.
Proof.
  unfold detectDoorbell.
  destruct (es_doorbell en); [| discriminate]. cbn [negb].
  destruct (2 <=? activeRanges (doorbellScan data sr))%Z eqn:Ea; [| discriminate].
  destruct (Qgtb (weightedScore (doorbellScan data sr)) 180) eqn:Ew; [| discriminate].
  cbn [andb]. intros [= <-].
  apply Z.leb_le in Ea. apply Qgtb_true in Ew. auto.
Qed.

Lemma detectDoorbell_rule en data sr :
  es_doorbell en = true ->
  (2 <= activeRanges (doorbellScan data sr))%Z ->
  180 < weightedScore (doorbellScan data sr) ->
  detectDoorbell en data sr =
    Some {| c_type := doorbell;
            c_confidence := Qmin (weightedScore (doorbellScan data sr) / 350) 0.95;
            c_frequency := dominantFreq (doorbellScan data sr);
            c_amplitude := maxAmplitude (doorbellScan data sr) |}.
Proof.
  intros He Ha Hw. unfold detectDoorbell. rewrite He. cbn [negb].
  rewrite (proj2 (Z.leb_le _ _) Ha), (proj2 (Qgtb_true _ _) Hw). reflexivity.
Qed.

Lemma doorbell_confidence_low (ws : Q) : ws <= 245 -> Qmin (ws / 350) 0.95 <= 0.7.
Proof.
  intros H. apply Qle_trans with (ws / 350); [apply Q.le_min_l |].
  change (ws / 350) with (ws * (1 # 350)). lra.
Qed.

Lemma doorbell_confidence_high (ws : Q) : 0.7 < Qmin (ws / 350) 0.95 -> 245 < ws.
Proof.
  intros H. apply Qnot_le_lt. intros Hle.
  apply (Qlt_not_le _ _ H), doorbell_confidence_low, Hle.
Qed.

(** C10.  A doorbell candidate whose [weightedScore] is at most 245 has a
    confidence of at most 0.7, and the gate drops it at every time and in
    every state, so a cycle on such a spectrum sends no doorbell event;
    every doorbell event of a cycle comes from a spectrum whose
    [weightedScore] is above 245; and a spectrum with two active ranges and
    a [weightedScore] in (180, 245] does make the classifier return a
    candidate. *)
Theorem doorbell_low_score (Math_sqrt : Q -> Q) (en : EnabledSounds) :
  (forall data sr c,
     detectDoorbell en data sr = Some c ->
     c_confidence c = Qmin (weightedScore (doorbellScan data sr) / 350) 0.95
     /\ (weightedScore (doorbellScan data sr) <= 245 ->
         c_confidence c <= 0.7
         /\ forall (m : gmap string Z) now evs,
              gateOpen m now c = false /\ processDetection now (m, evs) c = (m, evs)))
  /\ (forall isListening frame now h analyser audioContext,
        analyserRef h = Some analyser ->
        audioContextRef h = Some audioContext ->
        (weightedScore (doorbellScan (frequencyData frame) (sampleRate audioContext)) <= 245 ->
         eventsOfType doorbell (snd (analyzeAudio Math_sqrt isListening en frame now h)) = [])
        /\ (forall e, In e (snd (analyzeAudio Math_sqrt isListening en frame now h)) ->
                      type e = doorbell ->
                      245 < weightedScore
                              (doorbellScan (frequencyData frame) (sampleRate audioContext))))
  /\ (forall data sr,
        es_doorbell en = true ->
        (2 <= activeRanges (doorbellScan data sr))%Z ->
        180 < weightedScore (doorbellScan data sr) ->
        weightedScore (doorbellScan data sr) <= 245 ->
        exists c, detectDoorbell en data sr = Some c /\ c_type c = doorbell).
Proof.
  assert (Hdrop : forall data sr c, detectDoorbell en data sr = Some c ->
            weightedScore (doorbellScan data sr) <= 245 ->
            c_confidence c <= 0.7 /\ forall (m : gmap string Z) now, gateOpen m now c = false).
  { intros data sr c Hc Hw. destruct (detectDoorbell_Some _ _ _ _ Hc) as (_ & _ & _ & ->).
    cbn [c_confidence]. split; [apply doorbell_confidence_low, Hw |].
    intros m now. apply gateOpen_false. left. cbn [c_type c_confidence confidenceThreshold].
    apply doorbell_confidence_low, Hw. }
  split; [| split].
  - intros data sr c Hc. split.
    + destruct (detectDoorbell_Some _ _ _ _ Hc) as (_ & _ & _ & ->). reflexivity.
    + intros Hw. destruct (Hdrop data sr c Hc Hw) as [Hconf Hgate]. split; [exact Hconf |].
      intros m now evs. split; [apply Hgate | apply processDetection_shut, Hgate].
  - intros isListening frame now h analyser audioContext Ha Hctx.
    pose proof (proj1 (analyzeAudio_type Math_sqrt doorbell isListening en frame now h
                         analyser audioContext Ha Hctx)) as He.
    cbn [classify] in He. split.
    + intros Hw. rewrite He.
      destruct (detectDoorbell en (frequencyData frame) (sampleRate audioContext))
        as [c |] eqn:Hc; [| reflexivity].
      cbn [gated]. rewrite (proj2 (Hdrop _ _ c Hc Hw)). reflexivity.
    + intros e Hin Hty.
      assert (Hin' : In e (eventsOfType doorbell
                             (snd (analyzeAudio Math_sqrt isListening en frame now h)))).
      { unfold eventsOfType. apply filter_In. split; [exact Hin |].
        rewrite Hty. reflexivity. }
      rewrite He in Hin'.
      destruct (detectDoorbell en (frequencyData frame) (sampleRate audioContext))
        as [c |] eqn:Hc; [| destruct Hin'].
      cbn [gated] in Hin'.
      destruct (gateOpen (lastDetectionRef h) now c) eqn:Eg; [| destruct Hin'].
      apply gateOpen_true in Eg. destruct Eg as [Hconf _].
      destruct (detectDoorbell_Some _ _ _ _ Hc) as (_ & _ & _ & ->).
      cbn [c_type c_confidence confidenceThreshold] in Hconf.
      apply doorbell_confidence_high, Hconf.
  - intros data sr He Ha Hw _. rewrite (detectDoorbell_rule _ _ _ He Ha Hw).
    eexists. split; reflexivity.
Qed.

(** A chime of magnitude 150: two active ranges, [weightedScore] 210. *)
Lemma doorbell_low_score_witness :
  (exists c, detectDoorbell allEnabled (chime 150) 48000 = Some c /\ c_type c = doorbell)
  /\ eventsOfType doorbell
       (snd (analyzeAudio sqrt53 true allEnabled (chimeFrame 150) someNow liveHook)) = [].
Proof.
  pose proof (doorbell_low_score sqrt53 allEnabled) as (_ & Hcycle & Hsome).
  split.
  - apply Hsome; [reflexivity | by_running ..].
  - apply (proj1 (Hcycle true (chimeFrame 150) someNow liveHook
                    {| fftSize := 16384 |} {| sampleRate := 48000; state := running |}
                    eq_refl eq_refl)).
    by_running.
Defined.

(** ** The loops compute peaks, sums and counts *)

Lemma peakOver_nonneg data l : (0 <= Spec.peakOver data l)%Z.
Proof.
  unfold Spec.peakOver. induction l as [| i l IH]; simpl; lia.
Qed.

Lemma range_step_fold data nyquist bufferLength (l : list Z) :
  forall s : RangeScan,
    (0 <= rPeak s)%Z ->
    rPeak (fold_left (range_step data nyquist bufferLength) l s)
      = Z.max (rPeak s) (Spec.peakOver data l)
    /\ rSum (fold_left (range_step data nyquist bufferLength) l s)
       = (rSum s + Spec.sumOver data l)%Z
    /\ rCount (fold_left (range_step data nyquist bufferLength) l s)
       = (rCount s + Z.of_nat (length l))%Z.
Proof.
  induction l as [| i l IH]; intros s Hs.
  - unfold Spec.peakOver, Spec.sumOver. simpl. repeat split; lia.
  - cbn [fold_left].
    assert (Hpk : rPeak (range_step data nyquist bufferLength s i)
                  = Z.max (rPeak s) (get data i)).
    { cbn [range_step rPeak]. destruct (rPeak s <? get data i)%Z eqn:E;
        [apply Z.ltb_lt in E | apply Z.ltb_ge in E]; lia. }
    destruct (IH (range_step data nyquist bufferLength s i)) as (Hp & Hsum & Hcnt);
      [rewrite Hpk; lia |].
    rewrite Hp, Hsum, Hcnt, Hpk. cbn [range_step rSum rCount].
    unfold Spec.peakOver, Spec.sumOver. cbn [map fold_right length].
    repeat split; lia.
Qed.

Lemma scanRange_spec data sr (r : Range) :
  let s := scanRange data sr (min r) (max r) in
  rPeak s = Spec.peakOver data (Spec.rangeBins data sr r)
  /\ rSum s = Spec.sumOver data (Spec.rangeBins data sr r)
  /\ rCount s = Z.of_nat (length (Spec.rangeBins data sr r)).
Proof.
  cbv zeta. unfold scanRange.
  change (indices _ _) with (Spec.rangeBins data sr r).
  destruct (range_step_fold data (sr / 2) (len data) (Spec.rangeBins data sr r)
              {| rPeak := 0; rSum := 0; rCount := 0; rPeakFreq := 0 |})
    as (Hp & Hs & Hc); [simpl; lia |].
  rewrite Hp, Hs, Hc. cbn [rPeak rSum rCount].
  pose proof (peakOver_nonneg data (Spec.rangeBins data sr r)).
  repeat split; lia.
Qed.

Lemma rangeAvg_spec data sr (r : Range) :
  rangeAvg (scanRange data sr (min r) (max r))
    = Spec.avgOver data (Spec.rangeBins data sr r).
Proof.
  destruct (scanRange_spec data sr r) as (_ & Hs & Hc).
  unfold rangeAvg, Spec.avgOver. rewrite Hs, Hc.
  destruct (Spec.rangeBins data sr r) as [| i l]; reflexivity.
Qed.

(** ** detectDoorbell against the weighted-range rule (claim C6) *)

(** One round of the [forEach]: an active range adds its score and counts. *)
Lemma doorbell_range_spec data sr acc (r : Range) :
  doorbell_range data sr acc r =
    if Spec.active data sr r then
      let rangePeak := Spec.peakOver data (Spec.rangeBins data sr r) in
      let rangeAvg := Spec.avgOver data (Spec.rangeBins data sr r) in
      {| totalScore := totalScore acc + (inject_Z rangePeak + rangeAvg);
         weightedScore := weightedScore acc + Spec.rangeScore data sr r;
         activeRanges := (activeRanges acc + 1)%Z;
         dominantFreq := if (maxAmplitude acc <? rangePeak)%Z
                         then rPeakFreq (scanRange data sr (min r) (max r))
                         else dominantFreq acc;
         maxAmplitude := if (maxAmplitude acc <? rangePeak)%Z
                         then rangePeak else maxAmplitude acc |}
    else acc.
Proof.
  destruct (scanRange_spec data sr r) as (Hp & Hs & Hc).
  unfold doorbell_range, Spec.active, Spec.rangeScore, Spec.avgOver.
  rewrite Hp, Hs, Hc.
  destruct (Spec.rangeBins data sr r) as [| i l] eqn:E.
  - reflexivity.
  - replace (0 <? Z.of_nat (length (i :: l)))%Z with true
      by (symmetry; apply Z.ltb_lt; simpl; lia).
    reflexivity.
Qed.

Lemma doorbell_fold_spec data sr (rs : list Range) :
  forall acc,
    activeRanges (fold_left (doorbell_range data sr) rs acc)
      = (activeRanges acc
         + Z.of_nat (length (List.filter (Spec.active data sr) rs)))%Z
    /\ weightedScore (fold_left (doorbell_range data sr) rs acc)
       == weightedScore acc
          + fold_right Qplus 0
              (map (Spec.rangeScore data sr) (List.filter (Spec.active data sr) rs)).
Proof.
  induction rs as [| r rs IH]; intros acc.
  - simpl. split; [lia | ring].
  - cbn [fold_left List.filter]. destruct (IH (doorbell_range data sr acc r)) as [Ha Hw].
    rewrite Ha, Hw, doorbell_range_spec.
    destruct (Spec.active data sr r); cbn [activeRanges weightedScore map fold_right length].
    + split; [lia | symmetry; apply Qplus_assoc].
    + split; reflexivity.
Qed.

Lemma doorbellScan_spec data sr :
  activeRanges (doorbellScan data sr) = Z.of_nat (length (Spec.activeRanges data sr))
  /\ weightedScore (doorbellScan data sr) == Spec.weightedScore data sr.
Proof.
  unfold doorbellScan, Spec.activeRanges, Spec.weightedScore.
  destruct (doorbell_fold_spec data sr ranges
              {| totalScore := 0; weightedScore := 0; activeRanges := 0;
                 dominantFreq := 0; maxAmplitude := 0 |}) as [Ha Hw].
  rewrite Ha, Hw. cbn [activeRanges weightedScore]. split; [lia | apply Qplus_0_l].
Qed.

(** C6.  The ranges of [detectDoorbell] are 350-550 Hz with weight 0.3,
    700-1000 Hz with weight 0.4 and 1200-1600 Hz with weight 0.3.  A round
    of its loop counts a range as active, and adds [(peak + avg) * weight]
    to [weightedScore], exactly when the peak of the range is above 65 and
    its average above 25; so [activeRanges] is the number of such ranges
    and [weightedScore] the sum of their scores.  With the doorbell
    enabled a candidate is returned exactly when at least two ranges are
    active and that sum is above 180, and its confidence is
    [min(weightedScore / 350, 0.95)]. *)
Theorem doorbell_rule (en : EnabledSounds) (data : Uint8Array) (sr : Q) :
  map (fun r => (min r, max r, weight r)) ranges
    = [(350, 550, 0.3); (700, 1000, 0.4); (1200, 1600, 0.3)]
  /\ (forall acc r,
        activeRanges (doorbell_range data sr acc r)
          = (activeRanges acc + if Spec.active data sr r then 1 else 0)%Z
        /\ weightedScore (doorbell_range data sr acc r)
           = if Spec.active data sr r
             then weightedScore acc + Spec.rangeScore data sr r
             else weightedScore acc)
  /\ activeRanges (doorbellScan data sr) = Z.of_nat (length (Spec.activeRanges data sr))
  /\ weightedScore (doorbellScan data sr) == Spec.weightedScore data sr
  /\ (es_doorbell en = true ->
      ((exists c, detectDoorbell en data sr = Some c)
       <-> (2 <= length (Spec.activeRanges data sr))%nat
           /\ 180 < Spec.weightedScore data sr))
  /\ (forall c, detectDoorbell en data sr = Some c ->
        c_type c = doorbell
        /\ c_confidence c == Qmin (Spec.weightedScore data sr / 350) 0.95).
Proof.
  destruct (doorbellScan_spec data sr) as [Ha Hw].
  split; [reflexivity |].
  split.
  { intros acc r. rewrite doorbell_range_spec.
    destruct (Spec.active data sr r); cbn [activeRanges weightedScore];
      split; first [reflexivity | lia]. }
  split; [exact Ha |]. split; [exact Hw |]. split.
  - intros He. split.
    + intros [c Hc]. destruct (detectDoorbell_Some _ _ _ _ Hc) as (_ & Hn & Hs & _).
      rewrite Ha in Hn. rewrite Hw in Hs. split; [lia | exact Hs].
    + intros [Hn Hs]. eexists. apply detectDoorbell_rule; [exact He | |].
      * rewrite Ha. lia.
      * rewrite Hw. exact Hs.
  - intros c Hc. destruct (detectDoorbell_Some _ _ _ _ Hc) as (_ & _ & _ & ->).
    cbn [c_type c_confidence]. split; [reflexivity |].
    apply Q.min_compat; [| reflexivity]. rewrite Hw. reflexivity.
Qed.

(** A chime at full scale: two active ranges, [weightedScore] 357. *)
Lemma doorbell_rule_witness :
  (exists c, detectDoorbell allEnabled (chime 255) 48000 = Some c)
  /\ option_map c_type (detectDoorbell allEnabled (chime 255) 48000) = Some doorbell.
Proof.
  split.
  - apply (proj1 (proj2 (proj2 (proj2 (proj2 (doorbell_rule allEnabled (chime 255) 48000)))))
             eq_refl).
    split; by_running.
  - destruct (detectDoorbell allEnabled (chime 255) 48000) as [c |] eqn:E.
    + simpl. f_equal.
      exact (proj1 (proj2 (proj2 (proj2 (proj2 (proj2
               (doorbell_rule allEnabled (chime 255) 48000))))) c E)).
    + vm_compute in E. discriminate E.
Defined.

(** ** detectFireAlarm against the band rule (claim C2) *)

Lemma window_step_fold data (l : list Z) :
  forall w : Window,
    (0 <= wPeak w)%Z ->
    wPeak (fold_left (window_step data) l w) = Z.max (wPeak w) (Spec.peakOver data l)
    /\ wSum (fold_left (window_step data) l w) = (wSum w + Spec.sumOver data l)%Z
    /\ wCount (fold_left (window_step data) l w) = (wCount w + Z.of_nat (length l))%Z.
Proof.
  induction l as [| i l IH]; intros w Hw.
  - unfold Spec.peakOver, Spec.sumOver. simpl. repeat split; lia.
  - cbn [fold_left].
    destruct (IH (window_step data w i)) as (Hp & Hs & Hc);
      [cbn [window_step wPeak]; lia |].
    rewrite Hp, Hs, Hc. cbn [window_step wPeak wSum wCount].
    unfold Spec.peakOver, Spec.sumOver. cbn [map fold_right length].
    repeat split; lia.
Qed.

(** The two ways of writing the bin of a frequency agree. *)
Lemma binOf_getFrequencyBin data sr freq :
  Spec.binOf data sr freq = getFrequencyBin (len data) (sr / 2) freq.
Proof.
  unfold Spec.binOf, getFrequencyBin, Math_round.
  apply Qfloor_comp. apply Qplus_comp; [| reflexivity].
  destruct (Qeq_dec sr 0) as [Hz | Hnz].
  - rewrite Hz. unfold Qdiv. change (/ 0) with 0. change (/ (0 * / 2)) with 0.
    rewrite !Qmult_0_r. reflexivity.
  - field. exact Hnz.
Qed.

Lemma scanWindow_spec data sr freq half :
  let w := scanWindow data (getFrequencyBin (len data) (sr / 2) freq) half in
  wPeak w = Spec.peakOver data (Spec.binWindow data sr freq half)
  /\ windowAvg w = Spec.avgOver data (Spec.binWindow data sr freq half).
Proof.
  cbv zeta. unfold scanWindow, Spec.binWindow. rewrite binOf_getFrequencyBin.
  set (l := indices _ _).
  destruct (window_step_fold data l {| wPeak := 0; wSum := 0; wCount := 0 |})
    as (Hp & Hs & Hc); [simpl; lia |].
  cbn [wPeak wSum wCount] in Hp, Hs, Hc.
  unfold windowAvg, Spec.avgOver. rewrite Hp, Hs, Hc.
  pose proof (peakOver_nonneg data l).
  split; [lia |].
  destruct l as [| i l]; [reflexivity |].
  replace (0 <? 0 + Z.of_nat (length (i :: l)))%Z with true
    by (symmetry; apply Z.ltb_lt; simpl; lia).
  reflexivity.
Qed.

Lemma detectFireAlarm_Some en data sr c :
  detectFireAlarm en data sr = Some c ->
  es_fire en = true
  /\ (120 < wPeak (fireFundamental data sr))%Z
  /\ 40 < windowAvg (fireFundamental data sr)
  /\ (60 < wPeak (fireHarmonic data sr))%Z
  /\ c = {| c_type := fire;
            c_confidence :=
              Qmin (fireConfidence (wPeak (fireFundamental data sr))
                      (windowAvg (fireFundamental data sr))
                      (wPeak (fireHarmonic data sr))) 0.98;
            c_frequency := targetFreq;
            c_amplitude := wPeak (fireFundamental data sr) |}.
Proof.
  unfold detectFireAlarm.
  destruct (es_fire en); [| discriminate]. cbn [negb]. cbv zeta.
  destruct (120 <? wPeak (fireFundamental data sr))%Z eqn:E1; [| discriminate].
  destruct (Qgtb (windowAvg (fireFundamental data sr)) 40) eqn:E2; [| discriminate].
  destruct (60 <? wPeak (fireHarmonic data sr))%Z eqn:E3; [| discriminate].
  cbn [andb]. intros [= <-].
  apply Z.ltb_lt in E1. apply Qgtb_true in E2. apply Z.ltb_lt in E3. auto.
Qed.

Lemma detectFireAlarm_rule en data sr :
  es_fire en = true ->
  (120 < wPeak (fireFundamental data sr))%Z ->
  40 < windowAvg (fireFundamental data sr) ->
  (60 < wPeak (fireHarmonic data sr))%Z ->
  exists c, detectFireAlarm en data sr = Some c.
Proof.
  intros He H1 H2 H3. unfold detectFireAlarm. rewrite He. cbn [negb]. cbv zeta.
  rewrite (proj2 (Z.ltb_lt _ _) H1), (proj2 (Qgtb_true _ _) H2), (proj2 (Z.ltb_lt _ _) H3).
  eexists. reflexivity.
Qed.

(** C2, with the bands as the source takes them.  The fundamental band
    of [detectFireAlarm] is the 8 bins on each side of the bin of 3100 Hz
    and its harmonic band the 6 bins on each side of the bin of 6200 Hz,
    both cut to the spectrum.  With the fire alarm enabled a candidate is
    returned exactly when the fundamental band has a peak above 120 and an
    average above 40 and the harmonic band a peak above 60, and its
    confidence is [0.5*min(fundPeak/200,1) + 0.3*min(harmPeak/120,1) +
    0.2*min(fundAvg/80,1)] clamped to at most 0.98. *)
Theorem fire_rule (en : EnabledSounds) (data : Uint8Array) (sr : Q) :
  (wPeak (fireFundamental data sr) = Spec.peakOver data (Spec.binWindow data sr 3100 8)
   /\ windowAvg (fireFundamental data sr)
      = Spec.avgOver data (Spec.binWindow data sr 3100 8)
   /\ wPeak (fireHarmonic data sr) = Spec.peakOver data (Spec.binWindow data sr 6200 6))
  /\ (es_fire en = true ->
      ((exists c, detectFireAlarm en data sr = Some c)
       <-> Spec.fireRule data (Spec.binWindow data sr 3100 8) (Spec.binWindow data sr 6200 6)))
  /\ (forall c, detectFireAlarm en data sr = Some c ->
        c_type c = fire
        /\ c_confidence c
           == Spec.fireConfidence data (Spec.binWindow data sr 3100 8)
                (Spec.binWindow data sr 6200 6)).
Proof.
  destruct (scanWindow_spec data sr targetFreq 8) as [Hfp Hfa].
  destruct (scanWindow_spec data sr harmonicFreq 6) as [Hhp _].
  fold (fireFundamental data sr) in Hfp, Hfa. fold (fireHarmonic data sr) in Hhp.
  change targetFreq with 3100 in Hfp, Hfa. change harmonicFreq with 6200 in Hhp.
  split; [auto |]. split.
  - intros He. unfold Spec.fireRule. rewrite <- Hfp, <- Hfa, <- Hhp. split.
    + intros [c Hc]. destruct (detectFireAlarm_Some _ _ _ _ Hc) as (_ & H1 & H2 & H3 & _).
      auto.
    + intros (H1 & H2 & H3). apply detectFireAlarm_rule; assumption.
  - intros c Hc. destruct (detectFireAlarm_Some _ _ _ _ Hc) as (_ & _ & _ & _ & ->).
    cbn [c_type c_confidence]. split; [reflexivity |].
    unfold Spec.fireConfidence, fireConfidence. rewrite <- Hfp, <- Hfa, <- Hhp.
    apply Q.min_compat; [| reflexivity]. lra.
Qed.

(** The fire tone at 48 kHz. *)
Lemma fire_rule_witness :
  (exists c, detectFireAlarm allEnabled fireTone 48000 = Some c)
  /\ Spec.fireConfidence fireTone (Spec.binWindow fireTone 48000 3100 8)
       (Spec.binWindow fireTone 48000 6200 6) == 0.98.
Proof.
  split.
  - apply (proj1 (proj2 (fire_rule allEnabled fireTone 48000)) eq_refl).
    unfold Spec.fireRule. split; [| split]; by_running.
  - by_running.
Defined.

(** C2 as the specification words it fails in both directions.  Energy
    inside 3100 ± 150 Hz but more than 8 bins away from the bin of 3100 Hz
    satisfies the rule over the bands in Hz, and no candidate is returned;
    a tone 17 bins wide satisfies the source's rule and is returned, while
    its average over 3100 ± 150 Hz is below 40. *)
Lemma fire_band_counterexample :
  (Spec.fireRule bandTone (Spec.hzBand bandTone 48000 3100 150)
     (Spec.hzBand bandTone 48000 6200 115)
   /\ detectFireAlarm allEnabled bandTone 48000 = None)
  /\ (Spec.avgOver fireTone (Spec.hzBand fireTone 48000 3100 150) < 40
      /\ detectFireAlarm allEnabled fireTone 48000 = Some fireToneCandidate).
Proof.
  split; split.
  - unfold Spec.fireRule. split; [| split]; by_running.
  - by_running.
  - by_running.
  - by_running.
Qed.

(** ** Where a loop that keeps the first largest ends *)

Lemma bestOf_nonneg {A : Type} (value : A -> Z) (l : list A) : (0 <= bestOf value l)%Z.
Proof. unfold bestOf. induction l as [| a l IH]; simpl; lia. Qed.

Lemma bestOf_upper {A : Type} (value : A -> Z) (l : list A) (a : A) :
  In a l -> (value a <= bestOf value l)%Z.
Proof.
  unfold bestOf. induction l as [| b l IH]; simpl; [tauto |].
  intros [-> | Hin]; [lia | specialize (IH Hin); lia].
Qed.

Lemma bestOf_cons {A : Type} (value : A -> Z) (a : A) (l : list A) :
  bestOf value (a :: l) = Z.max (value a) (bestOf value l).
Proof. reflexivity. Qed.

Section FirstMaxFacts.

Context {A B : Type} (value : A -> Z) (payload : A -> B).

(** The loop leaves what it had when nothing is larger; otherwise it
    ends on the largest value and on the first element that has it. *)
Lemma keep_fold (l : list A) :
  forall acc : Z * B,
    (0 <= fst acc)%Z ->
    (bestOf value l <= fst acc)%Z /\ fold_left (keep value payload) l acc = acc
    \/ (fst acc < bestOf value l)%Z
       /\ exists a, find (fun a => (value a =? bestOf value l)%Z) l = Some a
                    /\ fold_left (keep value payload) l acc
                       = (bestOf value l, payload a).
Proof.
  induction l as [| a l IH]; intros acc Hacc.
  - left. split; [exact Hacc | reflexivity].
  - cbn [fold_left find]. rewrite bestOf_cons.
    pose proof (bestOf_nonneg value l) as Hl.
    unfold keep at 2 4. destruct (fst acc <? value a)%Z eqn:E.
    + apply Z.ltb_lt in E. right.
      destruct (IH (value a, payload a)) as [[Hle Heq] | [Hlt (b & Hb & Heq)]];
        cbn [fst] in *; try lia.
      * split; [lia |]. exists a.
        replace (Z.max (value a) (bestOf value l)) with (value a) by lia.
        rewrite Z.eqb_refl. split; [reflexivity | exact Heq].
      * split; [lia |]. exists b.
        replace (Z.max (value a) (bestOf value l)) with (bestOf value l) by lia.
        replace (value a =? bestOf value l)%Z with false
          by (symmetry; apply Z.eqb_neq; lia).
        split; [exact Hb | exact Heq].
    + apply Z.ltb_ge in E.
      destruct (IH acc Hacc) as [[Hle Heq] | [Hlt (b & Hb & Heq)]].
      * left. split; [lia | exact Heq].
      * right. split; [lia |]. exists b.
        replace (Z.max (value a) (bestOf value l)) with (bestOf value l) by lia.
        replace (value a =? bestOf value l)%Z with false
          by (symmetry; apply Z.eqb_neq; lia).
        split; [exact Hb | exact Heq].
Qed.

End FirstMaxFacts.

(** The range loop keeps the first largest magnitude and its frequency. *)
Lemma range_step_keep data nyquist bufferLength (l : list Z) :
  forall s : RangeScan,
    (rPeak (fold_left (range_step data nyquist bufferLength) l s),
     rPeakFreq (fold_left (range_step data nyquist bufferLength) l s))
    = fold_left (keep (get data) (fun i => inject_Z i * nyquist / inject_Z bufferLength))
        l (rPeak s, rPeakFreq s).
Proof.
  induction l as [| i l IH]; intros s; [reflexivity |].
  cbn [fold_left]. rewrite IH. f_equal.
  unfold keep, range_step. cbn [fst snd rPeak rPeakFreq].
  destruct (rPeak s <? get data i)%Z; reflexivity.
Qed.

Lemma binFrequency_source data sr (i : Z) :
  inject_Z i * (sr / 2) / inject_Z (len data) == Spec.binFrequency (len data) sr i.
Proof.
  unfold Spec.binFrequency.
  destruct (Qeq_dec (inject_Z (len data)) 0) as [Hz | Hnz].
  - rewrite Hz. unfold Qdiv. change (/ 0) with 0. change (/ (2 * 0)) with 0.
    rewrite !Qmult_0_r. reflexivity.
  - field. exact Hnz.
Qed.

(** The frequency a range scan reports. *)
Lemma scanRange_frequency data sr lo hi :
  rPeak (scanRange data sr lo hi) = Spec.peakOver data (Spec.binsBetween data sr lo hi)
  /\ rPeakFreq (scanRange data sr lo hi)
     == Spec.peakFrequency data sr (Spec.binsBetween data sr lo hi).
Proof.
  unfold scanRange. change (indices _ _) with (Spec.binsBetween data sr lo hi).
  set (l := Spec.binsBetween data sr lo hi).
  pose proof (range_step_keep data (sr / 2) (len data) l
                {| rPeak := 0; rSum := 0; rCount := 0; rPeakFreq := 0 |}) as Hk.
  cbn [rPeak rPeakFreq] in Hk.
  unfold Spec.peakFrequency, Spec.firstAt.
  change (Spec.peakOver data l) with (bestOf (get data) l).
  destruct (keep_fold (get data) (fun i => inject_Z i * (sr / 2) / inject_Z (len data))
              l (0%Z, 0)) as [[Hle Heq] | [Hlt (b & Hb & Heq)]]; [simpl; lia | |];
    rewrite Heq in Hk; injection Hk as Hp Hf; rewrite Hp, Hf; cbn [fst] in *.
  - pose proof (bestOf_nonneg (get data) l).
    replace (bestOf (get data) l) with 0%Z by lia. split; reflexivity.
  - rewrite (proj2 (Z.ltb_lt _ _) Hlt), Hb. split; [reflexivity |].
    apply binFrequency_source.
Qed.

(** ** What a candidate reports (claim C5) *)

(** The [forEach] of [detectDoorbell] keeps the first largest peak among
    the active ranges, with the frequency that range's scan reported. *)
Lemma doorbell_range_keep data sr (rs : list Range) :
  forall acc,
    (maxAmplitude (fold_left (doorbell_range data sr) rs acc),
     dominantFreq (fold_left (doorbell_range data sr) rs acc))
    = fold_left (keep (Spec.rangePeak data sr)
                      (fun r => rPeakFreq (scanRange data sr (min r) (max r))))
        (List.filter (Spec.active data sr) rs)
        (maxAmplitude acc, dominantFreq acc).
Proof.
  induction rs as [| r rs IH]; intros acc; [reflexivity |].
  cbn [fold_left List.filter]. rewrite IH, doorbell_range_spec.
  destruct (Spec.active data sr r); [| reflexivity].
  cbn [fold_left]. f_equal. unfold keep, Spec.rangePeak.
  cbn [fst snd maxAmplitude dominantFreq].
  destruct (maxAmplitude acc <? Spec.peakOver data (Spec.rangeBins data sr r))%Z;
    reflexivity.
Qed.

Lemma detectBabyCrying_Some en data sr c :
  detectBabyCrying en data sr = Some c ->
  c_type c = baby
  /\ c_frequency c = rfrequency (analyzeRange data sr 250 600)
  /\ c_amplitude c = peak (analyzeRange data sr 250 600).
Proof.
  unfold detectBabyCrying.
  destruct (negb (es_baby en)); [discriminate |].
  cbv zeta.
  match goal with |- context [if ?b then _ else _] => destruct b end;
    [intros [= <-]; auto | discriminate].
Qed.

(** C5, as the source reports.  A fire candidate reports 3100 Hz and the
    peak of the fundamental band, and a baby candidate the peak of the
    250-600 Hz range with the frequency of the first bin that reaches it,
    whatever the harmonic bands hold.  A doorbell candidate reports the
    largest peak among the active ranges, with the frequency of the first
    bin that reaches that peak in the first active range that has it. *)
Theorem reported_peak (en : EnabledSounds) (data : Uint8Array) (sr : Q) (c : Candidate) :
  (detectFireAlarm en data sr = Some c ->
     c_frequency c = 3100
     /\ c_amplitude c = Spec.peakOver data (Spec.binWindow data sr 3100 8))
  /\ (detectBabyCrying en data sr = Some c ->
     c_amplitude c = Spec.peakOver data (Spec.binsBetween data sr 250 600)
     /\ c_frequency c == Spec.peakFrequency data sr (Spec.binsBetween data sr 250 600))
  /\ (detectDoorbell en data sr = Some c ->
     exists r,
       find (fun r' => (Spec.rangePeak data sr r' =? c_amplitude c)%Z)
            (Spec.activeRanges data sr) = Some r
       /\ (forall r', In r' (Spec.activeRanges data sr) ->
                      (Spec.rangePeak data sr r' <= Spec.rangePeak data sr r)%Z)
       /\ c_amplitude c = Spec.rangePeak data sr r
       /\ c_frequency c == Spec.peakFrequency data sr (Spec.rangeBins data sr r)).
Proof.
  split; [| split].
  - intros Hc. destruct (detectFireAlarm_Some _ _ _ _ Hc) as (_ & _ & _ & _ & ->).
    cbn [c_frequency c_amplitude]. split; [reflexivity |].
    exact (proj1 (scanWindow_spec data sr targetFreq 8)).
  - intros Hc. destruct (detectBabyCrying_Some _ _ _ _ Hc) as (_ & -> & ->).
    unfold analyzeRange. cbn [rfrequency peak].
    exact (scanRange_frequency data sr 250 600).
  - intros Hc. destruct (detectDoorbell_Some _ _ _ _ Hc) as (_ & Hn & _ & ->).
    cbn [c_frequency c_amplitude].
    pose proof (doorbell_range_keep data sr ranges
                  {| totalScore := 0; weightedScore := 0; activeRanges := 0;
                     dominantFreq := 0; maxAmplitude := 0 |}) as Hk.
    fold (doorbellScan data sr) in Hk. cbn [maxAmplitude dominantFreq] in Hk.
    fold (Spec.activeRanges data sr) in Hk.
    rewrite (proj1 (doorbellScan_spec data sr)) in Hn.
    destruct (keep_fold (Spec.rangePeak data sr)
                (fun r => rPeakFreq (scanRange data sr (min r) (max r)))
                (Spec.activeRanges data sr) (0%Z, 0))
      as [[Hle Heq] | [Hlt (r & Hr & Heq)]]; [simpl; lia | |].
    + exfalso. cbn [fst] in Hle.
      destruct (Spec.activeRanges data sr) as [| r rs] eqn:Ea; [simpl in Hn; lia |].
      assert (Hin : In r (Spec.activeRanges data sr)) by (rewrite Ea; left; reflexivity).
      unfold Spec.activeRanges in Hin. apply filter_In in Hin. destruct Hin as [_ Hact].
      unfold Spec.active in Hact. apply andb_true_iff in Hact. destruct Hact as [Hp _].
      apply Z.ltb_lt in Hp. fold (Spec.rangePeak data sr r) in Hp.
      pose proof (bestOf_upper (Spec.rangePeak data sr) (r :: rs) r (or_introl eq_refl)).
      lia.
    + rewrite Heq in Hk. injection Hk as Hm Hd. rewrite Hm, Hd.
      destruct (find_some _ _ Hr) as [Hin Hbest]. apply Z.eqb_eq in Hbest.
      exists r. split; [exact Hr |]. split.
      * intros r' Hin'. rewrite Hbest. apply bestOf_upper, Hin'.
      * split; [symmetry; exact Hbest |].
        exact (proj2 (scanRange_frequency data sr (min r) (max r))).
Qed.

(** The weak tone under a full-scale harmonic. *)
Lemma reported_peak_witness :
  option_map (fun c => (c_frequency c, c_amplitude c))
    (detectFireAlarm allEnabled strongHarmonic 48000)
  = Some (3100, Spec.peakOver strongHarmonic (Spec.binWindow strongHarmonic 48000 3100 8)).
Proof.
  destruct (detectFireAlarm allEnabled strongHarmonic 48000) as [c |] eqn:E.
  - destruct (proj1 (reported_peak allEnabled strongHarmonic 48000 c) E) as [Hf Ha].
    simpl. rewrite Hf, Ha. reflexivity.
  - vm_compute in E. discriminate E.
Defined.

(** C5 as the specification words it fails on a fire candidate whose
    harmonic band is the louder one: the harmonic band peaks at 255, the
    fundamental band at 130, and the candidate reports 3100 Hz and 130. *)
Lemma reported_peak_counterexample :
  wPeak (fireHarmonic strongHarmonic 48000) = 255%Z
  /\ wPeak (fireFundamental strongHarmonic 48000) = 130%Z
  /\ option_map (fun c => (c_frequency c, c_amplitude c))
       (detectFireAlarm allEnabled strongHarmonic 48000)
     = Some (3100, 130%Z).
Proof. split; [| split]; by_running. Qed.

(** ** The smoothed level (claim C4) *)




Lemma smooth_unit (T L : Q) :
  0 <= T <= 1 -> 0 <= L <= 1 -> 0 <= smooth T L <= 1.
Proof. unfold smooth. intros [H1 H2] [H3 H4]. split; lra. Qed.








Lemma sqrt53_nonneg (x : Q) : 0 <= sqrt53 x.
Proof.
  unfold sqrt53. apply Qle_shift_div_l; [reflexivity |].
  rewrite Qmult_0_l. change 0 with (inject_Z 0). rewrite <- Zle_Qle.
  apply Z.sqrt_nonneg.
Qed.

Section Level.

Variable Math_sqrt : Q -> Q.
Hypothesis Math_sqrt_nonneg : forall x, 0 <= Math_sqrt x.

Lemma targetLevel_unit (timeData : Uint8Array) :
  0 <= targetLevel Math_sqrt timeData <= 1.
Proof using Math_sqrt_nonneg.
  unfold targetLevel, rms. split; [| apply Q.le_min_r].
  apply Q.min_glb; [| discriminate].
  pose proof (Math_sqrt_nonneg (sumSquares timeData / inject_Z (len timeData))). lra.
Qed.

Lemma analyzeAudio_level isListening en frame now h :
  smoothedLevelRef (fst (analyzeAudio Math_sqrt isListening en frame now h))
  = match analyserRef h, audioContextRef h with
    | Some _, Some _ => smooth (targetLevel Math_sqrt (timeData frame)) (smoothedLevelRef h)
    | _, _ => smoothedLevelRef h
    end.
Proof using Type.
  unfold analyzeAudio.
  destruct (analyserRef h); [destruct (audioContextRef h) |]; reflexivity.
Qed.

Lemma analyzeAudio_level_unit isListening en frame now h :
  0 <= smoothedLevelRef h <= 1 ->
  0 <= smoothedLevelRef (fst (analyzeAudio Math_sqrt isListening en frame now h)) <= 1.
Proof using Math_sqrt_nonneg.
  intros H. rewrite analyzeAudio_level.
  destruct (analyserRef h); [destruct (audioContextRef h) |]; try exact H.
  apply smooth_unit; [apply targetLevel_unit | exact H].
Qed.



End Level.

(** ** Stopping and starting again (claim C8) *)

Lemma stopListening_resets (h : Hook) :
  smoothedLevelRef (stopListening h) = 0
  /\ audioLevel (stopListening h) = 0
  /\ analyserRef (stopListening h) = None
  /\ mediaStreamRef (stopListening h) = false
  /\ hasPermission (stopListening h) = false
  /\ animationFrameRef (stopListening h) = false.
Proof. repeat split. Qed.

(** A start that goes through: what the first cycle finds. *)
Lemma prepareListening_true (b : Browser) (h h' : Hook) :
  prepareListening b h = (h', true) ->
  lastDetectionRef h' = ∅
  /\ frequencyHistoryRef h' = []
  /\ smoothedLevelRef h' = smoothedLevelRef h
  /\ analyserRef h' = Some {| fftSize := 16384 |}
  /\ exists audioContext,
       newAudioContext b = Some audioContext
       /\ audioContextRef h' = Some (resume audioContext).
Proof.
  unfold prepareListening.
  set (r1 := if hasPermission h then (h, true) else requestPermission b h).
  assert (Hl : smoothedLevelRef (fst r1) = smoothedLevelRef h).
  { unfold r1, requestPermission.
    destruct (hasPermission h); [reflexivity |].
    destruct (platformIsWeb b); [| reflexivity].
    destruct (getUserMedia b); reflexivity. }
  destruct (snd r1); cbn [negb]; [| discriminate].
  unfold initializeAudioContext.
  destruct (mediaStreamRef (fst r1)); cbn [negb fst snd]; [| discriminate].
  destruct (newAudioContext b) as [audioContext |]; cbn [negb fst snd]; [| discriminate].
  intros [= <-]. cbn. rewrite Hl. repeat split. exists audioContext. split; reflexivity.
Qed.

(** After a stop the start goes through when the browser grants the
    microphone and opens a context. *)
Lemma prepareListening_after_stop (b : Browser) (h : Hook) audioContext :
  platformIsWeb b = true ->
  getUserMedia b = StreamGranted ->
  newAudioContext b = Some audioContext ->
  snd (prepareListening b (stopListening h)) = true.
Proof.
  intros Hw Hg Hn. unfold prepareListening, requestPermission, initializeAudioContext.
  cbn [stopListening hasPermission]. rewrite Hw, Hg. cbn. rewrite Hn. reflexivity.
Qed.

Lemma sampleRate_resume (c : AudioContext) : sampleRate (resume c) = sampleRate c.
Proof. unfold resume. destruct (state c); reflexivity. Qed.

(** C8.  [stopListening] zeroes the smoothed level and the published
    level, and a [startListening] that goes through empties
    [lastDetectionRef] and the frequency history before its first cycle, so
    that the session starts with no recorded time for any type and the
    level at zero.  Hence when a cycle at [t0] sent the event of a
    candidate, and the session is stopped and started again on a context of
    the same sample rate, a cycle on the same frame at any later [t1] sends
    that candidate's event again, however close [t1] is to [t0] (clock
    readings are not negative). *)
Theorem restart_fresh (Math_sqrt : Q -> Q) (b : Browser) (h : Hook) :
  (smoothedLevelRef (stopListening h) = 0 /\ audioLevel (stopListening h) = 0)
  /\ (forall h', prepareListening b (stopListening h) = (h', true) ->
        lastDetectionRef h' = ∅
        /\ (forall k, lastDetectionRef h' !! type_key k = None)
        /\ smoothedLevelRef h' = 0
        /\ frequencyHistoryRef h' = [])
  /\ (forall k isListening en frame t0 t1 analyser audioContext audioContext' d,
        analyserRef h = Some analyser ->
        audioContextRef h = Some audioContext ->
        (0 <= lastDetectionOf (lastDetectionRef h) k)%Z ->
        classify k en (frequencyData frame) (sampleRate audioContext) = Some d ->
        eventsOfType k (snd (analyzeAudio Math_sqrt isListening en frame t0 h))
          = [eventOf t0 d] ->
        (t0 <= t1)%Z ->
        platformIsWeb b = true ->
        getUserMedia b = StreamGranted ->
        newAudioContext b = Some audioContext' ->
        sampleRate audioContext' = sampleRate audioContext ->
        snd (prepareListening b
               (stopListening (fst (analyzeAudio Math_sqrt isListening en frame t0 h))))
          = true
        /\ eventsOfType k
             (snd (analyzeAudio Math_sqrt isListening en frame t1
                     (fst (prepareListening b
                             (stopListening
                                (fst (analyzeAudio Math_sqrt isListening en frame t0 h)))))))
           = [eventOf t1 d]).
Proof.
  split; [split; reflexivity |]. split.
  - intros h' Hp. destruct (prepareListening_true _ _ _ Hp) as (Hl & Hf & Hs & _).
    rewrite Hl, Hf, Hs.
    split; [reflexivity |]. split; [intros k; apply lookup_empty |].
    split; reflexivity.
  - intros k isListening en frame t0 t1 analyser audioContext audioContext' d
      Ha Hc Hlast Hd Hev Ht Hw Hg Hn Hsr.
    set (h1 := fst (analyzeAudio Math_sqrt isListening en frame t0 h)).
    pose proof (prepareListening_after_stop b h1 audioContext' Hw Hg Hn) as Hok.
    split; [exact Hok |].
    destruct (prepareListening b (stopListening h1)) as [h' ok] eqn:Hp.
    cbn [snd] in Hok. subst ok. cbn [fst].
    destruct (prepareListening_true _ _ _ Hp) as (Hl & _ & _ & Ha' & c0 & Hn' & Hc').
    rewrite Hn in Hn'. injection Hn' as <-.
    rewrite (proj1 (analyzeAudio_type Math_sqrt k _ _ _ _ _ _ _ Ha' Hc')).
    rewrite sampleRate_resume, Hsr, Hd, Hl. cbn [gated].
    rewrite (proj1 (analyzeAudio_type Math_sqrt k _ _ _ _ _ _ _ Ha Hc)), Hd in Hev.
    cbn [gated] in Hev.
    destruct (gateOpen (lastDetectionRef h) t0 d) eqn:Eg; [| discriminate Hev].
    apply gateOpen_true in Eg. destruct Eg as [Hconf Hcool].
    rewrite (classify_type _ _ _ _ _ Hd) in Hconf, Hcool.
    replace (gateOpen ∅ t1 d) with true; [reflexivity |].
    symmetry. apply gateOpen_true. rewrite (classify_type _ _ _ _ _ Hd).
    split; [exact Hconf |]. rewrite lastDetectionOf_empty. lia.
Qed.

(** The fire tone at [someNow], a stop, a start, and the tone again 1 ms later. *)
Lemma restart_fresh_witness :
  snd (prepareListening grantingBrowser
         (stopListening (fst (analyzeAudio sqrt53 true allEnabled fireFrame someNow liveHook))))
    = true
  /\ eventsOfType fire
       (snd (analyzeAudio sqrt53 true allEnabled fireFrame (someNow + 1)
               (fst (prepareListening grantingBrowser
                       (stopListening
                          (fst (analyzeAudio sqrt53 true allEnabled fireFrame someNow
                                  liveHook)))))))
     = [eventOf (someNow + 1) fireToneCandidate].
Proof.
  apply (proj2 (proj2 (restart_fresh sqrt53 grantingBrowser liveHook))
           fire true allEnabled fireFrame someNow (someNow + 1)%Z
           {| fftSize := 16384 |} {| sampleRate := 48000; state := running |}
           {| sampleRate := 48000; state := suspended |} fireToneCandidate);
    first [reflexivity | by_running].
Defined.

(** * More of the hook *)

(** ** detectBabyCrying against the harmonic rule *)

Lemma analyzeRange_spec data sr lo hi :
  peak (analyzeRange data sr lo hi) = Spec.peakOver data (Spec.binsBetween data sr lo hi)
  /\ avg (analyzeRange data sr lo hi) = Spec.avgOver data (Spec.binsBetween data sr lo hi).
Proof.
  unfold analyzeRange. cbn [peak avg]. split.
  - exact (proj1 (scanRange_frequency data sr lo hi)).
  - exact (rangeAvg_spec data sr {| min := lo; max := hi; weight := 0 |}).
Qed.

Lemma third_harmonic_threshold (p : Z) :
  Qgtb (inject_Z p) (inject_Z 45 * 0.8) = (36 <? p)%Z.
Proof.
  rewrite (Qgtb_compat _ (inject_Z p) _ (inject_Z 36)); [| reflexivity | reflexivity].
  destruct (36 <? p)%Z eqn:E.
  - apply Qgtb_true. rewrite <- Zlt_Qlt. apply Z.ltb_lt, E.
  - apply Qgtb_false. rewrite <- Zle_Qle. apply Z.ltb_ge, E.
Qed.

(** What [detectBabyCrying] tests and returns, over the peaks and the
    average of its four ranges. *)
Lemma detectBabyCrying_cases en data sr :
  detectBabyCrying en data sr =
    if negb (es_baby en) then None
    else if (80 <? peak (analyzeRange data sr 250 600))%Z
            && Qgtb (avg (analyzeRange data sr 250 600)) 35
            && ((45 <? peak (analyzeRange data sr 800 1400))%Z
                || (45 <? peak (analyzeRange data sr 1600 2800))%Z
                || (36 <? peak (analyzeRange data sr 3000 4500))%Z)
         then Some {| c_type := baby;
                      c_confidence :=
                        Qmin (babyConfidence (analyzeRange data sr 250 600)
                                (analyzeRange data sr 800 1400)
                                (analyzeRange data sr 1600 2800)
                                (analyzeRange data sr 3000 4500)) 0.92;
                      c_frequency := rfrequency (analyzeRange data sr 250 600);
                      c_amplitude := peak (analyzeRange data sr 250 600) |}
         else None.
Proof.
  unfold detectBabyCrying. cbv zeta. rewrite third_harmonic_threshold. reflexivity.
Qed.

(** X1.  With the baby detector enabled, [detectBabyCrying] returns a
    candidate exactly when the 250-600 Hz range has a peak above 80 and an
    average above 35 and one of the harmonic ranges is loud enough: a peak
    above 45 in 800-1400 Hz or in 1600-2800 Hz, or above 36 in 3000-4500 Hz.
    Its confidence is [0.4*min(fundPeak/150,1) + 0.4*min(sum of the three
    harmonic peaks/200,1) + 0.2*min(fundAvg/70,1)], at most 0.92. *)
Theorem baby_rule (en : EnabledSounds) (data : Uint8Array) (sr : Q) :
  (es_baby en = true ->
   ((exists c, detectBabyCrying en data sr = Some c) <-> BabySpec.rule data sr))
  /\ (forall c, detectBabyCrying en data sr = Some c ->
        c_type c = baby /\ c_confidence c == BabySpec.confidence data sr).
Proof.
  destruct (analyzeRange_spec data sr 250 600) as [Hp0 Ha0].
  destruct (analyzeRange_spec data sr 800 1400) as [Hp1 _].
  destruct (analyzeRange_spec data sr 1600 2800) as [Hp2 _].
  destruct (analyzeRange_spec data sr 3000 4500) as [Hp3 _].
  rewrite detectBabyCrying_cases. unfold BabySpec.rule, BabySpec.confidence.
  rewrite <- Hp0, <- Ha0, <- Hp1, <- Hp2, <- Hp3.
  split.
  - intros ->. cbn [negb].
    destruct (80 <? peak (analyzeRange data sr 250 600))%Z eqn:E0;
      [apply Z.ltb_lt in E0 | apply Z.ltb_ge in E0];
      (destruct (Qgtb (avg (analyzeRange data sr 250 600)) 35) eqn:Ea;
       [apply Qgtb_true in Ea | apply Qgtb_false in Ea]);
      (destruct (45 <? peak (analyzeRange data sr 800 1400))%Z eqn:E1;
       [apply Z.ltb_lt in E1 | apply Z.ltb_ge in E1]);
      (destruct (45 <? peak (analyzeRange data sr 1600 2800))%Z eqn:E2;
       [apply Z.ltb_lt in E2 | apply Z.ltb_ge in E2]);
      (destruct (36 <? peak (analyzeRange data sr 3000 4500))%Z eqn:E3;
       [apply Z.ltb_lt in E3 | apply Z.ltb_ge in E3]);
      cbn [andb orb]; split;
      try (intros _; split; [exact E0 | split; [exact Ea | tauto]]);
      try (intros _; eexists; reflexivity);
      try (intros [c Hc]; discriminate Hc);
      try (intros (H0 & Ha' & H123); exfalso;
           first [lia | apply (Qlt_not_le _ _ Ha'), Ea]).
  - intros c Hc.
    destruct (negb (es_baby en)); [discriminate |].
    match type of Hc with (if ?b then _ else _) = _ => destruct b end; [| discriminate].
    injection Hc as <-. cbn [c_type c_confidence]. split; [reflexivity |].
    apply Q.min_compat; [| reflexivity]. unfold babyConfidence. lra.
Qed.

(** A loud fundamental with a harmonic in 800-1400 Hz, everything else silent. *)
Lemma baby_rule_witness :
  exists c, detectBabyCrying allEnabled babyCry 48000 = Some c.
Proof.
  apply (proj1 (baby_rule allEnabled babyCry 48000) eq_refl).
  unfold BabySpec.rule. split; [| split; [| left]]; by_running.
Defined.

(** ** Magnitudes are bytes *)

Lemma byte_value_bounds (b : byte) : (0 <= byte_value b <= 255)%Z.
Proof.
  unfold byte_value. pose proof (Byte.to_N_bounded b) as H. lia.
Qed.

Lemma loudest_nonneg (a : Uint8Array) : (0 <= loudest a)%Z.
Proof. unfold loudest. induction a as [| b a IH]; simpl; lia. Qed.

Lemma loudest_upper (a : Uint8Array) (b : byte) : In b a -> (byte_value b <= loudest a)%Z.
Proof.
  unfold loudest. induction a as [| b' a IH]; simpl; [tauto |].
  intros [-> | Hin]; [lia | specialize (IH Hin); lia].
Qed.

Lemma get_bounds (a : Uint8Array) (i : Z) :
  (0 <= get a i <= 255)%Z /\ (get a i <= loudest a)%Z.
Proof.
  unfold get. pose proof (loudest_nonneg a).
  destruct (i <? 0)%Z; [lia |].
  destruct (nth_error a (Z.to_nat i)) as [b |] eqn:E; [| lia].
  split; [apply byte_value_bounds | apply loudest_upper, (nth_error_In _ _ E)].
Qed.

Lemma peakOver_bounds (a : Uint8Array) (l : list Z) :
  (Spec.peakOver a l <= 255)%Z /\ (Spec.peakOver a l <= loudest a)%Z.
Proof.
  unfold Spec.peakOver. pose proof (loudest_nonneg a).
  induction l as [| i l IH]; simpl; [lia |].
  pose proof (get_bounds a i). lia.
Qed.

(** ** Quiet spectra *)

Lemma detectFireAlarm_quiet en data sr :
  (loudest data <= 120)%Z -> detectFireAlarm en data sr = None.
Proof.
  intros H. destruct (detectFireAlarm en data sr) as [c |] eqn:E; [| reflexivity].
  destruct (detectFireAlarm_Some _ _ _ _ E) as (_ & Hp & _).
  unfold fireFundamental in Hp.
  rewrite (proj1 (scanWindow_spec data sr targetFreq 8)) in Hp.
  pose proof (peakOver_bounds data (Spec.binWindow data sr targetFreq 8)). lia.
Qed.

Lemma activeRanges_quiet data sr :
  (loudest data <= 65)%Z -> Spec.activeRanges data sr = [].
Proof.
  intros H. unfold Spec.activeRanges.
  assert (Hno : forall r, Spec.active data sr r = false).
  { intros r. unfold Spec.active.
    pose proof (peakOver_bounds data (Spec.rangeBins data sr r)).
    replace (65 <? Spec.peakOver data (Spec.rangeBins data sr r))%Z with false
      by (symmetry; apply Z.ltb_ge; lia).
    reflexivity. }
  induction ranges as [| r rs IH]; [reflexivity |].
  cbn [List.filter]. rewrite Hno. exact IH.
Qed.

Lemma detectDoorbell_quiet en data sr :
  (loudest data <= 65)%Z -> detectDoorbell en data sr = None.
Proof.
  intros H. destruct (detectDoorbell en data sr) as [c |] eqn:E; [| reflexivity].
  destruct (detectDoorbell_Some _ _ _ _ E) as (_ & Hn & _).
  rewrite (proj1 (doorbellScan_spec data sr)), (activeRanges_quiet data sr H) in Hn.
  simpl in Hn. lia.
Qed.

Lemma detectBabyCrying_quiet en data sr :
  (loudest data <= 80)%Z -> detectBabyCrying en data sr = None.
Proof.
  intros H. rewrite detectBabyCrying_cases.
  destruct (negb (es_baby en)); [reflexivity |].
  rewrite (proj1 (analyzeRange_spec data sr 250 600)).
  pose proof (peakOver_bounds data (Spec.binsBetween data sr 250 600)).
  replace (80 <? Spec.peakOver data (Spec.binsBetween data sr 250 600))%Z with false
    by (symmetry; apply Z.ltb_ge; lia).
  reflexivity.
Qed.

(** X2.  A spectrum without a magnitude above 120 gives no fire
    candidate, one without a magnitude above 65 no doorbell candidate and
    one without a magnitude above 80 no baby candidate, at any sample rate
    and under any mask.  So a cycle whose spectrum stays at or below 65
    sends no event and leaves the recorded times as they are. *)
Theorem quiet_spectrum (Math_sqrt : Q -> Q) (en : EnabledSounds) (sr : Q) :
  (forall data,
     ((loudest data <= 120)%Z -> detectFireAlarm en data sr = None)
     /\ ((loudest data <= 65)%Z -> detectDoorbell en data sr = None)
     /\ ((loudest data <= 80)%Z -> detectBabyCrying en data sr = None)
     /\ ((loudest data <= 65)%Z -> detections en data sr = []))
  /\ (forall isListening frame now h,
        (loudest (frequencyData frame) <= 65)%Z ->
        snd (analyzeAudio Math_sqrt isListening en frame now h) = []
        /\ lastDetectionRef (fst (analyzeAudio Math_sqrt isListening en frame now h))
           = lastDetectionRef h).
Proof.
  assert (Hd : forall data sr', (loudest data <= 65)%Z -> detections en data sr' = []).
  { intros data sr' H. rewrite detections_cases.
    rewrite detectFireAlarm_quiet, detectDoorbell_quiet, detectBabyCrying_quiet by lia.
    reflexivity. }
  split.
  - intros data. split; [apply detectFireAlarm_quiet |].
    split; [apply detectDoorbell_quiet |].
    split; [apply detectBabyCrying_quiet | apply Hd].
  - intros isListening frame now h H. unfold analyzeAudio.
    destruct (analyserRef h); [| split; reflexivity].
    destruct (audioContextRef h); [| split; reflexivity].
    cbn [fst snd lastDetectionRef]. rewrite (Hd _ _ H). split; reflexivity.
Qed.

(** Silence at 48 kHz, in a live session. *)
Lemma quiet_spectrum_witness :
  detections allEnabled silence 48000 = []
  /\ snd (analyzeAudio sqrt53 true allEnabled
            {| frequencyData := silence; timeData := quietTime |} someNow liveHook) = [].
Proof.
  destruct (quiet_spectrum sqrt53 allEnabled 48000) as [Hdata Hcycle].
  split.
  - apply (Hdata silence). by_running.
  - apply (Hcycle true {| frequencyData := silence; timeData := quietTime |} someNow liveHook).
    by_running.
Defined.

(** ** What a candidate can hold *)

(** The range a doorbell candidate reports from: an active range. *)
Lemma doorbell_dominant en data sr c :
  detectDoorbell en data sr = Some c ->
  exists r,
    In r ranges
    /\ Spec.active data sr r = true
    /\ c_amplitude c = Spec.rangePeak data sr r
    /\ c_frequency c = rPeakFreq (scanRange data sr (min r) (max r)).
Proof.
  intros Hc. destruct (detectDoorbell_Some _ _ _ _ Hc) as (_ & Hn & _ & ->).
  cbn [c_frequency c_amplitude].
  pose proof (doorbell_range_keep data sr ranges
                {| totalScore := 0; weightedScore := 0; activeRanges := 0;
                   dominantFreq := 0; maxAmplitude := 0 |}) as Hk.
  fold (doorbellScan data sr) in Hk. cbn [maxAmplitude dominantFreq] in Hk.
  fold (Spec.activeRanges data sr) in Hk.
  rewrite (proj1 (doorbellScan_spec data sr)) in Hn.
  assert (Hact : forall r, In r (Spec.activeRanges data sr) ->
                           In r ranges /\ Spec.active data sr r = true).
  { intros r Hin. unfold Spec.activeRanges in Hin. apply filter_In in Hin. exact Hin. }
  destruct (keep_fold (Spec.rangePeak data sr)
              (fun r => rPeakFreq (scanRange data sr (min r) (max r)))
              (Spec.activeRanges data sr) (0%Z, 0))
    as [[Hle Heq] | [Hlt (r & Hr & Heq)]]; [simpl; lia | |].
  - exfalso. cbn [fst] in Hle.
    destruct (Spec.activeRanges data sr) as [| r rs] eqn:Ea; [simpl in Hn; lia |].
    destruct (Hact r (or_introl eq_refl)) as [_ Hon].
    unfold Spec.active in Hon. apply andb_true_iff in Hon. destruct Hon as [Hp _].
    apply Z.ltb_lt in Hp. fold (Spec.rangePeak data sr r) in Hp.
    pose proof (bestOf_upper (Spec.rangePeak data sr) (r :: rs) r (or_introl eq_refl)).
    lia.
  - rewrite Heq in Hk. injection Hk as Hm Hd. rewrite Hm, Hd.
    destruct (find_some _ _ Hr) as [Hin Hbest]. apply Z.eqb_eq in Hbest.
    destruct (Hact r Hin) as [Hin' Hon].
    exists r. repeat split; [exact Hin' | exact Hon | symmetry; exact Hbest].
Qed.

Ltac clamp_above :=
  apply Q.min_glb_lt; [unfold Qdiv; cbn [Qinv Qnum Qden]; lra | reflexivity].

(** X3.  A candidate is never weak or out of scale.  A fire candidate
    has a confidence above 0.55 and an amplitude above 120, a doorbell
    candidate a confidence above 0.51 and an amplitude above 65, a baby
    candidate a confidence above 0.38 and an amplitude above 80; no
    confidence is above the ceiling of its type and no amplitude above
    255. *)
Theorem candidate_ranges (en : EnabledSounds) (data : Uint8Array) (sr : Q) (c : Candidate) :
  (detectFireAlarm en data sr = Some c ->
     0.55 < c_confidence c /\ c_confidence c <= 0.98
     /\ (120 < c_amplitude c)%Z /\ (c_amplitude c <= 255)%Z)
  /\ (detectDoorbell en data sr = Some c ->
     0.51 < c_confidence c /\ c_confidence c <= 0.95
     /\ (65 < c_amplitude c)%Z /\ (c_amplitude c <= 255)%Z)
  /\ (detectBabyCrying en data sr = Some c ->
     0.38 < c_confidence c /\ c_confidence c <= 0.92
     /\ (80 < c_amplitude c)%Z /\ (c_amplitude c <= 255)%Z).
Proof.
  split; [| split].
  - intros Hc. pose proof (detectFireAlarm_ceiling _ _ _ _ Hc) as Hceil.
    destruct (detectFireAlarm_Some _ _ _ _ Hc) as (_ & Hp & Ha & Hh & ->).
    cbn [c_confidence c_amplitude] in *.
    split; [| split; [exact Hceil | split; [exact Hp |]]].
    + unfold fireConfidence.
      rewrite Zlt_Qlt in Hp. rewrite Zlt_Qlt in Hh.
      set (P := inject_Z (wPeak (fireFundamental data sr))) in *.
      set (H := inject_Z (wPeak (fireHarmonic data sr))) in *.
      set (A := windowAvg (fireFundamental data sr)) in *.
      change (inject_Z 120) with 120 in Hp. change (inject_Z 60) with 60 in Hh.
      assert (H1 : 0.6 < Qmin (P / 200) 1) by clamp_above.
      assert (H2 : 0.5 < Qmin (H / 120) 1) by clamp_above.
      assert (H3 : 0.5 < Qmin (A / 80) 1) by clamp_above.
      apply Q.min_glb_lt; [lra | reflexivity].
    + unfold fireFundamental. rewrite (proj1 (scanWindow_spec data sr targetFreq 8)).
      apply peakOver_bounds.
  - intros Hc. pose proof (detectDoorbell_ceiling _ _ _ _ Hc) as Hceil.
    destruct (doorbell_dominant _ _ _ _ Hc) as (r & _ & Hon & Hamp & _).
    destruct (detectDoorbell_Some _ _ _ _ Hc) as (_ & _ & Hw & Hcand).
    split; [| split; [exact Hceil |]].
    + rewrite Hcand. cbn [c_confidence].
      set (W := weightedScore (doorbellScan data sr)) in *.
      apply Q.min_glb_lt; [unfold Qdiv; cbn [Qinv Qnum Qden]; lra | reflexivity].
    + rewrite Hamp. unfold Spec.rangePeak.
      unfold Spec.active in Hon. apply andb_true_iff in Hon. destruct Hon as [Hp _].
      apply Z.ltb_lt in Hp. split; [exact Hp | apply peakOver_bounds].
  - intros Hc. pose proof (detectBabyCrying_ceiling _ _ _ _ Hc) as Hceil.
    rewrite detectBabyCrying_cases in Hc.
    destruct (negb (es_baby en)); [discriminate |].
    destruct (80 <? peak (analyzeRange data sr 250 600))%Z eqn:E0; [| discriminate].
    destruct (Qgtb (avg (analyzeRange data sr 250 600)) 35) eqn:Ea; [| discriminate].
    cbn [andb] in Hc.
    match type of Hc with (if ?b then _ else _) = _ => destruct b eqn:Eh end;
      [| discriminate].
    injection Hc as <-. cbn [c_confidence c_amplitude] in *.
    apply Z.ltb_lt in E0. apply Qgtb_true in Ea.
    split; [| split; [exact Hceil | split; [exact E0 |]]].
    + unfold babyConfidence.
      assert (Hsum : (37 <= peak (analyzeRange data sr 800 1400)
                            + peak (analyzeRange data sr 1600 2800)
                            + peak (analyzeRange data sr 3000 4500))%Z).
      { rewrite (proj1 (analyzeRange_spec data sr 800 1400)) in *.
        rewrite (proj1 (analyzeRange_spec data sr 1600 2800)) in *.
        rewrite (proj1 (analyzeRange_spec data sr 3000 4500)) in *.
        pose proof (peakOver_nonneg data (Spec.binsBetween data sr 800 1400)).
        pose proof (peakOver_nonneg data (Spec.binsBetween data sr 1600 2800)).
        pose proof (peakOver_nonneg data (Spec.binsBetween data sr 3000 4500)).
        apply orb_true_iff in Eh. destruct Eh as [Eh | Eh];
          [apply orb_true_iff in Eh; destruct Eh as [Eh | Eh] |];
          apply Z.ltb_lt in Eh; lia. }
      rewrite Zlt_Qlt in E0. rewrite Zle_Qle in Hsum.
      set (P := inject_Z (peak (analyzeRange data sr 250 600))) in *.
      set (S := inject_Z (peak (analyzeRange data sr 800 1400)
                          + peak (analyzeRange data sr 1600 2800)
                          + peak (analyzeRange data sr 3000 4500))) in *.
      set (A := avg (analyzeRange data sr 250 600)) in *.
      change (inject_Z 80) with 80 in E0. change (inject_Z 37) with 37 in Hsum.
      assert (H1 : 8 # 15 < Qmin (P / 150) 1) by clamp_above.
      assert (H2 : 37 # 200 <= Qmin (S / 200) 1).
      { apply Q.min_glb; [unfold Qdiv; cbn [Qinv Qnum Qden]; lra | discriminate]. }
      assert (H3 : 0.5 < Qmin (A / 70) 1) by clamp_above.
      apply Q.min_glb_lt; [lra | reflexivity].
    + rewrite (proj1 (scanRange_frequency data sr 250 600)). apply peakOver_bounds.
Qed.

(** The fire tone at 48 kHz. *)
Lemma candidate_ranges_witness :
  0.55 < c_confidence fireToneCandidate /\ (120 < c_amplitude fireToneCandidate)%Z.
Proof.
  destruct (proj1 (candidate_ranges allEnabled fireTone 48000 fireToneCandidate))
    as (H1 & _ & H2 & _); [by_running |].
  split; [exact H1 | exact H2].
Defined.

(** ** The events of a cycle and of a run *)

Lemma gated_insert_other (m : gmap string Z) (now : Z) (t : SoundType) (d : Candidate) :
  t <> c_type d ->
  gated (<[type_key t := now]> m) now (Some d) = gated m now (Some d).
Proof.
  intros Hne. cbn [gated].
  rewrite (gateOpen_ext (<[type_key t := now]> m) m); [reflexivity |].
  apply lastDetectionOf_insert_ne, Hne.
Qed.

Lemma flat_map_agree {A B : Type} (f g : A -> list B) (l : list A) :
  (forall a, In a l -> f a = g a) -> flat_map f l = flat_map g l.
Proof.
  induction l as [| a l IH]; intros H; [reflexivity |].
  cbn [flat_map]. rewrite (H a (or_introl eq_refl)), IH; [reflexivity |].
  intros a' Hin. apply H. right. exact Hin.
Qed.

(** The [forEach] over candidates of distinct types sends, in their order,
    the events the gate as it stood before the loop lets through. *)
Lemma processDetections_events (now : Z) (ds : list Candidate) :
  NoDup (map c_type ds) ->
  forall (m : gmap string Z) (evs : list SoundDetection),
    snd (fold_left (processDetection now) ds (m, evs))
    = evs ++ flat_map (fun d => gated m now (Some d)) ds.
Proof.
  induction ds as [| d ds IH]; intros Hnd m evs.
  - simpl. rewrite app_nil_r. reflexivity.
  - inversion Hnd as [| ? ? Hnotin Hnd']; subst.
    cbn [fold_left flat_map gated].
    destruct (gateOpen m now d) eqn:Eg.
    + rewrite (processDetection_open _ _ _ _ Eg), (IH Hnd'), <- app_assoc.
      f_equal. cbn [app]. f_equal.
      apply flat_map_agree. intros d' Hin. apply gated_insert_other.
      intros E. apply Hnotin. rewrite E. apply list_elem_of_In, in_map, Hin.
    + rewrite (processDetection_shut _ _ _ _ Eg), (IH Hnd'). reflexivity.
Qed.

Lemma gated_length (m : gmap string Z) now d : (length (gated m now d) <= 1)%nat.
Proof. destruct d as [d |]; cbn [gated]; [destruct (gateOpen m now d) |]; simpl; lia. Qed.

Lemma gated_Forall (m : gmap string Z) now d :
  Forall (fun e => timestamp e = now
                   /\ confidenceThreshold (type e) < confidence e
                   /\ (cooldownPeriod (type e) < now - lastDetectionOf m (type e))%Z)
         (gated m now d).
Proof.
  destruct d as [d |]; cbn [gated]; [| constructor].
  destruct (gateOpen m now d) eqn:Eg; constructor; [| constructor].
  apply gateOpen_true in Eg. cbn [eventOf timestamp type confidence]. tauto.
Qed.

Section Runs.

Variable Math_sqrt : Q -> Q.

(** The events of a cycle, type by type. *)
Lemma analyzeAudio_events isListening en frame now h :
  snd (analyzeAudio Math_sqrt isListening en frame now h)
  = eventsOfType fire (snd (analyzeAudio Math_sqrt isListening en frame now h))
    ++ eventsOfType doorbell (snd (analyzeAudio Math_sqrt isListening en frame now h))
    ++ eventsOfType baby (snd (analyzeAudio Math_sqrt isListening en frame now h)).
Proof.
  destruct (analyserRef h) as [a |] eqn:Ha; [destruct (audioContextRef h) as [c |] eqn:Hc |].
  - rewrite !(proj1 (analyzeAudio_type Math_sqrt _ _ _ _ _ _ a c Ha Hc)).
    rewrite (analyzeAudio_live _ _ _ _ _ _ _ _ Ha Hc). cbn [snd classify].
    unfold processDetections.
    rewrite (processDetections_events now _ (detections_NoDup _ _ _)), detections_cases.
    cbn [app].
    destruct (detectFireAlarm en (frequencyData frame) (sampleRate c));
      destruct (detectDoorbell en (frequencyData frame) (sampleRate c));
      destruct (detectBabyCrying en (frequencyData frame) (sampleRate c));
      cbn [app flat_map gated]; rewrite ?app_nil_r; reflexivity.
  - rewrite analyzeAudio_idle by (right; exact Hc). reflexivity.
  - rewrite analyzeAudio_idle by (left; exact Ha). reflexivity.
Qed.

(** The events of one type in a cycle: none, or one that passed the gate. *)
Lemma analyzeAudio_events_of_type k isListening en frame now h :
  (length (eventsOfType k (snd (analyzeAudio Math_sqrt isListening en frame now h))) <= 1)%nat
  /\ Forall (fun e => timestamp e = now
                      /\ confidenceThreshold (type e) < confidence e
                      /\ (cooldownPeriod (type e)
                          < now - lastDetectionOf (lastDetectionRef h) (type e))%Z)
            (eventsOfType k (snd (analyzeAudio Math_sqrt isListening en frame now h))).
Proof.
  destruct (analyserRef h) as [a |] eqn:Ha; [destruct (audioContextRef h) as [c |] eqn:Hc |].
  - rewrite (proj1 (analyzeAudio_type Math_sqrt k _ _ _ _ _ a c Ha Hc)).
    split; [apply gated_length | apply gated_Forall].
  - rewrite analyzeAudio_idle by (right; exact Hc). split; [simpl; lia | constructor].
  - rewrite analyzeAudio_idle by (left; exact Ha). split; [simpl; lia | constructor].
Qed.

(** X4.  A cycle sends at most three events, at most one of each type,
    the fire event first, then the doorbell event, then the baby event.
    Each carries the clock reading of the cycle as its timestamp, a
    confidence strictly above the threshold of its type, and comes more
    than the cooldown of its type after the recorded time of that type. *)
Theorem cycle_events (isListening : bool) (en : EnabledSounds) (frame : Frame)
    (now : Z) (h : Hook) :
  (length (snd (analyzeAudio Math_sqrt isListening en frame now h)) <= 3)%nat
  /\ (forall k,
        (length (eventsOfType k (snd (analyzeAudio Math_sqrt isListening en frame now h)))
         <= 1)%nat)
  /\ snd (analyzeAudio Math_sqrt isListening en frame now h)
     = eventsOfType fire (snd (analyzeAudio Math_sqrt isListening en frame now h))
       ++ eventsOfType doorbell (snd (analyzeAudio Math_sqrt isListening en frame now h))
       ++ eventsOfType baby (snd (analyzeAudio Math_sqrt isListening en frame now h))
  /\ Forall (fun e => timestamp e = now
                      /\ confidenceThreshold (type e) < confidence e
                      /\ (cooldownPeriod (type e)
                          < now - lastDetectionOf (lastDetectionRef h) (type e))%Z)
            (snd (analyzeAudio Math_sqrt isListening en frame now h)).
Proof.
  pose proof (analyzeAudio_events isListening en frame now h) as Hev.
  pose proof (fun k => analyzeAudio_events_of_type k isListening en frame now h) as Hk.
  split; [| split; [| split]].
  - rewrite Hev, !length_app.
    pose proof (proj1 (Hk fire)). pose proof (proj1 (Hk doorbell)).
    pose proof (proj1 (Hk baby)). lia.
  - intros k. apply Hk.
  - exact Hev.
  - rewrite Hev. repeat apply Forall_app_2; apply Hk.
Qed.

End Runs.

(** ** Cooldowns over a run of cycles *)

Lemma lastTimestamp_app last a b :
  lastTimestamp last (a ++ b) = lastTimestamp (lastTimestamp last a) b.
Proof. unfold lastTimestamp. apply fold_left_app. Qed.

Lemma spacedFrom_app gap a :
  forall last b,
    spacedFrom gap last (a ++ b)
    <-> spacedFrom gap last a /\ spacedFrom gap (lastTimestamp last a) b.
Proof.
  induction a as [| e a IH]; intros last b.
  - simpl. tauto.
  - cbn [app spacedFrom]. rewrite IH. unfold lastTimestamp. cbn [fold_left]. tauto.
Qed.

(** The lookup of a type after the [forEach] over candidates of distinct types. *)
Lemma processDetections_lookup (now : Z) (k : SoundType) (ds : list Candidate) :
  NoDup (map c_type ds) ->
  forall (m : gmap string Z) (evs : list SoundDetection),
    fst (fold_left (processDetection now) ds (m, evs)) !! type_key k
    = match gated m now (candidateOf k ds) with
      | [] => m !! type_key k
      | _ => Some now
      end.
Proof.
  induction ds as [| d ds IH]; intros Hnd m evs; [reflexivity |].
  inversion Hnd as [| ? ? Hnotin Hnd']; subst.
  rewrite candidateOf_cons. cbn [fold_left].
  destruct (gateOpen m now d) eqn:Eg.
  - rewrite (processDetection_open _ _ _ _ Eg), (IH Hnd').
    destruct (SoundType_eqb (c_type d) k) eqn:Ek.
    + apply SoundType_eqb_eq in Ek. subst k.
      rewrite (candidateOf_fresh _ _ Hnotin). cbn [gated]. rewrite Eg.
      apply lookup_insert_eq.
    + assert (Hne : c_type d <> k).
      { intros E. rewrite <- SoundType_eqb_eq in E. congruence. }
      rewrite (gated_insert_ne _ _ _ _ _ Hne).
      rewrite lookup_insert_ne; [reflexivity |].
      intros E. apply Hne, type_key_inj, E.
  - rewrite (processDetection_shut _ _ _ _ Eg), (IH Hnd').
    destruct (SoundType_eqb (c_type d) k) eqn:Ek; [| reflexivity].
    apply SoundType_eqb_eq in Ek. subst k.
    rewrite (candidateOf_fresh _ _ Hnotin). cbn [gated]. rewrite Eg. reflexivity.
Qed.

(** No key but the three type names is written. *)
Lemma processDetections_other_keys (now : Z) (s : string) (ds : list Candidate) :
  (forall k, s <> type_key k) ->
  forall (m : gmap string Z) (evs : list SoundDetection),
    fst (fold_left (processDetection now) ds (m, evs)) !! s = m !! s.
Proof.
  intros Hs. induction ds as [| d ds IH]; intros m evs; [reflexivity |].
  cbn [fold_left]. destruct (gateOpen m now d) eqn:Eg.
  - rewrite (processDetection_open _ _ _ _ Eg), IH.
    apply lookup_insert_ne. intros E. exact (Hs _ (eq_sym E)).
  - rewrite (processDetection_shut _ _ _ _ Eg). apply IH.
Qed.

Section Cooldowns.

Variable Math_sqrt : Q -> Q.

Lemma analyzeAudio_spaced k isListening en frame now h :
  spacedFrom (cooldownPeriod k) (lastDetectionOf (lastDetectionRef h) k)
    (eventsOfType k (snd (analyzeAudio Math_sqrt isListening en frame now h)))
  /\ lastDetectionOf (lastDetectionRef (fst (analyzeAudio Math_sqrt isListening en frame now h))) k
     = lastTimestamp (lastDetectionOf (lastDetectionRef h) k)
         (eventsOfType k (snd (analyzeAudio Math_sqrt isListening en frame now h))).
Proof.
  destruct (analyserRef h) as [a |] eqn:Ha; [destruct (audioContextRef h) as [c |] eqn:Hc |].
  - destruct (analyzeAudio_type Math_sqrt k isListening en frame now h a c Ha Hc) as [He Hl].
    rewrite He, Hl.
    destruct (classify k en (frequencyData frame) (sampleRate c)) as [d |] eqn:Hd;
      cbn [gated]; [| split; [exact I | reflexivity]].
    destruct (gateOpen (lastDetectionRef h) now d) eqn:Eg; [| split; [exact I | reflexivity]].
    apply gateOpen_true in Eg. rewrite (classify_type _ _ _ _ _ Hd) in Eg.
    cbn [spacedFrom eventOf timestamp]. split; [tauto | reflexivity].
  - rewrite analyzeAudio_idle by (right; exact Hc). split; [exact I | reflexivity].
  - rewrite analyzeAudio_idle by (left; exact Ha). split; [exact I | reflexivity].
Qed.

Lemma analyzeAudio_lookup k isListening en frame now h :
  lastDetectionRef (fst (analyzeAudio Math_sqrt isListening en frame now h)) !! type_key k
  = match last (eventsOfType k (snd (analyzeAudio Math_sqrt isListening en frame now h))) with
    | Some e => Some (timestamp e)
    | None => lastDetectionRef h !! type_key k
    end.
Proof.
  destruct (analyserRef h) as [a |] eqn:Ha; [destruct (audioContextRef h) as [c |] eqn:Hc |].
  - rewrite (proj1 (analyzeAudio_type Math_sqrt k isListening en frame now h a c Ha Hc)).
    rewrite (analyzeAudio_live _ _ _ _ _ _ _ _ Ha Hc). cbn [fst lastDetectionRef].
    unfold processDetections.
    rewrite (processDetections_lookup now k _ (detections_NoDup _ _ _)).
    rewrite candidateOf_detections.
    destruct (classify k en (frequencyData frame) (sampleRate c)) as [d |];
      cbn [gated]; [| reflexivity].
    destruct (gateOpen (lastDetectionRef h) now d); reflexivity.
  - rewrite analyzeAudio_idle by (right; exact Hc). reflexivity.
  - rewrite analyzeAudio_idle by (left; exact Ha). reflexivity.
Qed.

Lemma analyzeAudio_other_keys (s : string) isListening en frame now h :
  (forall k, s <> type_key k) ->
  lastDetectionRef (fst (analyzeAudio Math_sqrt isListening en frame now h)) !! s
  = lastDetectionRef h !! s.
Proof.
  intros Hs. unfold analyzeAudio.
  destruct (analyserRef h); [| reflexivity].
  destruct (audioContextRef h); [| reflexivity].
  cbn [fst lastDetectionRef]. apply processDetections_other_keys, Hs.
Qed.

(** X5.  Over any run of cycles of a session the events of one type
    are spaced by more than the cooldown of the type (3000 ms for fire,
    8000 ms for the others), the first of them coming more than the
    cooldown after the time recorded for the type when the run began; and
    the time recorded after the run is the timestamp of the last of them. *)
Theorem cooldown_spacing (k : SoundType) (ticks : list (bool * EnabledSounds * Frame * Z))
    (h : Hook) :
  spacedFrom (cooldownPeriod k) (lastDetectionOf (lastDetectionRef h) k)
    (eventsOfType k (snd (runCycles Math_sqrt ticks h)))
  /\ lastDetectionOf (lastDetectionRef (fst (runCycles Math_sqrt ticks h))) k
     = lastTimestamp (lastDetectionOf (lastDetectionRef h) k)
         (eventsOfType k (snd (runCycles Math_sqrt ticks h))).
Proof.
  revert h. induction ticks as [| [[[isListening en] frame] now] ticks IH]; intros h.
  - split; [exact I | reflexivity].
  - cbn [runCycles fst snd]. rewrite eventsOfType_app, spacedFrom_app, lastTimestamp_app.
    destruct (analyzeAudio_spaced k isListening en frame now h) as [Hs Hl].
    destruct (IH (fst (analyzeAudio Math_sqrt isListening en frame now h))) as [Hs' Hl'].
    rewrite Hl in Hs', Hl'. split; [split; assumption | exact Hl'].
Qed.

(** X6.  [lastDetectionRef] holds an entry for a type exactly from the
    first event of that type on: after any run of cycles the entry of a
    type is the timestamp of the last event of that type in the run, and
    it is what it was before the run (none, after a start) when the run
    sent no such event.  No key but the names of the three types is ever
    written. *)
Theorem gate_entries (k : SoundType) (ticks : list (bool * EnabledSounds * Frame * Z))
    (h : Hook) :
  lastDetectionRef (fst (runCycles Math_sqrt ticks h)) !! type_key k
  = match last (eventsOfType k (snd (runCycles Math_sqrt ticks h))) with
    | Some e => Some (timestamp e)
    | None => lastDetectionRef h !! type_key k
    end
  /\ (forall s : string,
        (forall k', s <> type_key k') ->
        lastDetectionRef (fst (runCycles Math_sqrt ticks h)) !! s = lastDetectionRef h !! s).
Proof.
  revert h. induction ticks as [| [[[isListening en] frame] now] ticks IH]; intros h.
  - split; [reflexivity | intros; reflexivity].
  - cbn [runCycles fst snd]. rewrite eventsOfType_app.
    destruct (IH (fst (analyzeAudio Math_sqrt isListening en frame now h))) as [Hl Ho].
    split.
    + rewrite Hl, analyzeAudio_lookup.
      destruct (eventsOfType k (snd (runCycles Math_sqrt ticks
                  (fst (analyzeAudio Math_sqrt isListening en frame now h)))))
        as [| e es] eqn:E using rev_ind.
      * rewrite app_nil_r. reflexivity.
      * rewrite app_assoc, !last_snoc. reflexivity.
    + intros s Hs. rewrite (Ho s Hs). apply analyzeAudio_other_keys, Hs.
Qed.

End Cooldowns.

(** ** The frequency history *)

Lemma pushHistory_cases (history : list (list Z)) (f : Uint8Array) :
  pushHistory history f
  = if (10 <=? length history)%nat
    then tl history ++ [map byte_value f]
    else history ++ [map byte_value f].
Proof.
  unfold pushHistory. cbv zeta. rewrite length_app. cbn [length].
  destruct (10 <=? length history)%nat eqn:E.
  - apply Nat.leb_le in E.
    replace (10 <? Z.of_nat (length history + 1))%Z with true
      by (symmetry; apply Z.ltb_lt; lia).
    destruct history as [| x history]; [simpl in E; lia | reflexivity].
  - apply Nat.leb_gt in E.
    replace (10 <? Z.of_nat (length history + 1))%Z with false
      by (symmetry; apply Z.ltb_ge; lia).
    reflexivity.
Qed.

Lemma pushHistory_length (history : list (list Z)) (f : Uint8Array) :
  (length history <= 10)%nat ->
  length (pushHistory history f) = Nat.min 10 (S (length history)).
Proof.
  intros H. rewrite pushHistory_cases.
  destruct (10 <=? length history)%nat eqn:E.
  - apply Nat.leb_le in E. rewrite length_app. cbn [length].
    destruct history as [| x history]; cbn [tl length] in *; lia.
  - apply Nat.leb_gt in E. rewrite length_app. cbn [length]. lia.
Qed.

Section History.

Variable Math_sqrt : Q -> Q.

Lemma analyzeAudio_history isListening en frame now h :
  frequencyHistoryRef (fst (analyzeAudio Math_sqrt isListening en frame now h))
  = match analyserRef h, audioContextRef h with
    | Some _, Some _ => pushHistory (frequencyHistoryRef h) (frequencyData frame)
    | _, _ => frequencyHistoryRef h
    end.
Proof.
  unfold analyzeAudio.
  destruct (analyserRef h); [destruct (audioContextRef h) |]; reflexivity.
Qed.

(** X7.  The frequency history is a window of the last ten spectra.  A
    cycle appends its spectrum as the newest entry and, once ten are held,
    drops the oldest; so a history of at most ten entries stays at most
    ten over any run, and after [n] cycles of a live session that began
    with [m <= 10] entries it holds [min(10, m + n)]. *)
Theorem history_window (ticks : list (bool * EnabledSounds * Frame * Z)) (h : Hook) :
  (forall history f,
      last (pushHistory history f) = Some (map byte_value f)
      /\ ((length history < 10)%nat ->
          pushHistory history f = history ++ [map byte_value f])
      /\ ((10 <= length history)%nat ->
          pushHistory history f = tl history ++ [map byte_value f]))
  /\ ((length (frequencyHistoryRef h) <= 10)%nat ->
      (length (frequencyHistoryRef (fst (runCycles Math_sqrt ticks h))) <= 10)%nat)
  /\ (forall analyser audioContext,
        analyserRef h = Some analyser ->
        audioContextRef h = Some audioContext ->
        (length (frequencyHistoryRef h) <= 10)%nat ->
        length (frequencyHistoryRef (fst (runCycles Math_sqrt ticks h)))
        = Nat.min 10 (length (frequencyHistoryRef h) + length ticks)).
Proof.
  split; [| split].
  - intros history f. rewrite pushHistory_cases.
    destruct (10 <=? length history)%nat eqn:E;
      [apply Nat.leb_le in E | apply Nat.leb_gt in E].
    + split; [apply last_snoc |]. split; [lia | reflexivity].
    + split; [apply last_snoc |]. split; [reflexivity | lia].
  - revert h. induction ticks as [| [[[isListening en] frame] now] ticks IH]; intros h H;
      [exact H |].
    cbn [runCycles fst]. apply IH. rewrite analyzeAudio_history.
    destruct (analyserRef h); [| exact H]. destruct (audioContextRef h); [| exact H].
    rewrite (pushHistory_length _ _ H). lia.
  - revert h. induction ticks as [| [[[isListening en] frame] now] ticks IH];
      intros h analyser audioContext Ha Hc H.
    + cbn [runCycles fst length]. lia.
    + cbn [runCycles fst length].
      pose proof (analyzeAudio_refs Math_sqrt isListening en frame now h) as (Ha' & Hc' & _).
      rewrite Ha in Ha'. rewrite Hc in Hc'.
      assert (Hlen : length (frequencyHistoryRef
                               (fst (analyzeAudio Math_sqrt isListening en frame now h)))
                     = Nat.min 10 (S (length (frequencyHistoryRef h)))).
      { rewrite analyzeAudio_history, Ha, Hc. apply pushHistory_length, H. }
      rewrite (IH _ analyser audioContext Ha' Hc') by (rewrite Hlen; lia).
      rewrite Hlen. lia.
Qed.

(** X8.  Nothing outlives a stop.  After [stopListening] a frame
    request that still fires finds no analyser: the cycle sends nothing,
    changes nothing and asks for no further frame, whatever the frame and
    whatever [isListening] says.  Stopping twice is stopping once, and a
    stop keeps the recorded detection times, the frequency history and the
    error as they are. *)
Theorem stop_halts (ticks : list (bool * EnabledSounds * Frame * Z)) (h : Hook) :
  (forall isListening en frame now,
      analyzeAudio Math_sqrt isListening en frame now (stopListening h)
      = (stopListening h, []))
  /\ runCycles Math_sqrt ticks (stopListening h) = (stopListening h, [])
  /\ stopListening (stopListening h) = stopListening h
  /\ lastDetectionRef (stopListening h) = lastDetectionRef h
  /\ frequencyHistoryRef (stopListening h) = frequencyHistoryRef h
  /\ error (stopListening h) = error h.
Proof.
  assert (Hcycle : forall isListening en frame now,
             analyzeAudio Math_sqrt isListening en frame now (stopListening h)
             = (stopListening h, [])).
  { intros. apply analyzeAudio_idle. left. reflexivity. }
  split; [exact Hcycle |]. split.
  - induction ticks as [| [[[isListening en] frame] now] ticks IH]; [reflexivity |].
    cbn [runCycles]. rewrite Hcycle. cbn [fst snd]. rewrite IH. reflexivity.
  - split; [| repeat split].
    unfold stopListening. cbn. f_equal.
    destruct (audioContextRef h) as [c |]; [| reflexivity].
    destruct (state c) eqn:E; try reflexivity. rewrite E. reflexivity.
Qed.

End History.

Lemma history_window_witness :
  length (frequencyHistoryRef
            (fst (runCycles sqrt53
                    [ (true, allEnabled, fireFrame, someNow);
                      (true, allEnabled, fireFrame, (someNow + 16)%Z) ] liveHook)))
  = Nat.min 10 (length (frequencyHistoryRef liveHook) + 2).
Proof.
  apply (proj2 (proj2 (history_window sqrt53
                         [ (true, allEnabled, fireFrame, someNow);
                           (true, allEnabled, fireFrame, (someNow + 16)%Z) ] liveHook))
           {| fftSize := 16384 |} {| sampleRate := 48000; state := running |}
           eq_refl eq_refl).
  simpl. lia.
Defined.

(** ** The states a session can be in *)

Ltac consistent_goal H3 :=
  repeat apply conj; cbn in *; intros;
  repeat match goal with
         | Ha : analyserRef _ = Some _ |- _ =>
             let F := fresh in destruct (H3 _ Ha) as (F & ? & ?); clear Ha
         | Ha : Some _ = Some _ |- _ => injection Ha as <-
         end;
  first [ assumption | reflexivity | discriminate | congruence | lia
        | solve [repeat split; eauto] ].

Lemma consistent_initial : consistent initialHook.
Proof.
  unfold consistent, initialHook. cbn.
  repeat split; try discriminate; try lia.
Qed.

Lemma consistent_requestPermission (b : Browser) (h : Hook) :
  consistent h -> consistent (fst (requestPermission b h)).
Proof.
  unfold consistent. intros (H1 & H2 & H3 & H4 & H5 & H6).
  unfold requestPermission.
  destruct (platformIsWeb b); cbn; [destruct (getUserMedia b); cbn |];
    consistent_goal H3.
Qed.

Lemma consistent_initializeAudioContext (b : Browser) (h : Hook) :
  consistent h -> consistent (fst (initializeAudioContext b h)).
Proof.
  unfold consistent. intros (H1 & H2 & H3 & H4 & H5 & H6).
  unfold initializeAudioContext.
  destruct (mediaStreamRef h) eqn:Es; cbn [negb];
    [destruct (newAudioContext b); cbn |];
    consistent_goal H3.
Qed.

Lemma consistent_prepareListening (b : Browser) (h : Hook) :
  consistent h -> consistent (fst (prepareListening b h)).
Proof.
  intros H. unfold prepareListening.
  set (r1 := if hasPermission h then (h, true) else requestPermission b h).
  assert (Hr1 : consistent (fst r1)).
  { subst r1. destruct (hasPermission h); [exact H | apply consistent_requestPermission, H]. }
  destruct (snd r1); cbn [negb]; [| exact Hr1].
  pose proof (consistent_initializeAudioContext b _ Hr1) as Hr2.
  destruct (snd (initializeAudioContext b (fst r1))); cbn [negb]; [| exact Hr2].
  destruct Hr2 as (H1 & H2 & H3 & H4 & H5 & H6).
  unfold consistent. cbn.
  repeat apply conj; try assumption; try (cbn; lia); try reflexivity.
  intros a Ha. destruct (H3 a Ha) as (F & S & C). repeat split; try assumption.
  destruct (audioContextRef (fst (initializeAudioContext b (fst r1)))); [discriminate | congruence].
Qed.

Lemma consistent_stopListening (h : Hook) : consistent h -> consistent (stopListening h).
Proof.
  unfold consistent. intros (H1 & H2 & H3 & H4 & H5 & H6).
  unfold stopListening. cbn. repeat apply conj; try assumption; try reflexivity;
    intros; discriminate.
Qed.

Section Reach.

Variable Math_sqrt : Q -> Q.

Lemma consistent_analyzeAudio isListening en frame now (h : Hook) :
  consistent h -> consistent (fst (analyzeAudio Math_sqrt isListening en frame now h)).
Proof.
  intros H.
  destruct (analyserRef h) as [a |] eqn:Ha; [destruct (audioContextRef h) as [c |] eqn:Hc |];
    [| rewrite analyzeAudio_idle by (right; exact Hc); exact H
     | rewrite analyzeAudio_idle by (left; exact Ha); exact H].
  pose proof (analyzeAudio_history Math_sqrt isListening en frame now h) as Hh.
  pose proof (fun s => analyzeAudio_other_keys Math_sqrt s isListening en frame now h) as Hk.
  rewrite Ha, Hc in Hh.
  rewrite (analyzeAudio_live _ _ _ _ _ _ _ _ Ha Hc) in *. cbn [fst] in *.
  destruct H as (H1 & H2 & H3 & H4 & H5 & H6).
  unfold consistent. cbn [audioLevel smoothedLevelRef hasPermission mediaStreamRef
                            analyserRef audioContextRef animationFrameRef isInitializing
                            fftSize] in *.
  repeat apply conj; try assumption; try reflexivity.
  - intros _. rewrite Ha. discriminate.
  - rewrite Hh, (pushHistory_length _ _ H5). lia.
  - intros s Hs. rewrite (Hk s Hs). apply H6, Hs.
Qed.

Lemma reachable_consistent (h : Hook) : Reachable Math_sqrt h -> consistent h.
Proof.
  induction 1 as [| b h _ IH | b isListening en frame now h _ IH | h _ IH
                  | isListening en frame now h _ IH].
  - exact consistent_initial.
  - apply consistent_requestPermission, IH.
  - unfold startListening.
    pose proof (consistent_prepareListening b h IH) as Hp.
    destruct (snd (prepareListening b h)); cbn [fst]; [| exact Hp].
    apply consistent_analyzeAudio, Hp.
  - apply consistent_stopListening, IH.
  - apply consistent_analyzeAudio, IH.
Qed.

(** X9.  Between any two calls of the hook's callbacks, however they
    were interleaved: the level shown is the smoothed level; a granted
    permission comes with a stream; an analyser is the 16384-point one
    (8192 bins) and comes with a stream and an audio context; a frame
    handle is held only beside an analyser; the history holds at most ten
    spectra; and the recorded detection times have no key beyond the three
    types. *)
Theorem session_invariant (h : Hook) :
  Reachable Math_sqrt h ->
  audioLevel h = smoothedLevelRef h
  /\ (hasPermission h = true -> mediaStreamRef h = true)
  /\ (forall analyser, analyserRef h = Some analyser ->
        frequencyBinCount analyser = 8192%Z
        /\ mediaStreamRef h = true
        /\ exists audioContext, audioContextRef h = Some audioContext)
  /\ (animationFrameRef h = true -> exists analyser, analyserRef h = Some analyser)
  /\ (length (frequencyHistoryRef h) <= 10)%nat
  /\ (forall s : string, (forall k, s <> type_key k) -> lastDetectionRef h !! s = None).
Proof.
  intros Hr. destruct (reachable_consistent h Hr) as (H1 & H2 & H3 & H4 & H5 & H6).
  repeat apply conj; try assumption.
  - intros a Ha. destruct (H3 a Ha) as (F & S & C). repeat split; [| exact S |].
    + unfold frequencyBinCount. rewrite F. reflexivity.
    + destruct (audioContextRef h) as [c |]; [exists c; reflexivity | congruence].
  - intros Hf. destruct (analyserRef h) as [a |] eqn:Ha; [exists a; reflexivity |].
    exfalso. exact (H4 Hf eq_refl).
Qed.

Hypothesis Math_sqrt_nonneg : forall x, 0 <= Math_sqrt x.

(** X10.  The level the hook shows is always between 0 and 1: at
    mount, after any cycle, after a start (which keeps the level it finds
    and runs a cycle), after a stop (which sets it to 0) and after a
    permission request, in any order. *)
Theorem level_in_unit (h : Hook) :
  Reachable Math_sqrt h -> 0 <= audioLevel h <= 1.
Proof using Math_sqrt_nonneg.
  intros Hr. rewrite (proj1 (reachable_consistent h Hr)).
  induction Hr as [| b h _ IH | b isListening en frame now h _ IH | h _ IH
                   | isListening en frame now h _ IH].
  - cbn. lra.
  - unfold requestPermission.
    destruct (platformIsWeb b); cbn; [destruct (getUserMedia b) |]; exact IH.
  - unfold startListening.
    destruct (prepareListening b h) as [h' ok] eqn:Ep. cbn [snd fst].
    destruct ok; cbn [fst].
    + apply (analyzeAudio_level_unit Math_sqrt Math_sqrt_nonneg).
      destruct (prepareListening_true b h h' Ep) as (_ & _ & -> & _). exact IH.
    + revert Ep. unfold prepareListening.
      destruct (hasPermission h).
      * cbn [snd negb fst]. unfold initializeAudioContext.
        destruct (mediaStreamRef h); cbn [negb];
          [destruct (newAudioContext b) |]; cbn; intros [= <-]; exact IH.
      * unfold requestPermission.
        destruct (platformIsWeb b); cbn; [destruct (getUserMedia b); cbn |];
          try (intros [= <-]; exact IH).
        unfold initializeAudioContext. cbn.
        destruct (newAudioContext b); cbn; intros [=].
        subst h'. exact IH.
  - cbn. lra.
  - apply (analyzeAudio_level_unit Math_sqrt Math_sqrt_nonneg), IH.
Qed.

End Reach.

(** The state after a start on the granting browser and one more cycle. *)
Lemma session_invariant_witness :
  length (frequencyHistoryRef
            (fst (analyzeAudio sqrt53 true allEnabled fireFrame (someNow + 16)
                    (fst (fst (startListening sqrt53 grantingBrowser true allEnabled
                                 fireFrame someNow initialHook))))))
  = 2%nat
  /\ (length (frequencyHistoryRef
            (fst (analyzeAudio sqrt53 true allEnabled fireFrame (someNow + 16)
                    (fst (fst (startListening sqrt53 grantingBrowser true allEnabled
                                 fireFrame someNow initialHook)))))) <= 10)%nat.
Proof.
  split; [by_running |].
  apply (session_invariant sqrt53).
  apply reach_analyzeAudio, reach_startListening, reach_initial.
Defined.

Lemma level_in_unit_witness :
  0 < audioLevel (fst (fst (startListening sqrt53 grantingBrowser true allEnabled
                              shortFrame someNow initialHook)))
  /\ 0 <= audioLevel (fst (fst (startListening sqrt53 grantingBrowser true allEnabled
                                  shortFrame someNow initialHook))) <= 1.
Proof.
  split; [by_running |].
  apply (level_in_unit sqrt53 sqrt53_nonneg).
  apply reach_startListening, reach_initial.
Defined.

(** ** How a start ends *)

Section Start.

Variable Math_sqrt : Q -> Q.

Lemma prepareListening_cases (b : Browser) (h : Hook) :
  snd (prepareListening b h) = true
  <-> (if hasPermission h then mediaStreamRef h = true
       else platformIsWeb b = true /\ getUserMedia b = StreamGranted)
      /\ newAudioContext b <> None.
Proof.
  unfold prepareListening, requestPermission, initializeAudioContext.
  destruct (hasPermission h); cbn;
    destruct (platformIsWeb b), (getUserMedia b), (mediaStreamRef h),
      (newAudioContext b); cbn; intuition congruence.
Qed.

Lemma prepareListening_false (b : Browser) (h : Hook) :
  snd (prepareListening b h) = false ->
  lastDetectionRef (fst (prepareListening b h)) = lastDetectionRef h
  /\ frequencyHistoryRef (fst (prepareListening b h)) = frequencyHistoryRef h
  /\ smoothedLevelRef (fst (prepareListening b h)) = smoothedLevelRef h
  /\ audioLevel (fst (prepareListening b h)) = audioLevel h
  /\ analyserRef (fst (prepareListening b h)) = analyserRef h
  /\ audioContextRef (fst (prepareListening b h)) = audioContextRef h
  /\ ((hasPermission h = true -> mediaStreamRef h = true) ->
      error (fst (prepareListening b h)) <> None)
  /\ (hasPermission h = false -> platformIsWeb b = true -> getUserMedia b = StreamGranted ->
      mediaStreamRef (fst (prepareListening b h)) = true
      /\ hasPermission (fst (prepareListening b h)) = true
      /\ error (fst (prepareListening b h)) = Some InitFailed).
Proof.
  unfold prepareListening, requestPermission, initializeAudioContext.
  destruct (hasPermission h); cbn;
    destruct (platformIsWeb b), (getUserMedia b), (mediaStreamRef h),
      (newAudioContext b); cbn; intros Hf; try discriminate Hf;
    repeat split; try discriminate; intros; try discriminate; auto;
    match goal with H : true = true -> _ |- _ => specialize (H eq_refl); discriminate end.
Qed.

(** X11.  How [startListening] ends.  It goes through exactly when a
    stream is at hand (held already when the permission is recorded,
    otherwise granted by the browser on the web platform) and the audio
    context can be built.  A start that fails sends no event and leaves
    the recorded detection times, the history, the level, the analyser
    and the context as they were; from a state in which a recorded
    permission comes with a stream it always leaves an error message; and
    if it failed at the audio context after the browser granted the
    microphone, it keeps the stream and the permission it was just given.
    A start that goes through holds the permission, the stream, the
    16384-point analyser and the new context, resumed, and it clears an
    earlier error only if it had to ask for the microphone. *)
Theorem start_outcome (b : Browser) (isListening : bool) (en : EnabledSounds)
    (frame : Frame) (now : Z) (h : Hook) :
  let r := startListening Math_sqrt b isListening en frame now h in
  (snd r = true
   <-> (if hasPermission h then mediaStreamRef h = true
        else platformIsWeb b = true /\ getUserMedia b = StreamGranted)
       /\ newAudioContext b <> None)
  /\ (snd r = false ->
      snd (fst r) = []
      /\ lastDetectionRef (fst (fst r)) = lastDetectionRef h
      /\ frequencyHistoryRef (fst (fst r)) = frequencyHistoryRef h
      /\ smoothedLevelRef (fst (fst r)) = smoothedLevelRef h
      /\ audioLevel (fst (fst r)) = audioLevel h
      /\ analyserRef (fst (fst r)) = analyserRef h
      /\ audioContextRef (fst (fst r)) = audioContextRef h
      /\ ((hasPermission h = true -> mediaStreamRef h = true) ->
          error (fst (fst r)) <> None)
      /\ (hasPermission h = false -> platformIsWeb b = true ->
          getUserMedia b = StreamGranted ->
          mediaStreamRef (fst (fst r)) = true
          /\ hasPermission (fst (fst r)) = true
          /\ error (fst (fst r)) = Some InitFailed))
  /\ (snd r = true ->
      hasPermission (fst (fst r)) = true
      /\ mediaStreamRef (fst (fst r)) = true
      /\ analyserRef (fst (fst r)) = Some {| fftSize := 16384 |}
      /\ (exists audioContext,
             newAudioContext b = Some audioContext
             /\ audioContextRef (fst (fst r)) = Some (resume audioContext))
      /\ error (fst (fst r)) = if hasPermission h then error h else None).
Proof.
  cbv zeta. unfold startListening.
  pose proof (prepareListening_cases b h) as Hc.
  pose proof (prepareListening_false b h) as Hf.
  destruct (prepareListening b h) as [h' ok] eqn:Ep. cbn [fst snd] in *.
  destruct ok; cbn [fst snd].
  - split; [exact Hc |]. split; [discriminate |]. intros _.
    destruct (prepareListening_true b h h' Ep) as (_ & _ & _ & Ha & c & Hn & Hctx).
    rewrite (analyzeAudio_live _ _ _ _ _ _ _ _ Ha Hctx).
    cbn [fst hasPermission mediaStreamRef analyserRef audioContextRef error].
    revert Ep. unfold prepareListening, requestPermission, initializeAudioContext.
    rewrite Hn.
    destruct (hasPermission h) eqn:Eh; cbn;
      destruct (platformIsWeb b), (getUserMedia b), (mediaStreamRef h); cbn;
      intros [= <-]; cbn;
      (repeat split; try reflexivity; try assumption; exists c; split; reflexivity).
  - split; [exact Hc |]. split; [| discriminate]. intros _.
    split; [reflexivity |]. apply Hf. reflexivity.
Qed.

End Start.

(** The first start of a session on a browser that refuses the
    microphone, and on one that grants it. *)
Lemma start_outcome_witness :
  error (fst (fst (startListening sqrt53
                     {| platformIsWeb := true; getUserMedia := PermissionDenied;
                        newAudioContext := None |}
                     true allEnabled fireFrame someNow initialHook)))
  = Some AccessDenied
  /\ hasPermission (fst (fst (startListening sqrt53 grantingBrowser true allEnabled
                                fireFrame someNow initialHook))) = true.
Proof.
  split; [reflexivity |].
  apply (proj2 (proj2 (start_outcome sqrt53 grantingBrowser true allEnabled
                         fireFrame someNow initialHook))).
  apply (proj1 (start_outcome sqrt53 grantingBrowser true allEnabled
                  fireFrame someNow initialHook)).
  cbn. split; [split; reflexivity | discriminate].
Defined.

(** * The alerts of the application *)

(** ** Identifiers *)

Lemma to_int_proper (z : Z) :
  Z.to_int z <> Decimal.Pos Decimal.Nil /\ Z.to_int z <> Decimal.Neg Decimal.Nil.
Proof.
  destruct z as [| p | p]; cbn; split; try discriminate;
    intros [= E]; exact (DecimalPos.Unsigned.to_uint_nonnil p E).
Qed.

Lemma toString_inj (a b : Z) : toString a = toString b -> a = b.
Proof.
  unfold toString. intros E. apply DecimalZ.to_int_inj.
  apply (f_equal NilZero.int_of_string) in E.
  destruct (to_int_proper a) as [Ha1 Ha2]. destruct (to_int_proper b) as [Hb1 Hb2].
  rewrite (NilZero.isi _ Ha1 Ha2), (NilZero.isi _ Hb1 Hb2) in E.
  injection E as E. exact E.
Qed.

Lemma toString_eqb (a b : Z) : String.eqb (toString a) (toString b) = (a =? b)%Z.
Proof.
  destruct (Z.eqb_spec a b) as [-> | Hne]; [apply String.eqb_refl |].
  apply String.eqb_neq. intros E. exact (Hne (toString_inj _ _ E)).
Qed.

(** ** Raising alerts *)

Lemma firstn_app_firstn {A : Type} (n : nat) (l1 l2 : list A) :
  firstn n (l1 ++ firstn n l2) = firstn n (l1 ++ l2).
Proof.
  rewrite !firstn_app, firstn_firstn. f_equal. f_equal. lia.
Qed.

Lemma onSoundDetected_alert (canVibrate : bool) (c : AlertContext) (call : Z * SoundDetection) :
  currentAlert (onSoundDetected canVibrate c call) = Some (alertOf call)
  /\ alertHistory (onSoundDetected canVibrate c call)
     = firstn 100 (alertOf call :: alertHistory c)
  /\ ctxIsListening (onSoundDetected canVibrate c call) = ctxIsListening c
  /\ ctxEnabledSounds (onSoundDetected canVibrate c call) = ctxEnabledSounds c
  /\ alertSettings (onSoundDetected canVibrate c call) = alertSettings c.
Proof. repeat split. Qed.

Lemma deliver_history (canVibrate : bool) (calls : list (Z * SoundDetection)) :
  forall c : AlertContext,
    calls <> [] \/ (length (alertHistory c) <= 100)%nat ->
    alertHistory (deliver canVibrate calls c)
    = firstn 100 (rev (map alertOf calls) ++ alertHistory c).
Proof.
  induction calls as [| call calls IH]; intros c H.
  - destruct H as [H | H]; [congruence |]. cbn. symmetry. apply firstn_all2, H.
  - unfold deliver. cbn [fold_left]. fold (deliver canVibrate calls (onSoundDetected canVibrate c call)).
    rewrite IH.
    + rewrite (proj1 (proj2 (onSoundDetected_alert canVibrate c call))).
      rewrite firstn_app_firstn. cbn [map rev]. rewrite <- app_assoc. reflexivity.
    + right. rewrite (proj1 (proj2 (onSoundDetected_alert canVibrate c call))).
      apply firstn_le_length.
Qed.

Lemma deliver_snoc (canVibrate : bool) calls call c :
  deliver canVibrate (calls ++ [call]) c
  = onSoundDetected canVibrate (deliver canVibrate calls c) call.
Proof. unfold deliver. rewrite fold_left_app. reflexivity. Qed.

(** X12.  What raising alerts does to the provider's state.  One
    [triggerAlert] makes its alert the current one and puts it at the head
    of the history in front of the first 99 older entries, so that the
    history never exceeds 100 entries whatever it held; the vibration
    pattern is handed to the device exactly when the vibration setting is
    on and the device can vibrate.  After the calls of [onSoundDetected]
    for a list of events, in their order, the history is the alerts of the
    calls, newest first, followed by the older entries, cut to 100; the
    current alert is that of the last call; nothing else of the state
    changes.  The alert built for an event keeps its type and confidence
    and takes the clock reading of [triggerAlert] as its timestamp and
    identifier. *)
Theorem alert_delivery (canVibrate : bool) (calls : list (Z * SoundDetection))
    (c : AlertContext) :
  (forall now t confidence,
      currentAlert (fst (triggerAlert now canVibrate t confidence c))
      = Some (newAlert now t confidence)
      /\ alertHistory (fst (triggerAlert now canVibrate t confidence c))
         = newAlert now t confidence :: firstn 99 (alertHistory c)
      /\ length (alertHistory (fst (triggerAlert now canVibrate t confidence c)))
         = Nat.min 100 (S (length (alertHistory c)))
      /\ snd (triggerAlert now canVibrate t confidence c)
         = if vibration (alertSettings c) && canVibrate
           then Some (vibrationPattern t) else None)
  /\ (calls <> [] \/ (length (alertHistory c) <= 100)%nat ->
      alertHistory (deliver canVibrate calls c)
      = firstn 100 (rev (map alertOf calls) ++ alertHistory c))
  /\ currentAlert (deliver canVibrate calls c)
     = match last calls with
       | Some call => Some (alertOf call)
       | None => currentAlert c
       end
  /\ ctxIsListening (deliver canVibrate calls c) = ctxIsListening c
  /\ ctxEnabledSounds (deliver canVibrate calls c) = ctxEnabledSounds c
  /\ alertSettings (deliver canVibrate calls c) = alertSettings c
  /\ (forall call,
        a_type (alertOf call) = type (snd call)
        /\ a_confidence (alertOf call) = Some (confidence (snd call))
        /\ a_timestamp (alertOf call) = fst call
        /\ a_id (alertOf call) = toString (fst call)
        /\ a_dismissed (alertOf call) = None).
Proof.
  split; [| split; [apply deliver_history | split; [| split; [| split; [| split]]]]].
  - intros now t confidence. repeat split.
    cbn [triggerAlert fst alertHistory length]. rewrite length_firstn. lia.
  - destruct calls as [| call calls] using rev_ind; [reflexivity |].
    rewrite deliver_snoc, last_snoc. reflexivity.
  - induction calls as [| call calls IH] using rev_ind; [reflexivity |].
    rewrite deliver_snoc. exact IH.
  - induction calls as [| call calls IH] using rev_ind; [reflexivity |].
    rewrite deliver_snoc. exact IH.
  - induction calls as [| call calls IH] using rev_ind; [reflexivity |].
    rewrite deliver_snoc. exact IH.
  - intros call. repeat split.
Qed.

Lemma alert_delivery_witness :
  map a_type
    (alertHistory
       (deliver true
          [ ((someNow + 1)%Z, eventOf someNow fireToneCandidate);
            ((someNow + 2)%Z, eventOf someNow fireToneCandidate) ] initialContext))
  = [fire; fire].
Proof.
  rewrite (proj1 (proj2 (alert_delivery true
             [ ((someNow + 1)%Z, eventOf someNow fireToneCandidate);
               ((someNow + 2)%Z, eventOf someNow fireToneCandidate) ] initialContext))).
  - reflexivity.
  - left. discriminate.
Defined.

(** ** Dismissing *)

Lemma dismissAlert_none (c : AlertContext) : currentAlert c = None -> dismissAlert c = c.
Proof. destruct c as [cur hist l en st]. cbn. intros ->. reflexivity. Qed.

(** X13.  Dismissing goes by identifier.  [dismissAlert] clears the
    current alert and marks as dismissed every history entry that carries
    the identifier of the current alert, leaving the others and the order
    as they are; with no current alert it changes nothing, and a second
    dismissal changes nothing more.  Since the identifier is the
    millisecond of [triggerAlert], two alerts have the same identifier
    exactly when they were raised in the same millisecond: after two
    [triggerAlert]s and a dismissal the newer alert is marked, and the
    older one is marked too exactly when both carry the same clock
    reading (as two events of one cycle can). *)
Theorem dismiss_by_id (c : AlertContext) :
  (currentAlert c = None -> dismissAlert c = c)
  /\ dismissAlert (dismissAlert c) = dismissAlert c
  /\ currentAlert (dismissAlert c) = None
  /\ map a_id (alertHistory (dismissAlert c)) = map a_id (alertHistory c)
  /\ (forall current alert,
        currentAlert c = Some current ->
        In alert (alertHistory c) ->
        a_id alert <> a_id current ->
        In alert (alertHistory (dismissAlert c)))
  /\ (forall a b : Z, toString a = toString b <-> a = b)
  /\ (forall canVibrate now1 t1 confidence1 now2 t2 confidence2,
        alertHistory
          (dismissAlert
             (fst (triggerAlert now2 canVibrate t2 confidence2
                     (fst (triggerAlert now1 canVibrate t1 confidence1 c)))))
        = markDismissed (newAlert now2 t2 confidence2)
          :: (if (now1 =? now2)%Z
              then markDismissed (newAlert now1 t1 confidence1)
              else newAlert now1 t1 confidence1)
          :: map (fun alert => if String.eqb (a_id alert) (toString now2)
                               then markDismissed alert else alert)
                 (firstn 98 (alertHistory c))).
Proof.
  split; [apply dismissAlert_none |]. split; [apply dismissAlert_none; reflexivity |].
  split; [reflexivity |]. split; [| split; [| split]].
  - unfold dismissAlert. cbn [alertHistory].
    destruct (currentAlert c) as [current |]; [| reflexivity].
    rewrite map_map. apply map_ext. intros a.
    destruct (String.eqb (a_id a) (a_id current)); reflexivity.
  - intros current alert Hc Hin Hne. unfold dismissAlert. cbn [alertHistory]. rewrite Hc.
    apply in_map_iff. exists alert. split; [| exact Hin].
    apply String.eqb_neq in Hne. rewrite Hne. reflexivity.
  - intros a b. split; [apply toString_inj | intros ->; reflexivity].
  - intros canVibrate now1 t1 confidence1 now2 t2 confidence2.
    cbn [dismissAlert triggerAlert fst alertHistory currentAlert newAlert a_id map firstn].
    rewrite String.eqb_refl, toString_eqb, firstn_firstn. reflexivity.
Qed.

Lemma dismiss_by_id_witness :
  dismissAlert initialContext = initialContext.
Proof.
  apply (proj1 (dismiss_by_id initialContext)). reflexivity.
Defined.

(** ** The mask of enabled sounds *)

Lemma getEnabledSoundsCount_cases (m : EnabledSounds) :
  getEnabledSoundsCount m
  = ((if es_fire m then 1 else 0) + (if es_doorbell m then 1 else 0)
     + (if es_baby m then 1 else 0))%Z.
Proof.
  unfold getEnabledSoundsCount.
  destruct (es_fire m), (es_doorbell m), (es_baby m); reflexivity.
Qed.

Lemma detections_disabled (en : EnabledSounds) data sr :
  (forall k, enabled en k = false) -> detections en data sr = [].
Proof.
  intros H. unfold detections.
  pose proof (classify_disabled fire en data sr (H fire)) as Hf.
  pose proof (classify_disabled doorbell en data sr (H doorbell)) as Hd.
  pose proof (classify_disabled baby en data sr (H baby)) as Hb.
  cbn [classify] in Hf, Hd, Hb. rewrite Hf, Hd, Hb. reflexivity.
Qed.

(** X14.  Toggling a sound type.  [toggleSoundEnabled] flips the entry
    of its type and no other, and nothing else of the provider's state;
    toggling twice gives the mask back, and toggles of two types commute.
    The count of enabled sounds the listen screen shows moves by exactly
    one with each toggle and is always between 0 and 3. *)
Theorem toggle_sound (t : SoundType) (c : AlertContext) :
  (forall k, enabled (ctxEnabledSounds (toggleSoundEnabled t c)) k
             = if SoundType_eqb k t then negb (enabled (ctxEnabledSounds c) k)
               else enabled (ctxEnabledSounds c) k)
  /\ toggleSoundEnabled t (toggleSoundEnabled t c) = c
  /\ (forall t', toggleSoundEnabled t (toggleSoundEnabled t' c)
                 = toggleSoundEnabled t' (toggleSoundEnabled t c))
  /\ getEnabledSoundsCount (ctxEnabledSounds (toggleSoundEnabled t c))
     = (getEnabledSoundsCount (ctxEnabledSounds c)
        + if enabled (ctxEnabledSounds c) t then -1 else 1)%Z
  /\ (0 <= getEnabledSoundsCount (ctxEnabledSounds c) <= 3)%Z
  /\ currentAlert (toggleSoundEnabled t c) = currentAlert c
  /\ alertHistory (toggleSoundEnabled t c) = alertHistory c
  /\ ctxIsListening (toggleSoundEnabled t c) = ctxIsListening c
  /\ alertSettings (toggleSoundEnabled t c) = alertSettings c.
Proof.
  destruct c as [cur hist l [f d b] st].
  split; [| split; [| split; [| split; [| split]]]].
  - intros k. destruct t, k; reflexivity.
  - destruct t, f, d, b; reflexivity.
  - intros t'. destruct t, t'; reflexivity.
  - rewrite !getEnabledSoundsCount_cases.
    destruct t, f, d, b; reflexivity.
  - rewrite getEnabledSoundsCount_cases. cbn.
    destruct f, d, b; cbn; lia.
  - repeat split.
Qed.

Section Protection.

Variable Math_sqrt : Q -> Q.

(** X15.  What the protection label of the listen screen means for the
    engine.  The label is "Not Active" exactly when the screen is not
    listening; while it listens the label is "Full Protection" exactly
    when the three types are enabled and "No Protection" exactly when none
    is.  Under a mask with no type enabled a cycle still runs and still
    moves the level, but it sends no event and records no time, whatever
    the spectrum. *)
Theorem protection_level (isListening : bool) (en : EnabledSounds) :
  (getProtectionLevel isListening en = "Not Active"%string <-> isListening = false)
  /\ (getProtectionLevel isListening en = "Full Protection"%string
      <-> isListening = true /\ forall k, enabled en k = true)
  /\ (getProtectionLevel isListening en = "Good Protection"%string
      <-> isListening = true /\ getEnabledSoundsCount en = 2%Z)
  /\ (getProtectionLevel isListening en = "Basic Protection"%string
      <-> isListening = true /\ getEnabledSoundsCount en = 1%Z)
  /\ (getProtectionLevel isListening en = "No Protection"%string
      <-> isListening = true /\ forall k, enabled en k = false)
  /\ (getProtectionLevel isListening en = "No Protection"%string ->
      forall frame now h,
        snd (analyzeAudio Math_sqrt isListening en frame now h) = []
        /\ lastDetectionRef (fst (analyzeAudio Math_sqrt isListening en frame now h))
           = lastDetectionRef h
        /\ smoothedLevelRef (fst (analyzeAudio Math_sqrt isListening en frame now h))
           = match analyserRef h, audioContextRef h with
             | Some _, Some _ =>
                 smooth (targetLevel Math_sqrt (timeData frame)) (smoothedLevelRef h)
             | _, _ => smoothedLevelRef h
             end).
Proof.
  assert (Hnone : getProtectionLevel isListening en = "No Protection"%string
                  <-> isListening = true /\ forall k, enabled en k = false).
  { destruct en as [f d b]. unfold getProtectionLevel. rewrite getEnabledSoundsCount_cases.
    destruct isListening, f, d, b; cbn; split;
      first [ discriminate
            | intros _; split; [reflexivity | intros k; destruct k; reflexivity]
            | intros [_ H]; try discriminate;
              first [ discriminate (H fire) | discriminate (H doorbell)
                    | discriminate (H baby) | reflexivity ]
            | intros [H _]; discriminate H ]. }
  split; [| split; [| split; [| split; [| split; [exact Hnone |]]]]].
  - unfold getProtectionLevel. rewrite getEnabledSoundsCount_cases.
    destruct isListening, (es_fire en), (es_doorbell en), (es_baby en); cbn; split;
      first [discriminate | reflexivity | intros _; reflexivity].
  - destruct en as [f d b]. unfold getProtectionLevel. rewrite getEnabledSoundsCount_cases.
    destruct isListening, f, d, b; cbn; split;
      first [ discriminate
            | intros _; split; [reflexivity | intros k; destruct k; reflexivity]
            | intros [_ H];
              first [ discriminate (H fire) | discriminate (H doorbell)
                    | discriminate (H baby) | reflexivity ]
            | intros [H _]; discriminate H ].
  - unfold getProtectionLevel. rewrite getEnabledSoundsCount_cases.
    destruct isListening, (es_fire en), (es_doorbell en), (es_baby en); cbn; split;
      first [ discriminate | intros _; split; reflexivity
            | intros [H1 H2]; first [discriminate H1 | discriminate H2 | reflexivity] ].
  - unfold getProtectionLevel. rewrite getEnabledSoundsCount_cases.
    destruct isListening, (es_fire en), (es_doorbell en), (es_baby en); cbn; split;
      first [ discriminate | intros _; split; reflexivity
            | intros [H1 H2]; first [discriminate H1 | discriminate H2 | reflexivity] ].
  - intros Hl frame now h. apply Hnone in Hl. destruct Hl as [_ Hoff].
    split; [| split; [| apply analyzeAudio_level]].
    + unfold analyzeAudio.
      destruct (analyserRef h); [| reflexivity]. destruct (audioContextRef h); [| reflexivity].
      cbn [snd]. rewrite (detections_disabled _ _ _ Hoff). reflexivity.
    + unfold analyzeAudio.
      destruct (analyserRef h); [| reflexivity]. destruct (audioContextRef h); [| reflexivity].
      cbn [fst lastDetectionRef]. rewrite (detections_disabled _ _ _ Hoff). reflexivity.
Qed.

End Protection.

Lemma protection_level_witness :
  snd (analyzeAudio sqrt53 true {| es_fire := false; es_doorbell := false; es_baby := false |}
         fireFrame someNow liveHook) = [].
Proof.
  apply (proj2 (proj2 (proj2 (proj2 (proj2
           (protection_level sqrt53 true
              {| es_fire := false; es_doorbell := false; es_baby := false |})))))).
  reflexivity.
Defined.

(** ** Confidence figures *)

Lemma confidenceSum_fold (history : list SoundAlert) (acc : Q) :
  fold_left (fun acc alert => acc + confidenceOrZero alert) history acc
  == acc + confidenceSum history.
Proof.
  unfold confidenceSum. revert acc.
  induction history as [| a history IH]; intros acc; cbn [fold_left]; [lra |].
  rewrite IH, (IH (0 + confidenceOrZero a)). lra.
Qed.

Lemma confidenceSum_cons (a : SoundAlert) (history : list SoundAlert) :
  confidenceSum (a :: history) == confidenceOrZero a + confidenceSum history.
Proof.
  unfold confidenceSum at 1. cbn [fold_left]. rewrite confidenceSum_fold. lra.
Qed.

Lemma confidenceSum_bounds (lo hi : Q) (history : list SoundAlert) :
  (forall a, In a history -> lo <= confidenceOrZero a <= hi) ->
  inject_Z (Z.of_nat (length history)) * lo <= confidenceSum history
  /\ confidenceSum history <= inject_Z (Z.of_nat (length history)) * hi.
Proof.
  induction history as [| a history IH]; intros H.
  - unfold confidenceSum. cbn [fold_left length].
    change (inject_Z (Z.of_nat 0)) with 0. lra.
  - rewrite confidenceSum_cons. cbn [length]. rewrite Nat2Z.inj_succ. unfold Z.succ.
    rewrite inject_Z_plus. change (inject_Z 1) with 1.
    destruct (H a (or_introl eq_refl)) as [H1 H2].
    destruct IH as [I1 I2]; [intros a' Ha'; apply H; right; exact Ha' |].
    split; lra.
Qed.

Lemma average_bounds (lo hi : Q) (history : list SoundAlert) :
  history <> [] ->
  (forall a, In a history -> lo <= confidenceOrZero a <= hi) ->
  lo * 100 <= confidenceSum history / inject_Z (Z.of_nat (length history)) * 100 <= hi * 100.
Proof.
  intros Hne H. destruct (confidenceSum_bounds lo hi history H) as [H1 H2].
  set (n := inject_Z (Z.of_nat (length history))) in *.
  assert (Hn : 0 < n).
  { subst n. change 0 with (inject_Z 0). rewrite <- Zlt_Qlt.
    destruct history; [congruence | cbn [length]; lia]. }
  set (s := confidenceSum history) in *.
  assert (Hlo : lo <= s / n).
  { apply Qle_shift_div_l; [exact Hn | lra]. }
  assert (Hhi : s / n <= hi).
  { apply Qle_shift_div_r; [exact Hn | lra]. }
  split; lra.
Qed.

Lemma Math_round_le (x y : Q) : x <= y -> (Math_round x <= Math_round y)%Z.
Proof. intros H. unfold Math_round. apply Qfloor_resp_le. lra. Qed.

Section Confidence.

Variable Math_sqrt : Q -> Q.

(** X16.  The confidence figures of the two screens.  The listen
    screen's average is the history screen's average rounded to the
    nearest integer.  If every entry of a history that is not empty has a
    confidence between [lo] and [hi], the average lies between [100 lo]
    and [100 hi]; an entry without a confidence counts as 0.  Every alert
    raised from an event of the detector has a confidence above 0.7 and at
    most 0.98, and every alert raised by [simulateAlert] one of at least
    0.7 and below 0.98: a history fed by the two averages between 70
    and 98. *)
Theorem average_confidence (now : Z) (history : list SoundAlert) :
  getAverageConfidence history = Math_round (avgConfidence (getStats now history))
  /\ (forall lo hi,
        history <> [] ->
        (forall a, In a history -> lo <= confidenceOrZero a <= hi) ->
        lo * 100 <= avgConfidence (getStats now history) <= hi * 100
        /\ (Math_round (lo * 100) <= getAverageConfidence history <= Math_round (hi * 100))%Z)
  /\ (forall isListening en frame at_ h e triggered,
        In e (snd (analyzeAudio Math_sqrt isListening en frame at_ h)) ->
        0.7 < confidenceOrZero (alertOf (triggered, e)) <= 0.98)
  /\ (forall canVibrate random t c triggered,
        0 <= random < 1 ->
        exists a,
          currentAlert (fst (simulateAlert triggered canVibrate random t c)) = Some a
          /\ 0.7 <= confidenceOrZero a < 0.98)
  /\ (history <> [] ->
      (forall a, In a history -> 0.7 <= confidenceOrZero a <= 0.98) ->
      (70 <= getAverageConfidence history <= 98)%Z).
Proof.
  assert (Havg : getAverageConfidence history = Math_round (avgConfidence (getStats now history))).
  { unfold getAverageConfidence, getStats. cbn [avgConfidence].
    destruct history; reflexivity. }
  assert (Hb : forall lo hi,
             history <> [] ->
             (forall a, In a history -> lo <= confidenceOrZero a <= hi) ->
             lo * 100 <= avgConfidence (getStats now history) <= hi * 100).
  { intros lo hi Hne H. pose proof (average_bounds lo hi history Hne H) as Hab.
    unfold getStats. cbn [avgConfidence].
    destruct history; [congruence | exact Hab]. }
  split; [exact Havg |]. split; [| split; [| split]].
  - intros lo hi Hne H. split; [apply Hb; assumption |].
    rewrite Havg. destruct (Hb lo hi Hne H) as [H1 H2].
    split; apply Math_round_le; assumption.
  - intros isListening en frame at_ h e triggered Hin.
    change (confidenceOrZero (alertOf (triggered, e))) with (confidence e).
    pose proof (analyzeAudio_ceiling Math_sqrt isListening en frame at_ h) as Hc.
    rewrite Forall_forall in Hc. specialize (Hc e (proj2 (list_elem_of_In _ _) Hin)).
    pose proof (analyzeAudio_events Math_sqrt isListening en frame at_ h) as Hev.
    rewrite Hev in Hin. rewrite !in_app_iff in Hin.
    assert (Ht : confidenceThreshold (type e) < confidence e).
    { destruct Hin as [Hin | [Hin | Hin]];
        [ pose proof (proj2 (analyzeAudio_events_of_type Math_sqrt fire
                               isListening en frame at_ h)) as Hf
        | pose proof (proj2 (analyzeAudio_events_of_type Math_sqrt doorbell
                               isListening en frame at_ h)) as Hf
        | pose proof (proj2 (analyzeAudio_events_of_type Math_sqrt baby
                               isListening en frame at_ h)) as Hf ];
        rewrite Forall_forall in Hf;
        exact (proj1 (proj2 (Hf e (proj2 (list_elem_of_In _ _) Hin)))). }
    destruct (type e); cbn [confidenceThreshold Spec.maxConfidence] in Ht, Hc; split; lra.
  - intros canVibrate random t c triggered [H0 H1].
    eexists. split; [reflexivity |].
    change (confidenceOrZero _)
      with (simulateConfidence (demoMode (alertSettings c)) t random).
    unfold simulateConfidence. destruct (demoMode (alertSettings c)); [| destruct t];
      split; lra.
  - intros Hne H. destruct (Hb 0.7 0.98 Hne H) as [H1 H2]. rewrite Havg.
    split.
    + change 70%Z with (Math_round (0.7 * 100)). apply Math_round_le, H1.
    + change 98%Z with (Math_round (0.98 * 100)). apply Math_round_le, H2.
Qed.

End Confidence.

Lemma average_confidence_witness :
  (70 <= getAverageConfidence
           (alertHistory
              (deliver true [ (someNow, eventOf someNow fireToneCandidate) ] initialContext))
   <= 98)%Z.
Proof.
  apply (proj2 (proj2 (proj2 (proj2 (average_confidence sqrt53 someNow
           (alertHistory
              (deliver true [ (someNow, eventOf someNow fireToneCandidate) ]
                 initialContext))))))).
  - discriminate.
  - intros a [<- | []]. split; by_running.
Defined.

(** ** The figures of the history screen *)

Lemma filter_length_le {A : Type} (p q : A -> bool) (l : list A) :
  (forall a, p a = true -> q a = true) ->
  (length (List.filter p l) <= length (List.filter q l))%nat.
Proof.
  intros H. induction l as [| a l IH]; [reflexivity |].
  cbn [List.filter]. destruct (p a) eqn:Ep.
  - rewrite (H a Ep). cbn [length]. lia.
  - destruct (q a); cbn [length]; lia.
Qed.

Lemma filter_length_all {A : Type} (p : A -> bool) (l : list A) :
  (length (List.filter p l) <= length l)%nat.
Proof.
  induction l as [| a l IH]; [reflexivity |].
  cbn [List.filter]. destruct (p a); cbn [length]; lia.
Qed.

Lemma countOf_types (l : list SoundAlert) :
  (countOf (fun alert => SoundType_eqb (a_type alert) fire) l
   + countOf (fun alert => SoundType_eqb (a_type alert) doorbell) l
   + countOf (fun alert => SoundType_eqb (a_type alert) baby) l
   = Z.of_nat (length l))%Z.
Proof.
  unfold countOf. induction l as [| a l IH]; [reflexivity |].
  cbn [List.filter]. destruct (a_type a); cbn [SoundType_eqb length]; lia.
Qed.

(** X17.  The counts of the history screen add up.  The week's counts
    of the three types sum to the week's total; the alerts of the last 24
    hours (the listen screen's figure, read at the same time) are among
    those of the week, those of the week among those of the month, those
    of the month among all.  The type filter keeps exactly the alerts of
    its type, and the three filtered lists together have as many entries
    as the history; the filter 'all' keeps everything. *)
Theorem history_statistics (now : Z) (history : list SoundAlert) :
  (week_fire (week (getStats now history))
   + week_doorbell (week (getStats now history))
   + week_baby (week (getStats now history))
   = week_total (week (getStats now history)))%Z
  /\ (0 <= getRecentDetections now history
      <= week_total (week (getStats now history)))%Z
  /\ (week_total (week (getStats now history)) <= month_total (getStats now history))%Z
  /\ (month_total (getStats now history) <= Z.of_nat (length history))%Z
  /\ filteredHistory None history = history
  /\ (forall k alert,
        In alert (filteredHistory (Some k) history)
        <-> In alert history /\ a_type alert = k)
  /\ (forall k, exists dropped,
        Permutation (filteredHistory (Some k) history ++ dropped) history)
  /\ (length (filteredHistory (Some fire) history)
      + length (filteredHistory (Some doorbell) history)
      + length (filteredHistory (Some baby) history)
      = length history)%nat.
Proof.
  unfold getStats. cbn [week week_fire week_doorbell week_baby week_total month_total].
  split; [apply countOf_types |]. split; [| split; [| split; [| split; [| split; [| split]]]]].
  - unfold getRecentDetections. split; [lia |].
    apply Nat2Z.inj_le, filter_length_le. intros a Ha.
    apply Z.leb_le in Ha. apply Z.leb_le. lia.
  - apply Nat2Z.inj_le, filter_length_le. intros a Ha.
    apply Z.leb_le in Ha. apply Z.leb_le. lia.
  - apply Nat2Z.inj_le, filter_length_all.
  - reflexivity.
  - intros k alert. cbn [filteredHistory]. rewrite filter_In.
    split; intros [H1 H2]; (split; [exact H1 |]).
    + destruct (a_type alert), k; (reflexivity || discriminate).
    + rewrite H2. destruct k; reflexivity.
  - intros k. cbn [filteredHistory].
    exists (List.filter (fun alert => negb (SoundType_eqb (a_type alert) k)) history).
    induction history as [| a history IH]; [constructor |].
    cbn [List.filter]. destruct (SoundType_eqb (a_type a) k); cbn [negb app].
    + constructor. exact IH.
    + rewrite <- Permutation_middle. constructor. exact IH.
  - pose proof (countOf_types history) as H. unfold countOf in H.
    cbn [filteredHistory]. lia.
Qed.

(** ** Relative times *)

Lemma floor_quotient (d : Z) (p : positive) (q : Q) :
  q == inject_Z (Z.pos p) -> Math_floor (inject_Z d / q) = (d / Z.pos p)%Z.
Proof.
  intros Hq. unfold Math_floor.
  assert (E : inject_Z d / q == d # p).
  { rewrite Hq. symmetry. apply Qmake_Qdiv. }
  rewrite E. reflexivity.
Qed.

(** X18.  The relative time of the history screen, for an alert raised
    [d] milliseconds before it is read.  Below one minute, and for a
    timestamp in the future, the text is "Just now"; from one minute to
    below one hour it is the whole minutes [d / 60000] followed by "m ago";
    from one hour to below 24 hours the whole hours [d / 3600000] followed
    by "h ago"; from 24 hours on the whole days [d / 86400000] followed by
    "d ago". *)
Theorem format_timestamp (now timestamp : Z) :
  ((now - timestamp < 60000)%Z ->
   formatTimestamp now timestamp = "Just now"%string)
  /\ ((60000 <= now - timestamp < 3600000)%Z ->
      formatTimestamp now timestamp
      = (toString ((now - timestamp) / 60000) ++ "m ago")%string)
  /\ ((3600000 <= now - timestamp < 86400000)%Z ->
      formatTimestamp now timestamp
      = (toString ((now - timestamp) / 3600000) ++ "h ago")%string)
  /\ ((86400000 <= now - timestamp)%Z ->
      formatTimestamp now timestamp
      = (toString ((now - timestamp) / 86400000) ++ "d ago")%string).
Proof.
  unfold formatTimestamp. cbv zeta.
  set (d := (now - timestamp)%Z).
  rewrite (floor_quotient d 3600000 (1000 * 60 * 60)) by reflexivity.
  rewrite (floor_quotient d 60000 (1000 * 60)) by reflexivity.
  rewrite (floor_quotient (d / 3600000) 24 24) by reflexivity.
  rewrite Z.div_div by lia. change (3600000 * 24)%Z with 86400000%Z.
  split; [| split; [| split]]; intros H.
  - assert (Hh : (d / 3600000 < 1)%Z) by (apply Z.div_lt_upper_bound; lia).
    assert (Hm : (d / 60000 <= 0)%Z).
    { apply Z.lt_succ_r. apply Z.div_lt_upper_bound; lia. }
    apply Z.ltb_lt in Hh. apply Z.leb_le in Hm. rewrite Hh, Hm. reflexivity.
  - assert (Hh : (d / 3600000 < 1)%Z) by (apply Z.div_lt_upper_bound; lia).
    assert (Hm : (0 < d / 60000)%Z) by (apply Z.div_str_pos; lia).
    apply Z.ltb_lt in Hh. apply Z.leb_gt in Hm. rewrite Hh, Hm. reflexivity.
  - assert (Hh : (1 <= d / 3600000)%Z) by (apply Z.div_le_lower_bound; lia).
    assert (Hd : (d / 3600000 < 24)%Z) by (apply Z.div_lt_upper_bound; lia).
    apply Z.ltb_ge in Hh. apply Z.ltb_lt in Hd. rewrite Hh, Hd. reflexivity.
  - assert (Hh : (1 <= d / 3600000)%Z) by (apply Z.div_le_lower_bound; lia).
    assert (Hd : (24 <= d / 3600000)%Z) by (apply Z.div_le_lower_bound; lia).
    apply Z.ltb_ge in Hh. apply Z.ltb_ge in Hd. rewrite Hh, Hd. reflexivity.
Qed.

(** Ninety minutes, and a timestamp one second ahead of the clock. *)
Lemma format_timestamp_witness :
  formatTimestamp someNow (someNow - 5400000) = "1h ago"%string
  /\ formatTimestamp someNow (someNow + 1000) = "Just now"%string.
Proof.
  split.
  - rewrite (proj1 (proj2 (proj2 (format_timestamp someNow (someNow - 5400000)))));
      [reflexivity | vm_compute; split; [discriminate | reflexivity]].
  - apply (proj1 (format_timestamp someNow (someNow + 1000))). reflexivity.
Defined.

(** ** The frequency a range scan reports *)

Lemma Qdiv_lt_mult (a b w : Q) : 0 < w -> a / w < b -> a < b * w.
Proof.
  intros Hw H. assert (Hnz : ~ w == 0) by (intros E; rewrite E in Hw; lra).
  rewrite <- (Qmult_div_r a w Hnz). rewrite (Qmult_comm b w).
  apply Qmult_lt_l; assumption.
Qed.

Lemma Qlt_div_mult (a b w : Q) : 0 < w -> b < a / w -> b * w < a.
Proof.
  intros Hw H. assert (Hnz : ~ w == 0) by (intros E; rewrite E in Hw; lra).
  rewrite <- (Qmult_div_r a w Hnz). rewrite (Qmult_comm b w).
  apply Qmult_lt_l; assumption.
Qed.

(** A peak above 0 is reached by some bin. *)
Lemma firstAt_peak (data : Uint8Array) (l : list Z) :
  (0 < Spec.peakOver data l)%Z ->
  exists bin, Spec.firstAt data (Spec.peakOver data l) l = Some bin.
Proof.
  intros H. change (Spec.peakOver data l) with (bestOf (get data) l) in *.
  destruct (keep_fold (get data) (fun _ : Z => tt) l (0%Z, tt))
    as [[Hle _] | [_ (bin & Hb & _)]]; [simpl; lia | cbn [fst] in Hle; lia |].
  exists bin. exact Hb.
Qed.

(** The width of a bin in Hz. *)
Lemma bin_width (data : Uint8Array) (sr : Q) (bin : Z) :
  Spec.binFrequency (len data) sr bin == inject_Z bin * (sr / (2 * inject_Z (len data))).
Proof. unfold Spec.binFrequency. unfold Qdiv. ring. Qed.

Lemma scanRange_band (data : Uint8Array) (sr lo hi : Q) :
  0 < sr -> 0 <= lo ->
  (0 < rPeak (scanRange data sr lo hi))%Z ->
  exists bin,
    In bin (Spec.binsBetween data sr lo hi)
    /\ (0 <= bin < len data)%Z
    /\ get data bin = rPeak (scanRange data sr lo hi)
    /\ rPeakFreq (scanRange data sr lo hi) == Spec.binFrequency (len data) sr bin
    /\ lo - sr / (2 * inject_Z (len data)) < rPeakFreq (scanRange data sr lo hi)
    /\ rPeakFreq (scanRange data sr lo hi) < hi + sr / (2 * inject_Z (len data))
    /\ rPeakFreq (scanRange data sr lo hi) < sr / 2.
Proof.
  intros Hsr Hlo Hp.
  destruct (scanRange_frequency data sr lo hi) as [Epeak Efreq].
  rewrite Epeak in *.
  set (l := Spec.binsBetween data sr lo hi) in *.
  destruct (firstAt_peak data l Hp) as (bin & Hbin).
  assert (Ebin : rPeakFreq (scanRange data sr lo hi)
                 == Spec.binFrequency (len data) sr bin).
  { rewrite Efreq. unfold Spec.peakFrequency.
    apply Z.ltb_lt in Hp. rewrite Hp, Hbin. reflexivity. }
  destruct (find_some _ _ Hbin) as [Hin Hval]. apply Z.eqb_eq in Hval.
  pose proof (proj2 (reads_in_bounds data sr lo hi 0 0 bin) Hsr Hlo Hin) as Hb.
  exists bin. split; [exact Hin |]. split; [exact Hb |]. split; [exact Hval |].
  split; [exact Ebin |].
  rewrite Ebin, (bin_width data sr bin).
  set (N := inject_Z (len data)).
  assert (HN : 0 < N).
  { subst N. change 0 with (inject_Z 0). rewrite <- Zlt_Qlt. lia. }
  set (w := sr / (2 * N)).
  assert (Hw : 0 < w).
  { subst w. apply Qlt_shift_div_l; [lra |]. lra. }
  subst l. unfold Spec.binsBetween in Hin. apply in_indices in Hin.
  destruct Hin as [Hfloor Hceil].
  assert (Elo : lo * N / (sr / 2) == lo / w).
  { subst w. field. split; lra. }
  assert (Ehi : hi * N / (sr / 2) == hi / w).
  { subst w. field. split; lra. }
  fold N in Hfloor, Hceil.
  split; [| split].
  - pose proof (Qlt_floor (lo * N / (sr / 2))) as Hf.
    unfold Math_floor in Hfloor.
    assert (Hlt : lo * N / (sr / 2) < inject_Z bin + 1).
    { eapply Qlt_le_trans; [exact Hf |].
      change (inject_Z bin + 1) with (inject_Z bin + inject_Z 1).
      rewrite <- (inject_Z_plus bin 1). rewrite <- Zle_Qle. lia. }
    rewrite Elo in Hlt. apply (Qdiv_lt_mult _ _ _ Hw) in Hlt.
    assert (E : (inject_Z bin + 1) * w == inject_Z bin * w + w) by ring.
    rewrite E in Hlt. lra.
  - pose proof (Qceiling_lt (hi * N / (sr / 2))) as Hc.
    unfold Math_ceil in Hceil.
    assert (Hlt : inject_Z bin - 1 < hi * N / (sr / 2)).
    { eapply Qle_lt_trans; [| exact Hc].
      change (inject_Z bin - 1) with (inject_Z bin + inject_Z (-1)).
      rewrite <- (inject_Z_plus bin (-1)). rewrite <- Zle_Qle. lia. }
    rewrite Ehi in Hlt. apply (Qlt_div_mult _ _ _ Hw) in Hlt.
    assert (E : (inject_Z bin - 1) * w == inject_Z bin * w - w) by ring.
    rewrite E in Hlt. lra.
  - assert (Hbn : inject_Z bin < N).
    { subst N. rewrite <- Zlt_Qlt. lia. }
    assert (E : sr / 2 == N * w).
    { subst w. field. lra. }
    rewrite E. apply Qmult_lt_compat_r; assumption.
Qed.

(** X19.  The frequency a candidate reports, at a positive sample
    rate.  A baby candidate reports the frequency of a bin of the
    250-600 Hz range: it lies less than one bin width (sampleRate / 2 /
    bins) outside 250-600 Hz.  A doorbell candidate reports the frequency
    of a bin of one of its active ranges, so it lies less than one bin
    width outside that range, hence outside 350-1600 Hz.  Both are below
    half the sample rate, and the bin is one that holds the reported
    amplitude. *)
Theorem reported_frequency (en : EnabledSounds) (data : Uint8Array) (sr : Q) (c : Candidate) :
  0 < sr ->
  (detectBabyCrying en data sr = Some c ->
   (exists bin,
       (0 <= bin < len data)%Z
       /\ get data bin = c_amplitude c
       /\ c_frequency c == Spec.binFrequency (len data) sr bin)
   /\ 250 - sr / (2 * inject_Z (len data)) < c_frequency c
   /\ c_frequency c < 600 + sr / (2 * inject_Z (len data))
   /\ c_frequency c < sr / 2)
  /\ (detectDoorbell en data sr = Some c ->
      (exists bin,
          (0 <= bin < len data)%Z
          /\ get data bin = c_amplitude c
          /\ c_frequency c == Spec.binFrequency (len data) sr bin)
      /\ (exists r,
             In r ranges
             /\ Spec.active data sr r = true
             /\ min r - sr / (2 * inject_Z (len data)) < c_frequency c
             /\ c_frequency c < max r + sr / (2 * inject_Z (len data)))
      /\ 350 - sr / (2 * inject_Z (len data)) < c_frequency c
      /\ c_frequency c < 1600 + sr / (2 * inject_Z (len data))
      /\ c_frequency c < sr / 2).
Proof.
  intros Hsr. split; intros Hc.
  - destruct (detectBabyCrying_Some _ _ _ _ Hc) as (_ & Hf & Ha).
    unfold analyzeRange in Hf, Ha. cbn [rfrequency peak] in Hf, Ha.
    assert (Hp : (0 < rPeak (scanRange data sr 250 600))%Z).
    { rewrite detectBabyCrying_cases in Hc.
      destruct (negb (es_baby en)); [discriminate |].
      destruct (80 <? peak (analyzeRange data sr 250 600))%Z eqn:E0; [| discriminate].
      apply Z.ltb_lt in E0. unfold analyzeRange in E0. cbn [peak] in E0. lia. }
    destruct (scanRange_band data sr 250 600 Hsr ltac:(lra) Hp)
      as (bin & _ & Hb & Hv & Hq & H1 & H2 & H3).
    rewrite Hf, Ha. split; [exists bin; auto |]. auto.
  - destruct (doorbell_dominant _ _ _ _ Hc) as (r & Hin & Hon & Ha & Hf).
    assert (Hp : (0 < rPeak (scanRange data sr (min r) (max r)))%Z).
    { rewrite (proj1 (scanRange_frequency data sr (min r) (max r))).
      unfold Spec.active in Hon. apply andb_true_iff in Hon. destruct Hon as [Hpk _].
      apply Z.ltb_lt in Hpk. unfold Spec.rangeBins in Hpk. lia. }
    assert (Hmin : 350 <= min r /\ max r <= 1600).
    { destruct Hin as [<- | [<- | [<- | []]]]; cbn [min max]; split; lra. }
    destruct (scanRange_band data sr (min r) (max r) Hsr ltac:(lra) Hp)
      as (bin & _ & Hb & Hv & Hq & H1 & H2 & H3).
    rewrite Hf. split; [| split].
    + exists bin. split; [exact Hb |]. split; [| exact Hq].
      rewrite Ha, Hv. unfold Spec.rangePeak, Spec.rangeBins.
      apply (proj1 (scanRange_frequency data sr (min r) (max r))).
    + exists r. auto.
    + destruct Hmin. repeat split; [lra | lra | exact H3].
Qed.

(** The cry at 48 kHz: 8192 bins, each 48000 / 16384 Hz wide. *)
Lemma reported_frequency_witness :
  exists c,
    detectBabyCrying allEnabled babyCry 48000 = Some c
    /\ 250 - 48000 / (2 * inject_Z (len babyCry)) < c_frequency c.
Proof.
  destruct (detectBabyCrying allEnabled babyCry 48000) as [c |] eqn:E;
    [| exfalso; revert E; by_running].
  exists c. split; [reflexivity |].
  apply (proj1 (reported_frequency allEnabled babyCry 48000 c eq_refl) E).
Defined.

(** * The level against the frame, and its rounding (claim C4) *)








(** ** The level in binary64 *)







Section Smoothing.

Variable Math_sqrt : Q -> Q.
Hypothesis Math_sqrt_nonneg : forall x, 0 <= Math_sqrt x.
Hypothesis Math_sqrt_compat : forall x y, x == y -> Math_sqrt x == Math_sqrt y.




End Smoothing.



(** * The mask, the chain and the effect (claim C7) *)

Lemma prepareListeningWith_state (b : Browser) (h : Hook) :
  prepareListeningWith (hasPermission h) b h = prepareListening b h.
Proof. reflexivity. Qed.





Section Mask.

Variable Math_sqrt : Q -> Q.





End Mask.



